(** * DCPSPI: the daemon's start-up, run loop and shutdown (dcpspi.c, dcpdefs.h)

    A shallow embedding of [process_command_line], [setup], [main_loop],
    [signal_handler] and [main] of dcpspi.c, together with the constants of
    dcpdefs.h.  Calls into the other modules of the daemon and into the C
    library are observable actions: each one is appended to a trace and takes
    its result from an [environment].  Signals are delivered between two
    observable actions, according to a schedule that is part of the
    environment too. *)

From Stdlib Require Import ZArith List String Ascii Bool Lia.
Import ListNotations.

Local Open Scope string_scope.
Local Open Scope list_scope.
Local Open Scope Z_scope.

(** ** dcpdefs.h *)

Module DcpDefs.

Definition DCPSYNC_HEADER_SIZE : Z := 6.
Definition DCPSYNC_SLAVE_SERIAL_INVALID : Z := 0x0000.
Definition DCPSYNC_SLAVE_SERIAL_MIN : Z := 0x0001.
Definition DCPSYNC_SLAVE_SERIAL_MAX : Z := 0x7fff.
Definition DCPSYNC_MASTER_SERIAL_INVALID : Z := 0x8000.
Definition DCPSYNC_MASTER_SERIAL_MIN : Z := 0x8001.
Definition DCPSYNC_MASTER_SERIAL_MAX : Z := 0xffff.

Definition DCP_HEADER_SIZE : Z := 4.
Definition DCP_PAYLOAD_MAXSIZE : Z := 256.

Definition DCP_COMMAND_WRITE_REGISTER : Z := 0.
Definition DCP_COMMAND_READ_REGISTER : Z := 1.
Definition DCP_COMMAND_MULTI_WRITE_REGISTER : Z := 2.
Definition DCP_COMMAND_MULTI_READ_REGISTER : Z := 3.

Definition DCP_ESCAPE_CHARACTER : Z := 0x27.

(** The serial number of a synchronization header is a 16-bit value; the
    two ranges of dcpdefs.h as decidable predicates. *)
Definition is_slave_serial (serial : Z) : bool :=
  (DCPSYNC_SLAVE_SERIAL_MIN <=? serial) && (serial <=? DCPSYNC_SLAVE_SERIAL_MAX).

Definition is_master_serial (serial : Z) : bool :=
  (DCPSYNC_MASTER_SERIAL_MIN <=? serial) && (serial <=? DCPSYNC_MASTER_SERIAL_MAX).

End DcpDefs.

(** ** C library: characters, strings, [strtoul] *)

Module LibC.

Definition EXIT_SUCCESS : Z := 0.
Definition EXIT_FAILURE : Z := 1.

Definition ERANGE : Z := 34.

(** [unsigned int] and [uint32_t] have 32 bits on every Linux ABI;
    [unsigned long] has 32 or 64 bits, so [ULONG_MAX] is a parameter of the
    functions that depend on it. *)
Definition UINT32_MAX : Z := 4294967295.
Definition UINT_MAX : Z := 4294967295.

Definition NUL : ascii := Ascii.zero.

(** [s[i]] for a C string: the terminating NUL is read at the end. *)
Fixpoint char_at (s : string) (i : nat) : ascii :=
  match s, i with
  | EmptyString, _ => NUL
  | String c _, O => c
  | String _ r, S j => char_at r j
  end.

(** [strcmp(a, b) == 0] *)
Definition strcmp_eq (a b : string) : bool := String.eqb a b.

Definition isspace (c : ascii) : bool :=
  let n := N_of_ascii c in
  (N.eqb n 32 || (N.leb 9 n && N.leb n 13))%bool.

Definition digit_value (c : ascii) : option Z :=
  let n := Z.of_N (N_of_ascii c) in
  if (48 <=? n) && (n <=? 57) then Some (n - 48) else None.

Fixpoint skip_spaces (s : string) : string :=
  match s with
  | String c r => if isspace c then skip_spaces r else s
  | EmptyString => s
  end.

(** The longest prefix of decimal digits, accumulated without a bound, and
    what follows it. *)
Fixpoint scan_digits (acc : Z) (s : string) : Z * string :=
  match s with
  | String c r =>
      match digit_value c with
      | Some d => scan_digits (10 * acc + d) r
      | None => (acc, s)
      end
  | EmptyString => (acc, s)
  end.

(** [strtoul(nptr, &endptr, 10)]: the value, the string at [endptr] and
    the value of [errno] after the call.  White space is skipped, one sign
    is accepted, a negated value wraps around in [unsigned long]; without a
    digit nothing is converted and [endptr] is [nptr]; a value that does not
    fit gives [ULONG_MAX] and [ERANGE]. *)
Definition strtoul (ULONG_MAX : Z) (errno : Z) (nptr : string)
  : Z * string * Z :=
  let s := skip_spaces nptr in
  let '(negative, s1) :=
    match s with
    | String "-"%char r => (true, r)
    | String "+"%char r => (false, r)
    | _ => (false, s)
    end in
  match digit_value (char_at s1 0) with
  | None => (0, nptr, errno)
  | Some _ =>
      let '(v, rest) := scan_digits 0 s1 in
      if ULONG_MAX <? v then (ULONG_MAX, rest, ERANGE)
      else ((if negative then (- v) mod (ULONG_MAX + 1) else v), rest, errno)
  end.

End LibC.

Import DcpDefs LibC.

(** ** Command line *)

Record parameters := mk_parameters {
  fifo_in_name : string;
  fifo_out_name : string;
  spidev_name : string;
  spi_clock : Z;               (* uint32_t *)
  gpio_num : Z;                (* unsigned int *)
  run_in_foreground : bool;
  gpio_needs_debouncing : bool;
  dummy_mode : bool
}.

Definition set_fifo_in_name (v : string) (p : parameters) : parameters :=
  mk_parameters v (fifo_out_name p) (spidev_name p) (spi_clock p) (gpio_num p)
    (run_in_foreground p) (gpio_needs_debouncing p) (dummy_mode p).
Definition set_fifo_out_name (v : string) (p : parameters) : parameters :=
  mk_parameters (fifo_in_name p) v (spidev_name p) (spi_clock p) (gpio_num p)
    (run_in_foreground p) (gpio_needs_debouncing p) (dummy_mode p).
Definition set_spidev_name (v : string) (p : parameters) : parameters :=
  mk_parameters (fifo_in_name p) (fifo_out_name p) v (spi_clock p) (gpio_num p)
    (run_in_foreground p) (gpio_needs_debouncing p) (dummy_mode p).
Definition set_spi_clock (v : Z) (p : parameters) : parameters :=
  mk_parameters (fifo_in_name p) (fifo_out_name p) (spidev_name p) v (gpio_num p)
    (run_in_foreground p) (gpio_needs_debouncing p) (dummy_mode p).
Definition set_gpio_num (v : Z) (p : parameters) : parameters :=
  mk_parameters (fifo_in_name p) (fifo_out_name p) (spidev_name p) (spi_clock p) v
    (run_in_foreground p) (gpio_needs_debouncing p) (dummy_mode p).
Definition set_run_in_foreground (v : bool) (p : parameters) : parameters :=
  mk_parameters (fifo_in_name p) (fifo_out_name p) (spidev_name p) (spi_clock p)
    (gpio_num p) v (gpio_needs_debouncing p) (dummy_mode p).
Definition set_gpio_needs_debouncing (v : bool) (p : parameters) : parameters :=
  mk_parameters (fifo_in_name p) (fifo_out_name p) (spidev_name p) (spi_clock p)
    (gpio_num p) (run_in_foreground p) v (dummy_mode p).
Definition set_dummy_mode (v : bool) (p : parameters) : parameters :=
  mk_parameters (fifo_in_name p) (fifo_out_name p) (spidev_name p) (spi_clock p)
    (gpio_num p) (run_in_foreground p) (gpio_needs_debouncing p) v.

(** The values [process_command_line] stores before it looks at [argv]. *)
Definition default_parameters : parameters :=
  {| fifo_in_name := "/tmp/dcp_to_spi";
     fifo_out_name := "/tmp/spi_to_dcp";
     spidev_name := "/dev/spidev0.0";
     spi_clock := 0;
     gpio_num := 4;
     run_in_foreground := false;
     gpio_needs_debouncing := false;
     dummy_mode := false |}.

(** The test both numeric options apply to the result of [strtoul]:
    [*endptr != '\0' || temp > max || (temp == ULONG_MAX && errno == ERANGE)]. *)
Definition invalid_number (ULONG_MAX max : Z) (r : Z * string * Z) : bool :=
  let '(temp, endptr, errno) := r in
  negb (Ascii.eqb (char_at endptr 0) NUL)
  || (max <? temp)
  || ((temp =? ULONG_MAX) && (errno =? ERANGE)).

(** The [for] loop of [process_command_line] over [argv[i]], [argv[i+1]],
    ...: [args] is what is left of [argv] from index [i] on.  [Some r] is a
    [return r] from inside the loop, [None] is the loop running to its end.
    [CHECK_ARGUMENT] fails when no element follows the option.  The texts
    written to [stderr] are not part of the model. *)
Fixpoint scan_arguments (ULONG_MAX : Z) (args : list string) (errno : Z)
  (p : parameters) : option Z * parameters :=
  match args with
  | [] => (None, p)
  | a :: rest =>
      if strcmp_eq a "--help" then (Some 1, p)
      else if strcmp_eq a "--version" then (Some 2, p)
      else if strcmp_eq a "--fg" then
        scan_arguments ULONG_MAX rest errno (set_run_in_foreground true p)
      else if strcmp_eq a "--ififo" then
        match rest with
        | [] => (Some (-1), p)
        | v :: rest' => scan_arguments ULONG_MAX rest' errno (set_fifo_in_name v p)
        end
      else if strcmp_eq a "--ofifo" then
        match rest with
        | [] => (Some (-1), p)
        | v :: rest' => scan_arguments ULONG_MAX rest' errno (set_fifo_out_name v p)
        end
      else if strcmp_eq a "--spidev" then
        match rest with
        | [] => (Some (-1), p)
        | v :: rest' => scan_arguments ULONG_MAX rest' errno (set_spidev_name v p)
        end
      else if strcmp_eq a "--spiclk" then
        match rest with
        | [] => (Some (-1), p)
        | v :: rest' =>
            let r := strtoul ULONG_MAX errno v in
            if invalid_number ULONG_MAX UINT32_MAX r then (Some (-1), p)
            else scan_arguments ULONG_MAX rest' (snd r)
                   (set_spi_clock (fst (fst r) mod (UINT32_MAX + 1)) p)
        end
      else if strcmp_eq a "--gpio" then
        match rest with
        | [] => (Some (-1), p)
        | v :: rest' =>
            let r := strtoul ULONG_MAX errno v in
            if invalid_number ULONG_MAX UINT_MAX r then (Some (-1), p)
            else scan_arguments ULONG_MAX rest' (snd r)
                   (set_gpio_num (fst (fst r) mod (UINT_MAX + 1)) p)
        end
      else if strcmp_eq a "--debounce" then
        scan_arguments ULONG_MAX rest errno (set_gpio_needs_debouncing true p)
      else (Some (-1), p)
  end.

(** [process_command_line(argc, argv, &parameters)]: the return value and
    the parameters.  [argv[0]] is skipped ([i] starts at 1); [errno] is 0
    when the program starts. *)
Definition process_command_line (ULONG_MAX : Z) (argv : list string)
  : Z * parameters :=
  match scan_arguments ULONG_MAX (tl argv) 0 default_parameters with
  | (Some r, p) => (r, p)
  | (None, p) =>
      if Ascii.eqb (char_at (spidev_name p) 0) "-"
         && Ascii.eqb (char_at (spidev_name p) 1) NUL
      then (0, set_dummy_mode true p)
      else (0, p)
  end.


(** ** Data handed to the transaction engine *)

(** The two static arrays of [main_loop]. *)
Inductive backing_buffer := dcp_backing_buffer | spi_backing_buffer.

(** [sizeof] of the static arrays, as their declarations compute it. *)
Definition sizeof_backing (b : backing_buffer) : Z :=
  match b with
  | dcp_backing_buffer =>
      DCPSYNC_HEADER_SIZE + DCP_HEADER_SIZE + DCP_PAYLOAD_MAXSIZE
  | spi_backing_buffer => (DCP_HEADER_SIZE + DCP_PAYLOAD_MAXSIZE) * 2
  end.

(** Modelled from the spec: the declarations of [struct dcp_transaction]
    and of its buffers (dcpspi_process.h) are not among the sources.
    [buffer] and [size] are the members [main_loop] initialises;
    [arena_length] and [arena_cursor] are the write and read cursors of the spec's Byte Arena,
    zero like every member the initialiser of [main_loop] does not name. *)
Record byte_arena := mk_byte_arena {
  buffer : backing_buffer;
  size : Z;
  arena_length : Z;
  arena_cursor : Z
}.

Record dcp_transaction := mk_dcp_transaction {
  dcp_buffer : byte_arena;
  spi_buffer : byte_arena
}.

(** [struct gpio_handle *]: [None] is [NULL]. *)
Definition gpio_ptr := option Z.
Definition NULL : gpio_ptr := None.

(** [struct slave_request_and_lock_data], with the members [main_loop]
    initialises. *)
Record slave_request_and_lock_data := mk_rldata {
  rl_gpio : gpio_ptr;
  rl_gpio_fd : Z;
  is_running_for_real : bool;
  previous_gpio_state : bool
}.

(** The four variables [main] passes to [setup] by address. *)
Record handles := mk_handles {
  fifo_in_fd : Z;
  fifo_out_fd : Z;
  spi_fd : Z;
  gpio : gpio_ptr
}.

(** ** Signals *)

Inductive signum := SIGINT | SIGTERM.

(** Linux values of the two flags [main] sets. *)
Definition SA_SIGINFO : Z := 0x4.
Definition SA_RESETHAND : Z := 0x80000000.

(** The only handler of the program. *)
Inductive handler_function := the_signal_handler.

Record struct_sigaction := mk_sigaction {
  sa_sigaction : handler_function;
  sa_flags : Z;
  sa_mask : list signum
}.

Inductive disposition :=
| SIG_DFL
| SIG_IGN
| SIG_ACTION (act : struct_sigaction).

(** ** Observable actions *)

Inductive event :=
| ev_usage (program_name : string)
| ev_show_version_info
| ev_msg_enable_syslog (enable : bool)
| ev_openlog
| ev_daemon (ret : Z)
| ev_msg_error (text : string)
| ev_msg_info (text : string)
| ev_log_version_info
| ev_fifo_create_and_open (name : string) (write_not_read : bool) (ret : Z)
| ev_spi_open_device (name : string) (ret : Z)
| ev_gpio_open (num : Z) (ret : gpio_ptr)
| ev_gpio_enable_debouncing (g : gpio_ptr)
| ev_spi_set_speed_hz (hz : Z)
| ev_spi_close_device (fd : Z)
| ev_fifo_close_and_delete (fd : Z) (name : string)
| ev_gpio_close (g : gpio_ptr)
| ev_sigaction (sig : signum) (act : struct_sigaction)
| ev_reset_transaction_struct (t : dcp_transaction)
| ev_gpio_get_poll_fd (g : gpio_ptr) (ret : Z)
| ev_gpio_is_active (g : gpio_ptr) (ret : bool)
| ev_read_keep_running (value : bool)
| ev_dcpspi_process (fifo_in fifo_out spi : Z) (t : dcp_transaction)
    (rl : slave_request_and_lock_data) (ret : bool).

(** ** The environment of a run

    Everything the program does not decide itself: the platform, the
    results of the calls into modules whose code is elsewhere, and the
    times at which signals arrive. *)
Record environment := mk_environment {
  env_ULONG_MAX : Z;
  (** dispositions inherited when the program starts *)
  env_inherited : signum -> disposition;
  (** [env_signals n]: the signals that arrive after [n] observable
      actions, before the next one *)
  env_signals : nat -> list signum;
  (** what the automatic variables of [main] hold before [setup] *)
  env_indeterminate : handles;
  env_daemon : Z;
  env_fifo_create_and_open : string -> bool -> Z;
  env_spi_open_device : string -> Z;
  env_gpio_open : Z -> bool -> gpio_ptr;
  env_gpio_get_poll_fd : gpio_ptr -> Z;
  env_gpio_is_active : gpio_ptr -> bool;
  env_reset_transaction_struct : dcp_transaction -> bool -> dcp_transaction;
  (** [env_dcpspi_process n]: the call made after [n] observable actions *)
  env_dcpspi_process :
    nat -> Z -> Z -> Z -> dcp_transaction -> slave_request_and_lock_data ->
    bool * dcp_transaction * slave_request_and_lock_data
}.

(** ** The process *)

Record process := mk_process {
  keep_running : bool;          (* static volatile bool keep_running *)
  on_SIGINT : disposition;
  on_SIGTERM : disposition;
  trace : list event            (* oldest action first *)
}.

Definition clock (st : process) : nat := List.length (trace st).

Definition disposition_of (sig : signum) (st : process) : disposition :=
  match sig with SIGINT => on_SIGINT st | SIGTERM => on_SIGTERM st end.

Definition set_disposition (sig : signum) (d : disposition) (st : process)
  : process :=
  match sig with
  | SIGINT => mk_process (keep_running st) d (on_SIGTERM st) (trace st)
  | SIGTERM => mk_process (keep_running st) (on_SIGINT st) d (trace st)
  end.

Definition set_keep_running (b : bool) (st : process) : process :=
  mk_process b (on_SIGINT st) (on_SIGTERM st) (trace st).

Definition log (e : event) (st : process) : process :=
  mk_process (keep_running st) (on_SIGINT st) (on_SIGTERM st) (trace st ++ [e]).

(** [keep_running] is initialised to [true]. *)
Definition initial_process (env : environment) : process :=
  {| keep_running := true;
     on_SIGINT := env_inherited env SIGINT;
     on_SIGTERM := env_inherited env SIGTERM;
     trace := [] |}.

(** [signal_handler(signum, info, ucontext)] *)
Definition signal_handler (sig : signum) (st : process) : process :=
  set_keep_running false st.

Definition run_handler (h : handler_function) : signum -> process -> process :=
  match h with the_signal_handler => signal_handler end.

(** Delivery of one signal (POSIX): the default action of SIGINT and of
    SIGTERM terminates the process ([None]); with [SA_RESETHAND] the
    disposition is reset to [SIG_DFL] on entry to the handler. *)
Definition deliver (sig : signum) (st : process) : option process :=
  match disposition_of sig st with
  | SIG_DFL => None
  | SIG_IGN => Some st
  | SIG_ACTION act =>
      let st1 :=
        if Z.land (sa_flags act) SA_RESETHAND =? 0 then st
        else set_disposition sig SIG_DFL st in
      Some (run_handler (sa_sigaction act) sig st1)
  end.

(** ** A monad for the program: state, termination by a signal, fuel *)

Inductive result (A : Type) :=
| Done (a : A) (st : process)
| Killed (sig : signum) (st : process)
| OutOfFuel (st : process).

Arguments Done {A} a st.
Arguments Killed {A} sig st.
Arguments OutOfFuel {A} st.

Definition M (A : Type) := process -> result A.

Definition ret {A} (a : A) : M A := fun st => Done a st.

Definition bind {A B} (m : M A) (k : A -> M B) : M B :=
  fun st =>
    match m st with
    | Done a st1 => k a st1
    | Killed sig st1 => Killed sig st1
    | OutOfFuel st1 => OutOfFuel st1
    end.

Notation "x <- m ;; k" := (bind m (fun x => k))
  (at level 61, m at next level, right associativity).
Notation "m ;; k" := (bind m (fun _ => k))
  (at level 61, right associativity).

Definition out_of_fuel {A} : M A := fun st => OutOfFuel st.

Fixpoint deliver_all (sigs : list signum) : M unit :=
  fun st =>
    match sigs with
    | [] => Done tt st
    | sig :: more =>
        match deliver sig st with
        | None => Killed sig st
        | Some st1 => deliver_all more st1
        end
    end.

(** One observable action: the signals that have arrived since the last
    action are delivered, then the action happens; [obs] gives its result
    and the event that records it, [upd] what it changes in the process. *)
Definition observable {A} (env : environment) (upd : process -> process)
  (obs : process -> A * event) : M A :=
  fun st =>
    match deliver_all (env_signals env (clock st)) st with
    | Done _ st1 => Done (fst (obs st1)) (log (snd (obs st1)) (upd st1))
    | Killed sig st1 => Killed sig st1
    | OutOfFuel st1 => OutOfFuel st1
    end.

(** A call whose result [r] the environment decides. *)
Definition call {A} (env : environment) (r : A) (e : event) : M A :=
  observable env (fun st => st) (fun _ => (r, e)).

(** The evaluation of [keep_running] in the condition of the loop. *)
Definition read_keep_running (env : environment) : M bool :=
  observable env (fun st => st)
    (fun st => (keep_running st, ev_read_keep_running (keep_running st))).

(** [sigaction(sig, &act, NULL)] *)
Definition sigaction (env : environment) (sig : signum) (act : struct_sigaction)
  : M Z :=
  observable env (set_disposition sig (SIG_ACTION act))
    (fun _ => (0, ev_sigaction sig act)).

(** [dcpspi_process(fifo_in_fd, fifo_out_fd, spi_fd, &transaction, &rldata)]:
    the return value and what the call leaves in the two structures. *)
Definition dcpspi_process (env : environment) (h : handles)
  (t : dcp_transaction) (rl : slave_request_and_lock_data)
  : M (bool * dcp_transaction * slave_request_and_lock_data) :=
  observable env (fun st => st)
    (fun st =>
       let r := env_dcpspi_process env (clock st) (fifo_in_fd h)
                  (fifo_out_fd h) (spi_fd h) t rl in
       (r, ev_dcpspi_process (fifo_in_fd h) (fifo_out_fd h) (spi_fd h) t rl
             (fst (fst r)))).

(** ** dcpspi.c *)

Definition log_version_info (env : environment) : M unit :=
  call env tt ev_log_version_info.

(** The three labels at the end of [setup]; each one falls through to the
    next. *)
Definition error_fifo_out (env : environment) (p : parameters) (h : handles)
  : M (Z * handles) :=
  call env tt (ev_fifo_close_and_delete (fifo_in_fd h) (fifo_in_name p)) ;;
  ret (-1, h).

Definition error_spi_open (env : environment) (p : parameters) (h : handles)
  : M (Z * handles) :=
  call env tt (ev_fifo_close_and_delete (fifo_out_fd h) (fifo_out_name p)) ;;
  error_fifo_out env p h.

Definition error_gpio_open (env : environment) (p : parameters) (h : handles)
  : M (Z * handles) :=
  call env tt (ev_spi_close_device (spi_fd h)) ;;
  error_spi_open env p h.

(** [setup(parameters, &fifo_in_fd, &fifo_out_fd, &spi_fd, &gpio)]: the
    return value and the four variables.  [fifo_close_and_delete] gets the
    address of a descriptor that is not read again afterwards; what it
    stores there is not part of the model. *)
Definition setup (env : environment) (p : parameters) (h : handles)
  : M (Z * handles) :=
  call env tt (ev_msg_enable_syslog (negb (run_in_foreground p))) ;;
  (if negb (run_in_foreground p) then call env tt ev_openlog else ret tt) ;;
  d <- (if negb (run_in_foreground p)
        then call env (env_daemon env) (ev_daemon (env_daemon env))
        else ret 0) ;;
  if d <? 0 then
    call env tt (ev_msg_error "Failed to run as daemon") ;;
    ret (-1, h)
  else
    log_version_info env ;;
    fd_in <- (let r := env_fifo_create_and_open env (fifo_in_name p) false in
              call env r (ev_fifo_create_and_open (fifo_in_name p) false r)) ;;
    let h := mk_handles fd_in (fifo_out_fd h) (spi_fd h) (gpio h) in
    if fd_in <? 0 then ret (-1, h)
    else
      fd_out <- (let r := env_fifo_create_and_open env (fifo_out_name p) true in
                 call env r (ev_fifo_create_and_open (fifo_out_name p) true r)) ;;
      let h := mk_handles (fifo_in_fd h) fd_out (spi_fd h) (gpio h) in
      if fd_out <? 0 then error_fifo_out env p h
      else if dummy_mode p then
        ret (0, mk_handles (fifo_in_fd h) (fifo_out_fd h) (-1) NULL)
      else
        fd_spi <- (let r := env_spi_open_device env (spidev_name p) in
                   call env r (ev_spi_open_device (spidev_name p) r)) ;;
        let h := mk_handles (fifo_in_fd h) (fifo_out_fd h) fd_spi (gpio h) in
        if fd_spi <? 0 then error_spi_open env p h
        else
          g <- (let r := env_gpio_open env (gpio_num p) false in
                call env r (ev_gpio_open (gpio_num p) r)) ;;
          let h := mk_handles (fifo_in_fd h) (fifo_out_fd h) (spi_fd h) g in
          match g with
          | None => error_gpio_open env p h
          | Some _ =>
              (if gpio_needs_debouncing p
               then call env tt (ev_gpio_enable_debouncing g)
               else ret tt) ;;
              call env tt (ev_spi_set_speed_hz (spi_clock p)) ;;
              ret (0, h)
          end.

(** The transaction as the initialiser of [main_loop] builds it. *)
Definition initial_transaction : dcp_transaction :=
  {| dcp_buffer :=
       {| buffer := dcp_backing_buffer;
          size := sizeof_backing dcp_backing_buffer;
          arena_length := 0;
          arena_cursor := 0 |};
     spi_buffer :=
       {| buffer := spi_backing_buffer;
          size := sizeof_backing spi_backing_buffer;
          arena_length := 0;
          arena_cursor := 0 |} |}.

(** [while(keep_running && dcpspi_process(...)) ;] with a bound on the
    number of iterations. *)
Fixpoint main_loop_while (env : environment) (fuel : nat) (h : handles)
  (t : dcp_transaction) (rl : slave_request_and_lock_data) : M unit :=
  match fuel with
  | O => out_of_fuel
  | S fuel' =>
      running <- read_keep_running env ;;
      if running then
        r <- dcpspi_process env h t rl ;;
        if fst (fst r) then main_loop_while env fuel' h (snd (fst r)) (snd r)
        else ret tt
      else ret tt
  end.

(** [main_loop(fifo_in_fd, fifo_out_fd, spi_fd, gpio)] *)
Definition main_loop (env : environment) (fuel : nat) (h : handles) : M unit :=
  call env tt (ev_msg_info "Accepting traffic") ;;
  t <- (let r := env_reset_transaction_struct env initial_transaction true in
        call env r (ev_reset_transaction_struct initial_transaction)) ;;
  gpio_fd <- match gpio h with
             | Some _ =>
                 let r := env_gpio_get_poll_fd env (gpio h) in
                 call env r (ev_gpio_get_poll_fd (gpio h) r)
             | None => ret (-1)
             end ;;
  active <- match gpio h with
            | Some _ =>
                let r := env_gpio_is_active env (gpio h) in
                call env r (ev_gpio_is_active (gpio h) r)
            | None => ret false
            end ;;
  let rldata :=
    {| rl_gpio := gpio h;
       rl_gpio_fd := gpio_fd;
       is_running_for_real := match gpio h with Some _ => true | None => false end;
       previous_gpio_state := active |} in
  main_loop_while env fuel h t rldata.

(** The static [struct sigaction action] of [main], after [sigemptyset]. *)
Definition action : struct_sigaction :=
  {| sa_sigaction := the_signal_handler;
     sa_flags := Z.lor SA_SIGINFO SA_RESETHAND;
     sa_mask := [] |}.

(** What [main] does after the main loop has ended. *)
Definition shutdown (env : environment) (p : parameters) (h : handles) : M Z :=
  call env tt (ev_msg_info "Terminated, shutting down") ;;
  (if negb (dummy_mode p) then call env tt (ev_spi_close_device (spi_fd h))
   else ret tt) ;;
  call env tt (ev_fifo_close_and_delete (fifo_in_fd h) (fifo_in_name p)) ;;
  call env tt (ev_fifo_close_and_delete (fifo_out_fd h) (fifo_out_name p)) ;;
  (if negb (dummy_mode p) then call env tt (ev_gpio_close (gpio h)) else ret tt) ;;
  ret EXIT_SUCCESS.

(** [main(argc, argv)]: the exit status. *)
Definition main (env : environment) (fuel : nat) (argv : list string) : M Z :=
  let '(r, p) := process_command_line (env_ULONG_MAX env) argv in
  if r =? -1 then ret EXIT_FAILURE
  else if r =? 1 then
    call env tt (ev_usage (hd "" argv)) ;;
    ret EXIT_SUCCESS
  else if r =? 2 then
    call env tt ev_show_version_info ;;
    ret EXIT_SUCCESS
  else
    s <- setup env p (env_indeterminate env) ;;
    let '(r, h) := s in
    if r <? 0 then ret EXIT_FAILURE
    else
      sigaction env SIGINT action ;;
      sigaction env SIGTERM action ;;
      main_loop env fuel h ;;
      shutdown env p h.

(** A run of the program from its start. *)
Definition run (env : environment) (fuel : nat) (argv : list string) : result Z :=
  main env fuel argv (initial_process env).

Definition exit_status (r : result Z) : option Z :=
  match r with Done a _ => Some a | _ => None end.

Definition final_state {A} (r : result A) : process :=
  match r with Done _ st | Killed _ st | OutOfFuel st => st end.

(** ** Concrete environments *)

Module Demo.

(** A board on which every call succeeds: descriptors 3, 4 and 5, a GPIO
    handle, an engine that leaves the transaction as it is and whose
    result is [steps n] at time [n], and the signals of [signals]. *)
Definition board (ulong_max : Z) (signals : nat -> list signum)
  (steps : nat -> bool) : environment :=
  {| env_ULONG_MAX := ulong_max;
     env_inherited := fun _ => SIG_DFL;
     env_signals := signals;
     env_indeterminate := mk_handles 0 0 0 NULL;
     env_daemon := 0;
     env_fifo_create_and_open := fun _ w => if w then 4 else 3;
     env_spi_open_device := fun _ => 5;
     env_gpio_open := fun num _ => Some num;
     env_gpio_get_poll_fd := fun _ => 6;
     env_gpio_is_active := fun _ => false;
     env_reset_transaction_struct := fun t _ => t;
     env_dcpspi_process := fun n _ _ _ t rl => (steps n, t, rl) |}.

(** The same board with other results for the calls of [setup]. *)
Definition with_setup (env : environment) (daemon_ret fifo_in fifo_out spi : Z)
  (g : gpio_ptr) : environment :=
  {| env_ULONG_MAX := env_ULONG_MAX env;
     env_inherited := env_inherited env;
     env_signals := env_signals env;
     env_indeterminate := env_indeterminate env;
     env_daemon := daemon_ret;
     env_fifo_create_and_open := fun _ w => if w then fifo_out else fifo_in;
     env_spi_open_device := fun _ => spi;
     env_gpio_open := fun _ _ => g;
     env_gpio_get_poll_fd := env_gpio_get_poll_fd env;
     env_gpio_is_active := env_gpio_is_active env;
     env_reset_transaction_struct := env_reset_transaction_struct env;
     env_dcpspi_process := env_dcpspi_process env |}.

Definition ULONG_MAX_64 : Z := 18446744073709551615.
Definition ULONG_MAX_32 : Z := 4294967295.

Definition never : nat -> list signum := fun _ => [].
Definition at_time (t : nat) (sigs : list signum) : nat -> list signum :=
  fun n => if Nat.eqb n t then sigs else [].
Definition always_continue : nat -> bool := fun _ => true.

(** A 64-bit board without signals, whose engine never stops. *)
Definition plain : environment := board ULONG_MAX_64 never always_continue.

(** The same board with an engine that stops at its first call. *)
Definition one_step : environment := board ULONG_MAX_64 never (fun _ => false).

(** The same board on which SIGTERM arrives at time 12, once or twice. *)
Definition terminated : environment :=
  board ULONG_MAX_64 (at_time 12 [SIGTERM]) always_continue.
Definition terminated_twice : environment :=
  board ULONG_MAX_64 (at_time 12 [SIGTERM; SIGTERM]) always_continue.

(** The same board without a GPIO. *)
Definition no_gpio : environment := with_setup plain 0 3 4 5 NULL.

(** The parameters of [dcpspi --fg] and of [dcpspi --spidev -]. *)
Definition foreground : parameters :=
  set_run_in_foreground true default_parameters.
Definition dummy : parameters :=
  set_dummy_mode true (set_spidev_name "-" default_parameters).

End Demo.

(** * Vocabulary of the properties *)

(** No signal arrives from time [c] on for [k] actions. *)
Definition quiet (env : environment) (c k : nat) : Prop :=
  forall n, (c <= n < c + k)%nat -> env_signals env n = [].

(** [straight env m a l]: from any state, [m] returns [a] after the
    actions [l], in this order, unless the default action of a signal
    that arrives meanwhile terminates the process first, after some of
    these actions; it never runs out of fuel.  When no signal arrives meanwhile, [keep_running] is left as
    it was. *)
Definition straight {A} (env : environment) (m : M A) (a : A) (l : list event)
  : Prop :=
  forall st,
    match m st with
    | Done a' st' =>
        a' = a /\ trace st' = trace st ++ l /\
        (quiet env (clock st) (List.length l) ->
         keep_running st' = keep_running st)
    | Killed sig st' =>
        disposition_of sig st' = SIG_DFL /\
        ~ quiet env (clock st) (List.length l) /\
        exists done rest, l = done ++ rest /\ trace st' = trace st ++ done
    | OutOfFuel _ => False
    end.

(** What the environment answers to the four opening calls of [setup]. *)
Definition fd_in env p := env_fifo_create_and_open env (fifo_in_name p) false.
Definition fd_out env p := env_fifo_create_and_open env (fifo_out_name p) true.
Definition fd_spi env p := env_spi_open_device env (spidev_name p).
Definition gpio_of env p := env_gpio_open env (gpio_num p) false.

(** The events of the opening calls and of the calls that undo them. *)
Definition open_in env p := ev_fifo_create_and_open (fifo_in_name p) false (fd_in env p).
Definition open_out env p := ev_fifo_create_and_open (fifo_out_name p) true (fd_out env p).
Definition open_spi env p := ev_spi_open_device (spidev_name p) (fd_spi env p).
Definition open_gpio env p := ev_gpio_open (gpio_num p) (gpio_of env p).
Definition close_in env p := ev_fifo_close_and_delete (fd_in env p) (fifo_in_name p).
Definition close_out env p := ev_fifo_close_and_delete (fd_out env p) (fifo_out_name p).
Definition close_spi env p := ev_spi_close_device (fd_spi env p).

(** The process is a daemon, or was asked to stay in the foreground. *)
Definition daemon_ok env p : Prop :=
  run_in_foreground p = true \/ 0 <= env_daemon env.

(** What [setup] does before it opens anything. *)
Definition setup_prologue env p : list event :=
  ev_msg_enable_syslog (negb (run_in_foreground p))
  :: (if run_in_foreground p then [] else [ev_openlog; ev_daemon (env_daemon env)])
  ++ [ev_log_version_info].

(** What a successful [setup] does with the hardware after it has opened
    it. *)
Definition configure env p : list event :=
  (if gpio_needs_debouncing p then [ev_gpio_enable_debouncing (gpio_of env p)]
   else [])
  ++ [ev_spi_set_speed_hz (spi_clock p)].

Definition step_event (h : handles) (t : dcp_transaction)
  (rl : slave_request_and_lock_data) (continue : bool) : event :=
  ev_dcpspi_process (fifo_in_fd h) (fifo_out_fd h) (spi_fd h) t rl continue.

(** [loop_trace env h c t rl ended l]: [l] is what a loop entered at time
    [c] with the transaction [t] and the request data [rl] can have done.
    Every iteration is one evaluation of [keep_running] followed, when
    the flag was set, by one call of the engine; the engine is next called
    with what its last call left.  [ended] tells whether the loop has been
    left: by a cleared flag, or by an engine that returned [false]. *)
Inductive loop_trace (env : environment) (h : handles) :
  nat -> dcp_transaction -> slave_request_and_lock_data -> bool ->
  list event -> Prop :=
| loop_flag_cleared c t rl :
    loop_trace env h c t rl true [ev_read_keep_running false]
| loop_engine_stops c t rl :
    fst (fst (env_dcpspi_process env (S c) (fifo_in_fd h) (fifo_out_fd h)
                (spi_fd h) t rl)) = false ->
    loop_trace env h c t rl true
      [ev_read_keep_running true; step_event h t rl false]
| loop_again c t rl ended l :
    let r := env_dcpspi_process env (S c) (fifo_in_fd h) (fifo_out_fd h)
               (spi_fd h) t rl in
    fst (fst r) = true ->
    loop_trace env h (S (S c)) (snd (fst r)) (snd r) ended l ->
    loop_trace env h c t rl ended
      (ev_read_keep_running true :: step_event h t rl true :: l)
| loop_at_condition c t rl :
    loop_trace env h c t rl false []
| loop_before_engine c t rl :
    loop_trace env h c t rl false [ev_read_keep_running true].

(** What [main_loop] does before it enters the loop, and the two
    structures it enters the loop with. *)
Definition loop_prologue env (h : handles) : list event :=
  [ev_msg_info "Accepting traffic";
   ev_reset_transaction_struct initial_transaction]
  ++ match gpio h with
     | Some _ =>
         [ev_gpio_get_poll_fd (gpio h) (env_gpio_get_poll_fd env (gpio h));
          ev_gpio_is_active (gpio h) (env_gpio_is_active env (gpio h))]
     | None => []
     end.

Definition first_transaction env : dcp_transaction :=
  env_reset_transaction_struct env initial_transaction true.

Definition first_rldata env (h : handles) : slave_request_and_lock_data :=
  match gpio h with
  | Some _ =>
      {| rl_gpio := gpio h;
         rl_gpio_fd := env_gpio_get_poll_fd env (gpio h);
         is_running_for_real := true;
         previous_gpio_state := env_gpio_is_active env (gpio h) |}
  | None =>
      {| rl_gpio := NULL;
         rl_gpio_fd := -1;
         is_running_for_real := false;
         previous_gpio_state := false |}
  end.

Definition shutdown_events (p : parameters) (h : handles) : list event :=
  [ev_msg_info "Terminated, shutting down"]
  ++ (if dummy_mode p then [] else [ev_spi_close_device (spi_fd h)])
  ++ [ev_fifo_close_and_delete (fifo_in_fd h) (fifo_in_name p);
      ev_fifo_close_and_delete (fifo_out_fd h) (fifo_out_name p)]
  ++ (if dummy_mode p then [] else [ev_gpio_close (gpio h)]).

Definition install_handlers : list event :=
  [ev_sigaction SIGINT action; ev_sigaction SIGTERM action].



(** A string of decimal digits and nothing else, and its value. *)
Fixpoint decimal_digits (acc : Z) (s : string) : option Z :=
  match s with
  | EmptyString => Some acc
  | String c r =>
      match digit_value c with
      | Some d => decimal_digits (10 * acc + d) r
      | None => None
      end
  end.

Definition decimal (s : string) : option Z :=
  match s with
  | EmptyString => None
  | String _ _ => decimal_digits 0 s
  end.

(** The scan of [pre], started with the defaults, runs to the end of
    [pre] and leaves the parameters [p]. *)
Definition scanned (ULONG_MAX : Z) (pre : list string) (p : parameters) : Prop :=
  scan_arguments ULONG_MAX pre 0 default_parameters = (None, p).


(** The parameter a value-taking option sets. *)
Definition option_field (o : string) (p : parameters) : option (string + Z) :=
  if String.eqb o "--ififo" then Some (inl (fifo_in_name p))
  else if String.eqb o "--ofifo" then Some (inl (fifo_out_name p))
  else if String.eqb o "--spidev" then Some (inl (spidev_name p))
  else if String.eqb o "--spiclk" then Some (inr (spi_clock p))
  else if String.eqb o "--gpio" then Some (inr (gpio_num p))
  else None.

(** The process exits with status [code] after the actions [l], unless
    the default action of a signal terminates it first. *)
Definition finishes (r : result Z) (code : Z) (l : list event) : Prop :=
  match r with
  | Done c st => c = code /\ trace st = l
  | Killed sig st => disposition_of sig st = SIG_DFL
  | OutOfFuel _ => False
  end.


(** What [setup] returns and does, read off the answers of the
    environment. *)
Definition setup_outcome env p (h : handles) : (Z * handles) * list event :=
  if negb (run_in_foreground p) && (env_daemon env <? 0) then
    ((-1, h),
     [ev_msg_enable_syslog true; ev_openlog; ev_daemon (env_daemon env);
      ev_msg_error "Failed to run as daemon"])
  else if fd_in env p <? 0 then
    ((-1, mk_handles (fd_in env p) (fifo_out_fd h) (spi_fd h) (gpio h)),
     setup_prologue env p ++ [open_in env p])
  else if fd_out env p <? 0 then
    ((-1, mk_handles (fd_in env p) (fd_out env p) (spi_fd h) (gpio h)),
     setup_prologue env p ++ [open_in env p; open_out env p; close_in env p])
  else if dummy_mode p then
    ((0, mk_handles (fd_in env p) (fd_out env p) (-1) NULL),
     setup_prologue env p ++ [open_in env p; open_out env p])
  else if fd_spi env p <? 0 then
    ((-1, mk_handles (fd_in env p) (fd_out env p) (fd_spi env p) (gpio h)),
     setup_prologue env p
       ++ [open_in env p; open_out env p; open_spi env p;
           close_out env p; close_in env p])
  else
    match gpio_of env p with
    | None =>
        ((-1, mk_handles (fd_in env p) (fd_out env p) (fd_spi env p) NULL),
         setup_prologue env p
           ++ [open_in env p; open_out env p; open_spi env p; open_gpio env p;
               close_spi env p; close_out env p; close_in env p])
    | Some _ =>
        ((0, mk_handles (fd_in env p) (fd_out env p) (fd_spi env p)
               (gpio_of env p)),
         setup_prologue env p
           ++ [open_in env p; open_out env p; open_spi env p; open_gpio env p]
           ++ configure env p)
    end.

(** The calls that open a handle and the calls that close one. *)
Definition opens_or_closes (e : event) : bool :=
  match e with
  | ev_fifo_create_and_open _ _ _ | ev_spi_open_device _ _ | ev_gpio_open _ _
  | ev_spi_close_device _ | ev_fifo_close_and_delete _ _ | ev_gpio_close _ => true
  | _ => false
  end.

(** [J] holds of the state a computation ends in, whichever way it ends,
    when it holds of the state the computation starts in. *)
Definition preserves (J : process -> Prop) {A} (m : M A) : Prop :=
  forall st, J st -> J (final_state (m st)).

(** The backing array and the capacity of both arenas of a transaction. *)
Definition capacities (t : dcp_transaction) : backing_buffer * Z * backing_buffer * Z :=
  (buffer (dcp_buffer t), size (dcp_buffer t),
   buffer (spi_buffer t), size (spi_buffer t)).

(** Modelled from the spec: [reset_transaction_struct] and
    [dcpspi_process] (dcpspi_process.c) are not among the sources.  By the
    spec a Byte Arena never grows and its capacity is fixed for the
    lifetime of the process: both functions leave the backing array and
    the capacity of both arenas as they are. *)
Definition keeps_capacities (env : environment) : Prop :=
  (forall t b, capacities (env_reset_transaction_struct env t b) = capacities t) /\
  (forall n fd_i fd_o fd_s t rl,
      capacities (snd (fst (env_dcpspi_process env n fd_i fd_o fd_s t rl)))
      = capacities t).

(** Modelled from the spec: the codec (dcpspi_process.c) is not among the
    sources.  By the spec, encoding replaces every occurrence of the
    escape byte by a two-byte sequence, [first] and [second] here, and
    passes every other byte through unchanged. *)
Definition escape (first second : Z) (raw : list Z) : list Z :=
  flat_map (fun b => if b =? DCP_ESCAPE_CHARACTER then [first; second] else [b])
    raw.

(** The capacities every transaction handed to the other modules must
    show. *)
Definition static_capacities (e : event) : Prop :=
  match e with
  | ev_reset_transaction_struct t | ev_dcpspi_process _ _ _ t _ _ =>
      capacities t = (dcp_backing_buffer, 266, spi_backing_buffer, 520)
  | _ => True
  end.

Definition capacities_never_change (st : process) : Prop :=
  Forall static_capacities (trace st).

(** [J] survives every observable action that changes nothing in the
    process but its trace. *)
Definition stable (env : environment) (J : process -> Prop) : Prop :=
  forall A (obs : process -> A * event),
    preserves J (observable env (fun st => st) obs).

Definition signum_eq_dec (a b : signum) : {a = b} + {a <> b}.
Proof. decide equality. Defined.

Definition cleared_by_signal (env : environment) (st : process) : Prop :=
  keep_running st = true \/
  exists n sig, (n <= clock st)%nat /\ In sig (env_signals env n).

(** The signal [sig] is not ignored and, once time [n] has passed, the
    flag is cleared. *)
Definition will_stop (sig : signum) (n : nat) (st : process) : Prop :=
  disposition_of sig st <> SIG_IGN /\
  ((n < clock st)%nat -> keep_running st = false).

(** Two parameter sets that differ at most in the SPI clock and in the
    debouncing of the request pin. *)
Definition same_but_clock_and_debounce (p p' : parameters) : Prop :=
  fifo_in_name p = fifo_in_name p' /\
  fifo_out_name p = fifo_out_name p' /\
  spidev_name p = spidev_name p' /\
  gpio_num p = gpio_num p' /\
  run_in_foreground p = run_in_foreground p' /\
  dummy_mode p = dummy_mode p'.

(** How many deliveries of [sig] the process survives: one while the
    handler is installed, none under the default action. *)
Definition budget (sig : signum) (st : process) : nat :=
  match disposition_of sig st with SIG_ACTION _ => 1%nat | _ => 0%nat end.

(** The disposition of [sig] is the one [main] installs, or the default
    one it is reset to. *)
Definition resets (sig : signum) (st : process) : Prop :=
  disposition_of sig st = SIG_ACTION action \/ disposition_of sig st = SIG_DFL.

(** [sig] arrives at time [n1] and again at time [n2], or twice at the
    same time. *)
Definition two_arrivals (env : environment) (sig : signum) (n1 n2 : nat) : Prop :=
  In sig (env_signals env n1) /\
  ((n1 < n2)%nat /\ In sig (env_signals env n2) \/
   n1 = n2 /\ (2 <= count_occ signum_eq_dec (env_signals env n1) sig)%nat).

(** After time [n1] the disposition of [sig] is the default one, and the
    process does not get past time [n2]. *)
Definition second_kills (sig : signum) (n1 n2 : nat) (st : process) : Prop :=
  resets sig st /\
  ((n1 < clock st)%nat -> disposition_of sig st = SIG_DFL) /\
  (clock st <= n2)%nat.

(** ** Vocabulary of the further properties *)

(** A string as [argv] holds it: no NUL inside. *)
Fixpoint c_string (s : string) : bool :=
  match s with
  | EmptyString => true
  | String c r => negb (Ascii.eqb c NUL) && c_string r
  end.

(** Every action of the trace satisfies [P]. *)
Definition trace_all (P : event -> Prop) (st : process) : Prop :=
  Forall P (trace st).

(** The calls by which the process becomes a daemon that logs to syslog. *)
Definition daemonizes (e : event) : bool :=
  match e with
  | ev_openlog | ev_daemon _ | ev_msg_enable_syslog true => true
  | _ => false
  end.

(** Every call [setup] makes succeeds. *)
Definition every_call_succeeds (env : environment) (p : parameters) : Prop :=
  daemon_ok env p /\ 0 <= fd_in env p /\ 0 <= fd_out env p /\
  (dummy_mode p = true \/ 0 <= fd_spi env p /\ gpio_of env p <> NULL).

Definition is_engine_call (e : event) : bool :=
  match e with ev_dcpspi_process _ _ _ _ _ _ => true | _ => false end.

(** No call of the engine is made after time [n]. *)
Definition no_call_after (n : nat) (st : process) : Prop :=
  forall i e,
    nth_error (trace st) i = Some e -> (n < i)%nat -> is_engine_call e = false.



(** Every signal still to arrive finds the handler of [main] installed. *)
Definition armed (env : environment) (st : process) : Prop :=
  forall sig k,
    (clock st <= k)%nat -> In sig (env_signals env k) ->
    disposition_of sig st = SIG_ACTION action.

(** No signal arrives twice in the whole run. *)
Definition at_most_once (env : environment) : Prop :=
  (forall k, NoDup (env_signals env k)) /\
  (forall sig k1 k2,
      In sig (env_signals env k1) -> In sig (env_signals env k2) -> k1 = k2).

(** From a state of [J] the computation is not terminated by a signal,
    and ends in a state of [J]. *)
Definition survives (J : process -> Prop) {A} (m : M A) : Prop :=
  forall st, J st ->
    J (final_state (m st)) /\ forall s st', m st <> Killed s st'.


(** * Properties *)

Example parse_dummy :
  process_command_line 18446744073709551615
    ["dcpspi"; "--fg"; "--spidev"; "-"; "--spiclk"; "900000"]
  = (0, {| fifo_in_name := "/tmp/dcp_to_spi";
           fifo_out_name := "/tmp/spi_to_dcp";
           spidev_name := "-";
           spi_clock := 900000;
           gpio_num := 4;
           run_in_foreground := true;
           gpio_needs_debouncing := false;
           dummy_mode := true |}).
Proof. reflexivity. Qed.

(** ** Signals *)

Lemma deliver_trace sig st st1 :
  deliver sig st = Some st1 -> trace st1 = trace st.
Proof.
  unfold deliver. destruct (disposition_of sig st) as [| |act]; try discriminate.
  - intros [= <-]. reflexivity.
  - intros [= <-]. destruct act as [[] fl m]; simpl.
    destruct (Z.land fl SA_RESETHAND =? 0); [reflexivity|].
    destruct sig; reflexivity.
Qed.

Lemma deliver_none sig st :
  deliver sig st = None <-> disposition_of sig st = SIG_DFL.
Proof.
  unfold deliver. destruct (disposition_of sig st); split; congruence.
Qed.

Lemma deliver_all_trace sigs :
  forall st, trace (final_state (deliver_all sigs st)) = trace st.
Proof.
  induction sigs as [|sig more IH]; intros st; simpl; [reflexivity|].
  destruct (deliver sig st) as [st1|] eqn:E; [|reflexivity].
  rewrite IH. eauto using deliver_trace.
Qed.

Lemma deliver_all_fuel sigs :
  forall st st', deliver_all sigs st <> OutOfFuel st'.
Proof.
  induction sigs as [|sig more IH]; intros st st'; simpl; [discriminate|].
  destruct (deliver sig st); [apply IH | discriminate].
Qed.

Lemma deliver_all_killed sigs :
  forall st sig st',
    deliver_all sigs st = Killed sig st' -> disposition_of sig st' = SIG_DFL.
Proof.
  induction sigs as [|s more IH]; intros st sig st'; simpl; [discriminate|].
  destruct (deliver s st) as [st1|] eqn:E; [apply IH|].
  intros [= <- <-]. now apply deliver_none.
Qed.

(** ** The monad *)

(** What one observable action can do: happen, or not happen because a
    signal whose action is the default one has arrived. *)
Lemma observable_cases {A} env upd (obs : process -> A * event) st :
  (exists st1,
      deliver_all (env_signals env (clock st)) st = Done tt st1 /\
      trace st1 = trace st /\
      observable env upd obs st
      = Done (fst (obs st1)) (log (snd (obs st1)) (upd st1)))
  \/ (exists sig st1,
         observable env upd obs st = Killed sig st1 /\
         trace st1 = trace st /\
         disposition_of sig st1 = SIG_DFL).
Proof.
  unfold observable.
  pose proof (deliver_all_trace (env_signals env (clock st)) st) as Ht.
  destruct (deliver_all (env_signals env (clock st)) st) as [[] st1|sig st1|st1] eqn:E.
  - left. eauto.
  - right. exists sig, st1. eauto using deliver_all_killed.
  - now apply deliver_all_fuel in E.
Qed.

Lemma quiet_app env c k1 k2 :
  quiet env c (k1 + k2) <-> quiet env c k1 /\ quiet env (c + k1) k2.
Proof.
  unfold quiet. split.
  - intros H. split; intros n Hn; apply H; lia.
  - intros [H1 H2] n Hn.
    destruct (Nat.lt_ge_cases n (c + k1)); [apply H1|apply H2]; lia.
Qed.

Lemma deliver_all_killed_in sigs :
  forall st sig st', deliver_all sigs st = Killed sig st' -> In sig sigs.
Proof.
  induction sigs as [|s more IH]; intros st sig st'; simpl; [discriminate|].
  destruct (deliver s st) as [st1|] eqn:E.
  - intros H. right. eauto.
  - intros [= <- <-]. now left.
Qed.

(** One observable action at a time without signals. *)
Lemma observable_quiet {A} env upd (obs : process -> A * event) st :
  env_signals env (clock st) = [] ->
  observable env upd obs st = Done (fst (obs st)) (log (snd (obs st)) (upd st)).
Proof. unfold observable. now intros ->. Qed.

Lemma observable_killed {A} env upd (obs : process -> A * event) st sig st' :
  observable env upd obs st = Killed sig st' ->
  disposition_of sig st' = SIG_DFL /\ trace st' = trace st /\
  In sig (env_signals env (clock st)).
Proof.
  unfold observable.
  pose proof (deliver_all_trace (env_signals env (clock st)) st) as Ht.
  destruct (deliver_all (env_signals env (clock st)) st) as [[] st1|s st1|st1] eqn:E;
    try discriminate.
  intros [= <- <-]. simpl in Ht.
  eauto using deliver_all_killed, deliver_all_killed_in.
Qed.

Lemma straight_ret {A} env (a : A) : straight env (ret a) a [].
Proof. intros st. simpl. now rewrite app_nil_r. Qed.

Lemma straight_bind {A B} env (m : M A) (k : A -> M B) a b l1 l2 l :
  straight env m a l1 -> straight env (k a) b l2 -> l = l1 ++ l2 ->
  straight env (bind m k) b l.
Proof.
  intros Hm Hk -> st. unfold bind. specialize (Hm st).
  rewrite length_app.
  destruct (m st) as [a' st1|sig st1|st1]; try assumption.
  - destruct Hm as (-> & Ht & Hq). specialize (Hk st1).
    assert (Hc : clock st1 = (clock st + List.length l1)%nat)
      by (unfold clock; now rewrite Ht, length_app).
    rewrite Hc in Hk.
    destruct (k a st1) as [b' st2|sig st2|st2]; try assumption.
    + destruct Hk as (-> & Ht2 & Hq2). split; [reflexivity|]. split.
      * now rewrite Ht2, Ht, app_assoc.
      * intros H. apply quiet_app in H as [H1 H2].
        now rewrite Hq2, Hq.
    + destruct Hk as (Hd & Hq2 & done & rest & -> & Ht2).
      split; [assumption|]. split.
      * intros H. apply quiet_app in H as [H1 H2]. now apply Hq2.
      * exists (l1 ++ done), rest. split; [now rewrite app_assoc|].
        now rewrite Ht2, Ht, app_assoc.
  - destruct Hm as (Hd & Hq & done & rest & -> & Ht). split; [assumption|].
    split.
    + intros H. apply quiet_app in H as [H1 H2]. now apply Hq.
    + exists done, (rest ++ l2). split; [now rewrite app_assoc|assumption].
Qed.

Lemma quiet_one env c : quiet env c 1 -> env_signals env c = [].
Proof. intros H. apply H. lia. Qed.

Lemma straight_observable {A} env upd (r : A) e :
  (forall st, trace (upd st) = trace st) ->
  (forall st, keep_running (upd st) = keep_running st) ->
  straight env (observable env upd (fun _ => (r, e))) r [e].
Proof.
  intros Hut Huk st.
  destruct (observable env upd (fun _ => (r, e)) st) as [a st1|sig st1|st1] eqn:E.
  - destruct (observable_cases env upd (fun _ => (r, e)) st)
      as [(st0 & Hdel & Ht & E')|(sig & st0 & E' & _)];
      rewrite E in E'; [|discriminate].
    injection E' as -> ->. simpl. rewrite Hut, Ht.
    split; [reflexivity|]. split; [reflexivity|].
    intros Hq. apply quiet_one in Hq. rewrite Hq in Hdel. simpl in Hdel.
    injection Hdel as <-. apply Huk.
  - apply observable_killed in E as (Hd & Ht & Hin). split; [assumption|].
    split.
    + intros Hq. apply quiet_one in Hq. now rewrite Hq in Hin.
    + exists [], [e]. split; [reflexivity|]. now rewrite app_nil_r.
  - destruct (observable_cases env upd (fun _ => (r, e)) st)
      as [(st0 & _ & _ & E')|(sig & st0 & E' & _)];
      rewrite E in E'; discriminate.
Qed.

Lemma straight_call {A} env (r : A) e : straight env (call env r e) r [e].
Proof. apply straight_observable; reflexivity. Qed.

Lemma straight_sigaction env sig act :
  straight env (sigaction env sig act) 0 [ev_sigaction sig act].
Proof. apply straight_observable; intros st; destruct sig; reflexivity. Qed.

Ltac straight_prim :=
  first [ apply straight_ret | apply straight_call | apply straight_sigaction ].

Ltac straight_steps :=
  repeat first
    [ straight_prim
    | eapply straight_bind; [ straight_prim | | reflexivity ] ].

(** ** [setup], case by case *)

Lemma setup_daemon_fails env p h :
  run_in_foreground p = false -> env_daemon env < 0 ->
  straight env (setup env p h) (-1, h)
    [ev_msg_enable_syslog true; ev_openlog; ev_daemon (env_daemon env);
     ev_msg_error "Failed to run as daemon"].
Proof.
  intros Hfg Hd. unfold setup. rewrite Hfg. simpl negb. cbv iota.
  eapply straight_bind; [apply straight_call| |reflexivity].
  eapply straight_bind; [apply straight_call| |reflexivity].
  eapply straight_bind; [apply straight_call| |reflexivity].
  apply Z.ltb_lt in Hd. rewrite Hd. straight_steps.
Qed.

(** The part of [setup] up to the first opening call, when [daemon] did
    not fail. *)
Lemma setup_from_prologue env p h (k : M (Z * handles)) r l :
  daemon_ok env p ->
  straight env k r l ->
  straight env
    (call env tt (ev_msg_enable_syslog (negb (run_in_foreground p))) ;;
     (if negb (run_in_foreground p) then call env tt ev_openlog else ret tt) ;;
     d <- (if negb (run_in_foreground p)
           then call env (env_daemon env) (ev_daemon (env_daemon env))
           else ret 0) ;;
     if d <? 0 then
       call env tt (ev_msg_error "Failed to run as daemon") ;;
       ret (-1, h)
     else log_version_info env ;; k)
    r (setup_prologue env p ++ l).
Proof.
  intros Hd Hk. unfold setup_prologue, log_version_info, daemon_ok in *.
  destruct (run_in_foreground p) eqn:Hfg; simpl negb; cbv iota.
  - eapply straight_bind; [apply straight_call| |reflexivity].
    eapply straight_bind; [apply straight_ret| |reflexivity].
    eapply straight_bind; [apply straight_ret| |reflexivity].
    simpl. eapply straight_bind; [apply straight_call|exact Hk|reflexivity].
  - destruct Hd as [Hd|Hd]; [discriminate|].
    apply Z.ltb_ge in Hd.
    eapply straight_bind; [apply straight_call| |reflexivity].
    eapply straight_bind; [apply straight_call| |reflexivity].
    eapply straight_bind; [apply straight_call| |reflexivity].
    rewrite Hd.
    eapply straight_bind; [apply straight_call|exact Hk|reflexivity].
Qed.

Lemma setup_fifo_in_fails env p h :
  daemon_ok env p -> fd_in env p < 0 ->
  straight env (setup env p h)
    (-1, mk_handles (fd_in env p) (fifo_out_fd h) (spi_fd h) (gpio h))
    (setup_prologue env p ++ [open_in env p]).
Proof.
  intros Hd Hin. unfold setup. apply setup_from_prologue; [assumption|].
  fold (fd_in env p). apply Z.ltb_lt in Hin.
  eapply straight_bind; [apply straight_call| |reflexivity].
  rewrite Hin. apply straight_ret.
Qed.

Lemma setup_fifo_out_fails env p h :
  daemon_ok env p -> 0 <= fd_in env p -> fd_out env p < 0 ->
  straight env (setup env p h)
    (-1, mk_handles (fd_in env p) (fd_out env p) (spi_fd h) (gpio h))
    (setup_prologue env p ++ [open_in env p; open_out env p; close_in env p]).
Proof.
  intros Hd Hin Hout. unfold setup. apply setup_from_prologue; [assumption|].
  fold (fd_in env p) (fd_out env p).
  apply Z.ltb_ge in Hin. apply Z.ltb_lt in Hout.
  eapply straight_bind; [apply straight_call| |reflexivity].
  rewrite Hin.
  eapply straight_bind; [apply straight_call| |reflexivity].
  rewrite Hout. unfold error_fifo_out. straight_steps.
Qed.

Lemma setup_dummy env p h :
  daemon_ok env p -> 0 <= fd_in env p -> 0 <= fd_out env p ->
  dummy_mode p = true ->
  straight env (setup env p h)
    (0, mk_handles (fd_in env p) (fd_out env p) (-1) NULL)
    (setup_prologue env p ++ [open_in env p; open_out env p]).
Proof.
  intros Hd Hin Hout Hdummy. unfold setup.
  apply setup_from_prologue; [assumption|].
  fold (fd_in env p) (fd_out env p).
  apply Z.ltb_ge in Hin, Hout.
  eapply straight_bind; [apply straight_call| |reflexivity].
  rewrite Hin.
  eapply straight_bind; [apply straight_call| |reflexivity].
  rewrite Hout, Hdummy. apply straight_ret.
Qed.

Lemma setup_spi_fails env p h :
  daemon_ok env p -> 0 <= fd_in env p -> 0 <= fd_out env p ->
  dummy_mode p = false -> fd_spi env p < 0 ->
  straight env (setup env p h)
    (-1, mk_handles (fd_in env p) (fd_out env p) (fd_spi env p) (gpio h))
    (setup_prologue env p
       ++ [open_in env p; open_out env p; open_spi env p;
           close_out env p; close_in env p]).
Proof.
  intros Hd Hin Hout Hdummy Hspi. unfold setup.
  apply setup_from_prologue; [assumption|].
  fold (fd_in env p) (fd_out env p) (fd_spi env p).
  apply Z.ltb_ge in Hin, Hout. apply Z.ltb_lt in Hspi.
  eapply straight_bind; [apply straight_call| |reflexivity].
  rewrite Hin.
  eapply straight_bind; [apply straight_call| |reflexivity].
  rewrite Hout, Hdummy.
  eapply straight_bind; [apply straight_call| |reflexivity].
  rewrite Hspi. unfold error_spi_open, error_fifo_out. straight_steps.
Qed.

Lemma setup_gpio_fails env p h :
  daemon_ok env p -> 0 <= fd_in env p -> 0 <= fd_out env p ->
  dummy_mode p = false -> 0 <= fd_spi env p -> gpio_of env p = NULL ->
  straight env (setup env p h)
    (-1, mk_handles (fd_in env p) (fd_out env p) (fd_spi env p) NULL)
    (setup_prologue env p
       ++ [open_in env p; open_out env p; open_spi env p; open_gpio env p;
           close_spi env p; close_out env p; close_in env p]).
Proof.
  intros Hd Hin Hout Hdummy Hspi Hgpio. unfold setup.
  apply setup_from_prologue; [assumption|].
  unfold open_gpio.
  fold (fd_in env p) (fd_out env p) (fd_spi env p) (gpio_of env p).
  apply Z.ltb_ge in Hin, Hout, Hspi.
  eapply straight_bind; [apply straight_call| |reflexivity].
  rewrite Hin.
  eapply straight_bind; [apply straight_call| |reflexivity].
  rewrite Hout, Hdummy.
  eapply straight_bind; [apply straight_call| |reflexivity].
  rewrite Hspi.
  eapply straight_bind; [apply straight_call| |reflexivity].
  rewrite Hgpio. unfold error_gpio_open, error_spi_open, error_fifo_out.
  straight_steps.
Qed.

Lemma setup_hardware env p h :
  daemon_ok env p -> 0 <= fd_in env p -> 0 <= fd_out env p ->
  dummy_mode p = false -> 0 <= fd_spi env p -> gpio_of env p <> NULL ->
  straight env (setup env p h)
    (0, mk_handles (fd_in env p) (fd_out env p) (fd_spi env p) (gpio_of env p))
    (setup_prologue env p
       ++ [open_in env p; open_out env p; open_spi env p; open_gpio env p]
       ++ configure env p).
Proof.
  intros Hd Hin Hout Hdummy Hspi Hgpio. unfold setup.
  apply setup_from_prologue; [assumption|].
  unfold open_gpio, configure.
  fold (fd_in env p) (fd_out env p) (fd_spi env p) (gpio_of env p).
  apply Z.ltb_ge in Hin, Hout, Hspi.
  eapply straight_bind; [apply straight_call| |reflexivity].
  rewrite Hin.
  eapply straight_bind; [apply straight_call| |reflexivity].
  rewrite Hout, Hdummy.
  eapply straight_bind; [apply straight_call| |reflexivity].
  rewrite Hspi.
  eapply straight_bind; [apply straight_call| |reflexivity].
  destruct (gpio_of env p) as [g|]; [|now elim Hgpio].
  destruct (gpio_needs_debouncing p); straight_steps.
Qed.

(** ** The main loop *)

Lemma clock_log e st : clock (log e st) = S (clock st).
Proof. unfold clock, log. simpl. rewrite length_app. simpl. lia. Qed.

Lemma clock_trace st st' : trace st' = trace st -> clock st' = clock st.
Proof. unfold clock. now intros ->. Qed.

Lemma observable_Done_clock {A} env upd (obs : process -> A * event) st a st' :
  (forall st, trace (upd st) = trace st) ->
  observable env upd obs st = Done a st' -> clock st' = S (clock st).
Proof.
  intros Hupd.
  destruct (observable_cases env upd obs st)
    as [(st1 & _ & Ht & ->)|(sig & st1 & -> & _)]; [|discriminate].
  intros [= _ <-]. rewrite clock_log. f_equal. unfold clock.
  now rewrite Hupd, Ht.
Qed.

Lemma main_loop_while_trace env fuel h :
  forall t rl st,
    match main_loop_while env fuel h t rl st with
    | Done _ st' =>
        exists l, trace st' = trace st ++ l /\
                  loop_trace env h (clock st) t rl true l
    | Killed sig st' =>
        disposition_of sig st' = SIG_DFL /\
        exists l, trace st' = trace st ++ l /\
                  loop_trace env h (clock st) t rl false l
    | OutOfFuel st' =>
        exists l, trace st' = trace st ++ l /\
                  loop_trace env h (clock st) t rl false l
    end.
Proof.
  induction fuel as [|fuel IH]; intros t rl st; simpl.
  - exists []. rewrite app_nil_r. split; [reflexivity|constructor].
  - unfold bind at 1. unfold read_keep_running.
    destruct (observable_cases env (fun st => st)
                (fun st => (keep_running st, ev_read_keep_running (keep_running st))) st)
      as [(st1 & _ & Ht1 & ->)|(sig & st1 & -> & Ht1 & Hd)].
    2:{ split; [assumption|]. exists []. rewrite app_nil_r. split; [assumption|constructor]. }
    cbn [fst snd]. destruct (keep_running st1) eqn:Hk.
    2:{ simpl. exists [ev_read_keep_running false]. rewrite Ht1.
        split; [reflexivity|constructor]. }
    unfold bind at 1. unfold dcpspi_process.
    set (st2 := log (ev_read_keep_running true) st1).
    assert (Hc2 : clock st2 = S (clock st))
      by (unfold st2; rewrite clock_log; f_equal; now apply clock_trace).
    assert (Ht2 : trace st2 = trace st ++ [ev_read_keep_running true])
      by (unfold st2; simpl; now rewrite Ht1).
    match goal with |- context [observable env ?u ?o st2] =>
      destruct (observable_cases env u o st2)
        as [(st3 & _ & Ht3 & ->)|(sig & st3 & -> & Ht3 & Hd)]
    end.
    2:{ split; [assumption|]. exists [ev_read_keep_running true].
        rewrite Ht3, Ht2. split; [reflexivity|constructor]. }
    cbn [fst snd]. rewrite (clock_trace _ _ Ht3), Hc2.
    set (r := env_dcpspi_process env (S (clock st)) (fifo_in_fd h)
                (fifo_out_fd h) (spi_fd h) t rl).
    destruct (fst (fst r)) eqn:Hr.
    + set (st4 := log _ st3).
      assert (Ht4 : trace st4
                    = trace st ++ [ev_read_keep_running true; step_event h t rl true])
        by (unfold st4; simpl; rewrite Ht3, Ht2, <- app_assoc; reflexivity).
      assert (Hc4 : clock st4 = S (S (clock st)))
        by (unfold clock; rewrite Ht4, length_app; simpl; lia).
      specialize (IH (snd (fst r)) (snd r) st4). rewrite Hc4 in IH.
      destruct (main_loop_while env fuel h (snd (fst r)) (snd r) st4)
        as [[] st5|sig st5|st5].
      * destruct IH as (l & Hl & Hshape).
        exists (ev_read_keep_running true :: step_event h t rl true :: l).
        split; [rewrite Hl, Ht4, <- app_assoc; reflexivity|].
        now apply loop_again.
      * destruct IH as (Hd & l & Hl & Hshape). split; [assumption|].
        exists (ev_read_keep_running true :: step_event h t rl true :: l).
        split; [rewrite Hl, Ht4, <- app_assoc; reflexivity|].
        now apply loop_again.
      * destruct IH as (l & Hl & Hshape).
        exists (ev_read_keep_running true :: step_event h t rl true :: l).
        split; [rewrite Hl, Ht4, <- app_assoc; reflexivity|].
        now apply loop_again.
    + simpl. exists [ev_read_keep_running true; step_event h t rl false].
      split; [rewrite Ht3, Ht2, <- app_assoc; reflexivity|].
      now apply loop_engine_stops.
Qed.

Lemma bind_straight {A B} env (m : M A) (k : A -> M B) a l st :
  straight env m a l ->
  (exists st1,
      trace st1 = trace st ++ l /\ m st = Done a st1 /\ bind m k st = k a st1)
  \/ (exists sig st1,
         bind m k st = Killed sig st1 /\ m st = Killed sig st1 /\
         disposition_of sig st1 = SIG_DFL).
Proof.
  intros H. specialize (H st). unfold bind.
  destruct (m st) as [a' st1|sig st1|st1]; [| |contradiction].
  - destruct H as (-> & Ht & _). left. eauto.
  - destruct H as (Hd & _). right. eauto.
Qed.

(** The same when no signal arrives meanwhile. *)
Lemma bind_straight_quiet {A B} env (m : M A) (k : A -> M B) a l st :
  straight env m a l ->
  quiet env (clock st) (List.length l) ->
  exists st1,
    trace st1 = trace st ++ l /\ keep_running st1 = keep_running st /\
    bind m k st = k a st1.
Proof.
  intros H Hq. specialize (H st). unfold bind.
  destruct (m st) as [a' st1|sig st1|st1]; [| |contradiction].
  - destruct H as (-> & Ht & Hk). exists st1. auto.
  - destruct H as (_ & H & _). contradiction.
Qed.

Lemma main_loop_trace env fuel h st :
  let c := (clock st + List.length (loop_prologue env h))%nat in
  match main_loop env fuel h st with
  | Done _ st' =>
      exists l,
        trace st' = trace st ++ loop_prologue env h ++ l /\
        loop_trace env h c (first_transaction env) (first_rldata env h) true l
  | Killed sig st' => disposition_of sig st' = SIG_DFL
  | OutOfFuel st' =>
      exists l,
        trace st' = trace st ++ loop_prologue env h ++ l /\
        loop_trace env h c (first_transaction env) (first_rldata env h) false l
  end.
Proof.
  intros c. subst c. unfold main_loop, loop_prologue, first_rldata.
  match goal with |- context [bind ?m ?k st] =>
    destruct (bind_straight env m k _ _ st (straight_call env _ _))
      as [(st1 & Ht1 & _ & ->)|(sig & st1 & -> & _ & Hd)]; [|assumption]
  end.
  match goal with |- context [bind ?m ?k st1] =>
    destruct (bind_straight env m k _ _ st1 (straight_call env _ _))
      as [(st2 & Ht2 & _ & ->)|(sig & st2 & -> & _ & Hd)]; [|assumption]
  end.
  fold (first_transaction env).
  destruct (gpio h) as [g|] eqn:Hg.
  - match goal with |- context [bind ?m ?k st2] =>
      destruct (bind_straight env m k _ _ st2 (straight_call env _ _))
        as [(st3 & Ht3 & _ & ->)|(sig & st3 & -> & _ & Hd)]; [|assumption]
    end.
    match goal with |- context [bind ?m ?k st3] =>
      destruct (bind_straight env m k _ _ st3 (straight_call env _ _))
        as [(st4 & Ht4 & _ & ->)|(sig & st4 & -> & _ & Hd)]; [|assumption]
    end.
    assert (Ht : trace st4
                 = trace st ++
                   [ev_msg_info "Accepting traffic";
                    ev_reset_transaction_struct initial_transaction;
                    ev_gpio_get_poll_fd (Some g) (env_gpio_get_poll_fd env (Some g));
                    ev_gpio_is_active (Some g) (env_gpio_is_active env (Some g))])
      by (rewrite Ht4, Ht3, Ht2, Ht1, <- !app_assoc; reflexivity).
    assert (Hc : clock st4 = (clock st + 4)%nat)
      by (unfold clock; rewrite Ht, length_app; reflexivity).
    pose proof (main_loop_while_trace env fuel h (first_transaction env)
                  {| rl_gpio := Some g;
                     rl_gpio_fd := env_gpio_get_poll_fd env (Some g);
                     is_running_for_real := true;
                     previous_gpio_state := env_gpio_is_active env (Some g) |}
                  st4) as Hloop.
    rewrite Hc in Hloop. cbn [List.length app].
    destruct (main_loop_while env fuel h _ _ st4) as [[] st5|sig st5|st5].
    + destruct Hloop as (l & Hl & Hs). exists l. split; [|exact Hs].
      rewrite Hl, Ht, <- app_assoc. reflexivity.
    + apply Hloop.
    + destruct Hloop as (l & Hl & Hs). exists l. split; [|exact Hs].
      rewrite Hl, Ht, <- app_assoc. reflexivity.
  - match goal with |- context [bind ?m ?k st2] =>
      destruct (bind_straight env m k _ _ st2 (straight_ret env _))
        as [(st3 & Ht3 & _ & ->)|(sig & st3 & -> & _ & Hd)]; [|assumption]
    end.
    match goal with |- context [bind ?m ?k st3] =>
      destruct (bind_straight env m k _ _ st3 (straight_ret env _))
        as [(st4 & Ht4 & _ & ->)|(sig & st4 & -> & _ & Hd)]; [|assumption]
    end.
    assert (Ht : trace st4
                 = trace st ++
                   [ev_msg_info "Accepting traffic";
                    ev_reset_transaction_struct initial_transaction])
      by (rewrite Ht4, Ht3, Ht2, Ht1, !app_nil_r, <- !app_assoc; reflexivity).
    assert (Hc : clock st4 = (clock st + 2)%nat)
      by (unfold clock; rewrite Ht, length_app; reflexivity).
    pose proof (main_loop_while_trace env fuel h (first_transaction env)
                  {| rl_gpio := None;
                     rl_gpio_fd := -1;
                     is_running_for_real := false;
                     previous_gpio_state := false |}
                  st4) as Hloop.
    rewrite Hc in Hloop. cbn [List.length app].
    destruct (main_loop_while env fuel h _ _ st4) as [[] st5|sig st5|st5].
    + destruct Hloop as (l & Hl & Hs). exists l. split; [|exact Hs].
      rewrite Hl, Ht, <- app_assoc. reflexivity.
    + apply Hloop.
    + destruct Hloop as (l & Hl & Hs). exists l. split; [|exact Hs].
      rewrite Hl, Ht, <- app_assoc. reflexivity.
Qed.

(** ** [main] *)

Lemma shutdown_straight env p h :
  straight env (shutdown env p h) EXIT_SUCCESS (shutdown_events p h).
Proof.
  unfold shutdown, shutdown_events.
  destruct (dummy_mode p); simpl negb; cbv iota; straight_steps.
Qed.

(** [main] when [setup] fails: nothing else is done. *)
Lemma run_setup_fails env fuel argv p r h ls :
  process_command_line (env_ULONG_MAX env) argv = (0, p) ->
  straight env (setup env p (env_indeterminate env)) (r, h) ls ->
  r < 0 ->
  match run env fuel argv with
  | Done code st => code = EXIT_FAILURE /\ trace st = ls
  | Killed sig st => disposition_of sig st = SIG_DFL
  | OutOfFuel _ => False
  end.
Proof.
  intros Hp Hs Hr. unfold run, main. rewrite Hp. simpl.
  match goal with |- context [bind ?m ?k ?st] =>
    destruct (bind_straight env m k _ _ st Hs)
      as [(st1 & Ht1 & _ & ->)|(sig & st1 & -> & _ & Hd)]; [|assumption]
  end.
  apply Z.ltb_lt in Hr. rewrite Hr. simpl. split; [reflexivity|exact Ht1].
Qed.

(** [main] when [setup] succeeds: the handlers are installed, the main
    loop runs, and what was opened is closed when the loop has ended. *)
Lemma run_after_setup env fuel argv p h ls :
  process_command_line (env_ULONG_MAX env) argv = (0, p) ->
  straight env (setup env p (env_indeterminate env)) (0, h) ls ->
  let c := (List.length ls + 2 + List.length (loop_prologue env h))%nat in
  match run env fuel argv with
  | Done code st =>
      code = EXIT_SUCCESS /\
      exists l,
        loop_trace env h c (first_transaction env) (first_rldata env h) true l /\
        trace st = ls ++ install_handlers ++ loop_prologue env h ++ l
                      ++ shutdown_events p h
  | Killed sig st => disposition_of sig st = SIG_DFL
  | OutOfFuel st =>
      exists l,
        loop_trace env h c (first_transaction env) (first_rldata env h) false l /\
        trace st = ls ++ install_handlers ++ loop_prologue env h ++ l
  end.
Proof.
  intros Hp Hs c. subst c. unfold run, main. rewrite Hp. simpl.
  match goal with |- context [bind ?m ?k ?st] =>
    destruct (bind_straight env m k _ _ st Hs)
      as [(st1 & Ht1 & _ & ->)|(sig & st1 & -> & _ & Hd)]; [|assumption]
  end.
  simpl in Ht1. cbn [Z.ltb Z.compare].
  match goal with |- context [bind ?m ?k st1] =>
    destruct (bind_straight env m k _ _ st1 (straight_sigaction env _ _))
      as [(st2 & Ht2 & _ & ->)|(sig & st2 & -> & _ & Hd)]; [|assumption]
  end.
  match goal with |- context [bind ?m ?k st2] =>
    destruct (bind_straight env m k _ _ st2 (straight_sigaction env _ _))
      as [(st3 & Ht3 & _ & ->)|(sig & st3 & -> & _ & Hd)]; [|assumption]
  end.
  assert (Ht : trace st3 = ls ++ install_handlers)
    by (rewrite Ht3, Ht2, Ht1, <- app_assoc; reflexivity).
  assert (Hc : clock st3 = (List.length ls + 2)%nat)
    by (unfold clock; rewrite Ht, length_app; reflexivity).
  unfold bind at 1.
  pose proof (main_loop_trace env fuel h st3) as Hloop. cbv zeta in Hloop.
  rewrite Hc in Hloop.
  destruct (main_loop env fuel h st3) as [[] st4|sig st4|st4].
  - destruct Hloop as (l & Hl & Hshape).
    pose proof (shutdown_straight env p h st4) as Hdown.
    destruct (shutdown env p h st4) as [code st5|sig st5|st5];
      [|apply Hdown|contradiction].
    destruct Hdown as (-> & Ht5 & _). split; [reflexivity|].
    exists l. split; [exact Hshape|].
    rewrite Ht5, Hl, Ht, <- !app_assoc. reflexivity.
  - assumption.
  - destruct Hloop as (l & Hl & Hshape). exists l. split; [exact Hshape|].
    rewrite Hl, Ht, <- !app_assoc. reflexivity.
Qed.

(** ** The command line *)

Ltac strcmp_cases :=
  repeat match goal with
         | |- context [strcmp_eq ?a ?b] => destruct (strcmp_eq a b) eqn:?
         end.

Lemma strtoul_errno U e v max :
  invalid_number U max (strtoul U e v) = false -> snd (strtoul U e v) = e.
Proof.
  unfold strtoul.
  destruct (match skip_spaces v with
            | String "-"%char r => (true, r)
            | String "+"%char r => (false, r)
            | _ => (false, skip_spaces v)
            end) as [negative s1].
  destruct (digit_value (char_at s1 0)); [|reflexivity].
  destruct (scan_digits 0 s1) as [n rest].
  destruct (U <? n); [|reflexivity].
  unfold invalid_number. rewrite Z.eqb_refl. simpl.
  now rewrite orb_true_r.
Qed.

Lemma scan_app U :
  forall n pre, (List.length pre <= n)%nat ->
  forall rest e p p',
    scan_arguments U pre e p = (None, p') ->
    scan_arguments U (pre ++ rest) e p = scan_arguments U rest e p'.
Proof.
  induction n as [|n IH]; intros pre Hn rest e p p'.
  - destruct pre; [|simpl in Hn; lia]. simpl. now intros [= ->].
  - destruct pre as [|a pre]; [simpl; now intros [= ->]|].
    simpl in Hn. simpl. strcmp_cases; try discriminate.
    + apply IH. lia.
    + destruct pre as [|v pre]; [discriminate|]. simpl in Hn. apply IH. lia.
    + destruct pre as [|v pre]; [discriminate|]. simpl in Hn. apply IH. lia.
    + destruct pre as [|v pre]; [discriminate|]. simpl in Hn. apply IH. lia.
    + destruct pre as [|v pre]; [discriminate|]. simpl in Hn. simpl.
      destruct (invalid_number U UINT32_MAX (strtoul U e v)) eqn:Hv;
        [discriminate|].
      rewrite (strtoul_errno _ _ _ _ Hv). apply IH. lia.
    + destruct pre as [|v pre]; [discriminate|]. simpl in Hn. simpl.
      destruct (invalid_number U UINT_MAX (strtoul U e v)) eqn:Hv;
        [discriminate|].
      rewrite (strtoul_errno _ _ _ _ Hv). apply IH. lia.
    + apply IH. lia.
Qed.

Lemma digit_is_plain c d :
  digit_value c = Some d ->
  isspace c = false /\ c <> "-"%char /\ c <> "+"%char.
Proof.
  intros H.
  destruct c as [[] [] [] [] [] [] [] []]; try discriminate H;
    repeat split; (reflexivity || discriminate).
Qed.

Lemma decimal_digits_scan :
  forall s acc n, decimal_digits acc s = Some n -> scan_digits acc s = (n, "").
Proof.
  induction s as [|c r IH]; intros acc n; simpl.
  - now intros [= ->].
  - destruct (digit_value c); [apply IH | discriminate].
Qed.

Lemma decimal_strtoul U e v n :
  decimal v = Some n ->
  strtoul U e v = if U <? n then (U, "", ERANGE) else (n, "", e).
Proof.
  destruct v as [|c r]; [discriminate|]. unfold decimal. intros H.
  pose proof (decimal_digits_scan _ _ _ H) as Hscan.
  assert (exists d, digit_value c = Some d) as [d Hd]
    by (simpl in H; destruct (digit_value c); [eauto|discriminate]).
  destruct (digit_is_plain _ _ Hd) as (Hsp & Hminus & Hplus).
  unfold strtoul. simpl skip_spaces. rewrite Hsp.
  assert (Hs1 : match String c r with
                | String "-"%char r0 => (true, r0)
                | String "+"%char r0 => (false, r0)
                | _ => (false, String c r)
                end = (false, String c r)).
  { destruct c as [[] [] [] [] [] [] [] []]; try reflexivity;
      [now elim Hminus | now elim Hplus]. }
  rewrite Hs1. cbn [char_at]. rewrite Hd, Hscan. reflexivity.
Qed.



(** [process_command_line] after a prefix the scan runs through. *)
Lemma process_command_line_app U prog pre rest p1 :
  scanned U pre p1 ->
  process_command_line U (prog :: pre ++ rest)
  = match scan_arguments U rest 0 p1 with
    | (Some r, p) => (r, p)
    | (None, p) =>
        if Ascii.eqb (char_at (spidev_name p) 0) "-"
           && Ascii.eqb (char_at (spidev_name p) 1) NUL
        then (0, set_dummy_mode true p)
        else (0, p)
    end.
Proof.
  intros H. unfold process_command_line. simpl tl.
  now rewrite (scan_app U _ pre (le_n _) rest 0 default_parameters p1 H).
Qed.





Lemma scan_keeps_field U o :
  forall n mid, (List.length mid <= n)%nat -> ~ In o mid ->
  forall e p,
    option_field o (snd (scan_arguments U mid e p)) = option_field o p.
Proof.
  induction n as [|n IH]; intros mid Hn Ho e p.
  - destruct mid; [reflexivity|simpl in Hn; lia].
  - destruct mid as [|a mid]; [reflexivity|].
    simpl in Hn. simpl.
    assert (Ha : String.eqb o a = false)
      by (apply String.eqb_neq; intros ->; apply Ho; now left).
    assert (Hmid : ~ In o mid) by (intros H; apply Ho; now right).
    strcmp_cases; try reflexivity;
      try (rewrite IH by (assumption || lia); reflexivity);
      (destruct mid as [|v mid]; [reflexivity|]);
      simpl in Hn;
      assert (Hmid' : ~ In o mid) by (intros H; apply Hmid; now right);
      try match goal with
          | |- context [invalid_number ?U ?m ?r] =>
              destruct (invalid_number U m r); [reflexivity|]
          end;
      rewrite IH by (assumption || lia);
      match goal with
      | H : strcmp_eq a ?name = true |- _ =>
          apply String.eqb_eq in H; subst a;
          unfold option_field; simpl;
          repeat match goal with
                 | |- context [String.eqb o ?b] =>
                     destruct (String.eqb o b) eqn:?; try discriminate
                 end;
          reflexivity
      end.
Qed.

Lemma straight_finishes env (m : M Z) code l st :
  trace st = [] -> straight env m code l -> finishes (m st) code l.
Proof.
  intros Hst H. specialize (H st). unfold finishes.
  destruct (m st); [|apply H|assumption].
  rewrite Hst in H. simpl in H. tauto.
Qed.

Lemma run_help env fuel argv p :
  process_command_line (env_ULONG_MAX env) argv = (1, p) ->
  finishes (run env fuel argv) EXIT_SUCCESS [ev_usage (hd "" argv)].
Proof.
  intros Hp. unfold run, main. rewrite Hp. simpl.
  apply (straight_finishes env); [reflexivity|]. straight_steps.
Qed.

Lemma run_version env fuel argv p :
  process_command_line (env_ULONG_MAX env) argv = (2, p) ->
  finishes (run env fuel argv) EXIT_SUCCESS [ev_show_version_info].
Proof.
  intros Hp. unfold run, main. rewrite Hp. simpl.
  apply (straight_finishes env); [reflexivity|]. straight_steps.
Qed.

Lemma run_invalid env fuel argv p :
  process_command_line (env_ULONG_MAX env) argv = (-1, p) ->
  run env fuel argv = Done EXIT_FAILURE (initial_process env).
Proof. intros Hp. unfold run, main. now rewrite Hp. Qed.

Lemma digit_value_range c d : digit_value c = Some d -> 0 <= d <= 9.
Proof.
  unfold digit_value.
  destruct ((48 <=? Z.of_N (N_of_ascii c)) && (Z.of_N (N_of_ascii c) <=? 57)) eqn:E;
    [|discriminate].
  intros [= <-]. apply andb_true_iff in E as [H1 H2].
  apply Z.leb_le in H1, H2. lia.
Qed.

Lemma decimal_digits_nonneg :
  forall s acc n, 0 <= acc -> decimal_digits acc s = Some n -> 0 <= n.
Proof.
  induction s as [|c r IH]; intros acc n Hacc; cbn [decimal_digits].
  - intros [= <-]. assumption.
  - destruct (digit_value c) as [d|] eqn:Hd; [|discriminate].
    apply IH. pose proof (digit_value_range _ _ Hd). lia.
Qed.

Lemma decimal_nonneg v n : decimal v = Some n -> 0 <= n.
Proof.
  destruct v; [discriminate|]. unfold decimal.
  now apply decimal_digits_nonneg.
Qed.






(** ** [setup] as a function of what the environment answers *)

Lemma setup_outcome_straight env p h :
  straight env (setup env p h) (fst (setup_outcome env p h))
    (snd (setup_outcome env p h)).
Proof.
  unfold setup_outcome.
  destruct (negb (run_in_foreground p) && (env_daemon env <? 0)) eqn:Hd.
  { apply andb_true_iff in Hd as [Hfg Hd]. apply negb_true_iff in Hfg.
    apply Z.ltb_lt in Hd. now apply setup_daemon_fails. }
  assert (Hok : daemon_ok env p).
  { unfold daemon_ok. destruct (run_in_foreground p); [now left|right].
    simpl in Hd. now apply Z.ltb_ge. }
  destruct (fd_in env p <? 0) eqn:Hin.
  { apply Z.ltb_lt in Hin. now apply setup_fifo_in_fails. }
  apply Z.ltb_ge in Hin.
  destruct (fd_out env p <? 0) eqn:Hout.
  { apply Z.ltb_lt in Hout. now apply setup_fifo_out_fails. }
  apply Z.ltb_ge in Hout.
  destruct (dummy_mode p) eqn:Hdummy.
  { now apply setup_dummy. }
  destruct (fd_spi env p <? 0) eqn:Hspi.
  { apply Z.ltb_lt in Hspi. now apply setup_spi_fails. }
  apply Z.ltb_ge in Hspi.
  destruct (gpio_of env p) as [g|] eqn:Hg.
  - simpl fst. simpl snd. rewrite <- Hg. apply setup_hardware; try assumption.
    rewrite Hg. discriminate.
  - now apply setup_gpio_fails.
Qed.

Lemma setup_outcome_code env p h :
  fst (fst (setup_outcome env p h)) = 0 \/ fst (fst (setup_outcome env p h)) = -1.
Proof.
  unfold setup_outcome.
  repeat match goal with
         | |- context [if ?b then _ else _] => destruct b
         | |- context [match gpio_of env p with _ => _ end] =>
             destruct (gpio_of env p)
         end; simpl; auto.
Qed.

(** Every run of an accepted command line, by the outcome of [setup]. *)
Lemma run_outcome env fuel argv p :
  process_command_line (env_ULONG_MAX env) argv = (0, p) ->
  let o := setup_outcome env p (env_indeterminate env) in
  let h := snd (fst o) in
  let c := (List.length (snd o) + 2 + List.length (loop_prologue env h))%nat in
  (fst (fst o) = -1 /\ finishes (run env fuel argv) EXIT_FAILURE (snd o))
  \/ (fst (fst o) = 0 /\
      match run env fuel argv with
      | Done code st =>
          code = EXIT_SUCCESS /\
          exists l,
            loop_trace env h c (first_transaction env) (first_rldata env h) true l /\
            trace st = snd o ++ install_handlers ++ loop_prologue env h ++ l
                          ++ shutdown_events p h
      | Killed sig st => disposition_of sig st = SIG_DFL
      | OutOfFuel st =>
          exists l,
            loop_trace env h c (first_transaction env) (first_rldata env h) false l /\
            trace st = snd o ++ install_handlers ++ loop_prologue env h ++ l
      end).
Proof.
  intros Hp. cbv zeta.
  pose proof (setup_outcome_straight env p (env_indeterminate env)) as Hs.
  pose proof (setup_outcome_code env p (env_indeterminate env)) as Hr.
  destruct (setup_outcome env p (env_indeterminate env)) as [[r h'] ls].
  simpl in *. destruct Hr as [-> | ->].
  - right. split; [reflexivity|].
    exact (run_after_setup env fuel argv p h' ls Hp Hs).
  - left. split; [reflexivity|].
    pose proof (run_setup_fails env fuel argv p (-1) h' ls Hp Hs) as H.
    unfold finishes. destruct (run env fuel argv); apply H; lia.
Qed.


Lemma is_slave_serial_spec serial :
  is_slave_serial serial = true <-> 0x0001 <= serial <= 0x7fff.
Proof.
  unfold is_slave_serial, DCPSYNC_SLAVE_SERIAL_MIN, DCPSYNC_SLAVE_SERIAL_MAX.
  rewrite andb_true_iff, !Z.leb_le. reflexivity.
Qed.

Lemma is_master_serial_spec serial :
  is_master_serial serial = true <-> 0x8001 <= serial <= 0xffff.
Proof.
  unfold is_master_serial, DCPSYNC_MASTER_SERIAL_MIN, DCPSYNC_MASTER_SERIAL_MAX.
  rewrite andb_true_iff, !Z.leb_le. reflexivity.
Qed.

(** C5.  The constants of dcpdefs.h have the values of the wire format:
    header sizes 6 and 4, at most 256 bytes of payload, escape byte 0x27,
    command codes 0 to 3, slave serials 0x0001..0x7fff with 0x0000 for
    "invalid", master serials 0x8001..0xffff with 0x8000 for "invalid". *)
Theorem wire_format_constants :
  (DCPSYNC_HEADER_SIZE = 6 /\ DCP_HEADER_SIZE = 4 /\
   DCP_PAYLOAD_MAXSIZE = 256 /\ DCP_ESCAPE_CHARACTER = 0x27) /\
  (DCP_COMMAND_WRITE_REGISTER = 0 /\ DCP_COMMAND_READ_REGISTER = 1 /\
   DCP_COMMAND_MULTI_WRITE_REGISTER = 2 /\ DCP_COMMAND_MULTI_READ_REGISTER = 3) /\
  (forall serial,
      is_slave_serial serial = true <-> 0x0001 <= serial <= 0x7fff) /\
  (DCPSYNC_SLAVE_SERIAL_INVALID = 0x0000 /\
   is_slave_serial DCPSYNC_SLAVE_SERIAL_INVALID = false /\
   is_master_serial DCPSYNC_SLAVE_SERIAL_INVALID = false) /\
  (forall serial,
      is_master_serial serial = true <-> 0x8001 <= serial <= 0xffff) /\
  (DCPSYNC_MASTER_SERIAL_INVALID = 0x8000 /\
   is_master_serial DCPSYNC_MASTER_SERIAL_INVALID = false /\
   is_slave_serial DCPSYNC_MASTER_SERIAL_INVALID = false).
Proof.
  split; [repeat split; reflexivity|].
  split; [repeat split; reflexivity|].
  split; [apply is_slave_serial_spec|].
  split; [repeat split; reflexivity|].
  split; [apply is_master_serial_spec|].
  repeat split; reflexivity.
Qed.



(** ** The first iteration, when no signal has arrived *)

Lemma main_loop_while_extends env fuel h t rl st :
  exists l, trace (final_state (main_loop_while env fuel h t rl st)) = trace st ++ l.
Proof.
  pose proof (main_loop_while_trace env fuel h t rl st) as H.
  destruct (main_loop_while env fuel h t rl st); simpl.
  - destruct H as (l & Hl & _). eauto.
  - destruct H as (_ & l & Hl & _). eauto.
  - destruct H as (l & Hl & _). eauto.
Qed.

Lemma main_loop_while_first_step env fuel h t rl st :
  keep_running st = true -> quiet env (clock st) 2 ->
  let r := env_dcpspi_process env (S (clock st)) (fifo_in_fd h) (fifo_out_fd h)
             (spi_fd h) t rl in
  exists st2,
    trace st2 = trace st ++ [ev_read_keep_running true;
                             step_event h t rl (fst (fst r))] /\
    main_loop_while env (S fuel) h t rl st
    = if fst (fst r) then main_loop_while env fuel h (snd (fst r)) (snd r) st2
      else Done tt st2.
Proof.
  intros Hk Hq r.
  assert (Hq0 : env_signals env (clock st) = []) by (apply Hq; lia).
  assert (Hq1 : env_signals env (S (clock st)) = []) by (apply Hq; lia).
  simpl main_loop_while. unfold bind at 1. unfold read_keep_running.
  rewrite (observable_quiet env _ _ st Hq0). cbn [fst snd]. rewrite Hk.
  set (st1 := log (ev_read_keep_running true) st).
  assert (Hc1 : clock st1 = S (clock st)) by apply clock_log.
  unfold bind at 1. unfold dcpspi_process.
  rewrite (observable_quiet env _ _ st1) by (now rewrite Hc1).
  cbn [fst snd]. rewrite Hc1. fold r.
  set (st2 := log _ st1). exists st2. split.
  - unfold st2, st1. simpl. rewrite <- app_assoc. reflexivity.
  - destruct (fst (fst r)); reflexivity.
Qed.

Lemma main_loop_first_step env fuel h st :
  keep_running st = true ->
  quiet env (clock st) (List.length (loop_prologue env h) + 2) ->
  let c := (clock st + List.length (loop_prologue env h))%nat in
  let r := env_dcpspi_process env (S c) (fifo_in_fd h) (fifo_out_fd h) (spi_fd h)
             (first_transaction env) (first_rldata env h) in
  exists st2,
    trace st2 = trace st ++ loop_prologue env h
                  ++ [ev_read_keep_running true;
                      step_event h (first_transaction env) (first_rldata env h)
                        (fst (fst r))] /\
    main_loop env (S fuel) h st
    = if fst (fst r)
      then main_loop_while env fuel h (snd (fst r)) (snd r) st2
      else Done tt st2.
Proof.
  intros Hk Hq. cbv zeta. apply quiet_app in Hq as [Hq Hq2].
  unfold main_loop. revert Hq Hq2.
  unfold loop_prologue, first_rldata, first_transaction.
  destruct (gpio h) as [g|] eqn:Hg; cbn [List.length app]; intros Hq Hq2.
  - match goal with |- context [bind ?m ?k st] =>
      destruct (bind_straight_quiet env m k _ _ st (straight_call env _ _))
        as (st1 & Ht1 & Hk1 & ->); [intros n Hn; apply Hq; simpl in *; lia|]
    end.
    assert (Hc1 : clock st1 = S (clock st))
      by (unfold clock; rewrite Ht1, length_app; simpl; lia).
    match goal with |- context [bind ?m ?k st1] =>
      destruct (bind_straight_quiet env m k _ _ st1 (straight_call env _ _))
        as (st2 & Ht2 & Hk2 & ->); [intros n Hn; apply Hq; simpl in *; lia|]
    end.
    assert (Hc2 : clock st2 = S (S (clock st)))
      by (unfold clock in *; rewrite Ht2, length_app, Hc1; simpl; lia).
    match goal with |- context [bind ?m ?k st2] =>
      destruct (bind_straight_quiet env m k _ _ st2 (straight_call env _ _))
        as (st3 & Ht3 & Hk3 & ->); [intros n Hn; apply Hq; simpl in *; lia|]
    end.
    assert (Hc3 : clock st3 = S (S (S (clock st))))
      by (unfold clock in *; rewrite Ht3, length_app, Hc2; simpl; lia).
    match goal with |- context [bind ?m ?k st3] =>
      destruct (bind_straight_quiet env m k _ _ st3 (straight_call env _ _))
        as (st4 & Ht4 & Hk4 & ->); [intros n Hn; apply Hq; simpl in *; lia|]
    end.
    assert (Hc4 : clock st4 = (clock st + 4)%nat)
      by (unfold clock in *; rewrite Ht4, length_app, Hc3; simpl; lia).
    destruct (main_loop_while_first_step env fuel h
                (env_reset_transaction_struct env initial_transaction true)
                {| rl_gpio := Some g;
                   rl_gpio_fd := env_gpio_get_poll_fd env (Some g);
                   is_running_for_real := true;
                   previous_gpio_state := env_gpio_is_active env (Some g) |} st4)
      as (st5 & Ht5 & E).
    + congruence.
    + now rewrite Hc4.
    + rewrite Hc4 in *. exists st5. split; [|exact E].
      rewrite Ht5, Ht4, Ht3, Ht2, Ht1, <- !app_assoc. reflexivity.
  - match goal with |- context [bind ?m ?k st] =>
      destruct (bind_straight_quiet env m k _ _ st (straight_call env _ _))
        as (st1 & Ht1 & Hk1 & ->); [intros n Hn; apply Hq; simpl in *; lia|]
    end.
    assert (Hc1 : clock st1 = S (clock st))
      by (unfold clock; rewrite Ht1, length_app; simpl; lia).
    match goal with |- context [bind ?m ?k st1] =>
      destruct (bind_straight_quiet env m k _ _ st1 (straight_call env _ _))
        as (st2 & Ht2 & Hk2 & ->); [intros n Hn; apply Hq; simpl in *; lia|]
    end.
    assert (Hc2 : clock st2 = (clock st + 2)%nat)
      by (unfold clock in *; rewrite Ht2, length_app, Hc1; simpl; lia).
    unfold bind at 1. unfold ret at 1. unfold bind at 1. unfold ret at 1.
    destruct (main_loop_while_first_step env fuel h
                (env_reset_transaction_struct env initial_transaction true)
                {| rl_gpio := None;
                   rl_gpio_fd := -1;
                   is_running_for_real := false;
                   previous_gpio_state := false |} st2)
      as (st5 & Ht5 & E).
    + congruence.
    + now rewrite Hc2.
    + rewrite Hc2 in *. exists st5. split; [|exact E].
      rewrite Ht5, Ht2, Ht1, <- !app_assoc. reflexivity.
Qed.

Lemma straight_extends {A} env (m : M A) a l st :
  straight env m a l ->
  exists l', trace (final_state (m st)) = trace st ++ l'.
Proof.
  intros H. specialize (H st). destruct (m st); simpl.
  - destruct H as (_ & Ht & _). eauto.
  - destruct H as (_ & _ & done & rest & _ & Ht). eauto.
  - contradiction.
Qed.

Lemma run_first_step env fuel argv p h ls :
  process_command_line (env_ULONG_MAX env) argv = (0, p) ->
  straight env (setup env p (env_indeterminate env)) (0, h) ls ->
  quiet env 0 (List.length ls + 2 + List.length (loop_prologue env h) + 2) ->
  let c := (List.length ls + 2 + List.length (loop_prologue env h))%nat in
  let r := env_dcpspi_process env (S c) (fifo_in_fd h) (fifo_out_fd h) (spi_fd h)
             (first_transaction env) (first_rldata env h) in
  exists rest,
    trace (final_state (run env (S fuel) argv))
    = ls ++ install_handlers ++ loop_prologue env h
         ++ [ev_read_keep_running true;
             step_event h (first_transaction env) (first_rldata env h)
               (fst (fst r))]
         ++ rest.
Proof.
  intros Hp Hs Hq. cbv zeta. unfold run, main. rewrite Hp. simpl.
  match goal with |- context [bind ?m ?k ?st] =>
    destruct (bind_straight_quiet env m k _ _ st Hs)
      as (st1 & Ht1 & Hk1 & ->); [intros n Hn; apply Hq; simpl in *; lia|]
  end.
  simpl in Ht1, Hk1. cbn [Z.ltb Z.compare].
  assert (Hc1 : clock st1 = List.length ls) by (unfold clock; now rewrite Ht1).
  match goal with |- context [bind ?m ?k st1] =>
    destruct (bind_straight_quiet env m k _ _ st1 (straight_sigaction env _ _))
      as (st2 & Ht2 & Hk2 & ->); [intros n Hn; apply Hq; simpl in *; lia|]
  end.
  assert (Hc2 : clock st2 = S (List.length ls))
    by (unfold clock in *; rewrite Ht2, length_app, Hc1; simpl; lia).
  match goal with |- context [bind ?m ?k st2] =>
    destruct (bind_straight_quiet env m k _ _ st2 (straight_sigaction env _ _))
      as (st3 & Ht3 & Hk3 & ->); [intros n Hn; apply Hq; simpl in *; lia|]
  end.
  assert (Hc3 : clock st3 = (List.length ls + 2)%nat)
    by (unfold clock in *; rewrite Ht3, length_app, Hc2; simpl; lia).
  assert (Ht : trace st3 = ls ++ install_handlers)
    by (rewrite Ht3, Ht2, Ht1, <- app_assoc; reflexivity).
  destruct (main_loop_first_step env fuel h st3) as (st5 & Ht5 & E).
  { congruence. }
  { intros n Hn. apply Hq. rewrite Hc3 in Hn. lia. }
  rewrite Hc3 in Ht5, E. unfold bind at 1. rewrite E.
  set (b := fst (fst (env_dcpspi_process env _ _ _ _ _ _))) in *.
  assert (Hdown : forall X : result unit,
             exists l',
               trace (final_state
                        match X with
                        | Done _ st' => shutdown env p h st'
                        | Killed sig st' => Killed sig st'
                        | OutOfFuel st' => OutOfFuel st'
                        end)
               = trace (final_state X) ++ l').
  { intros [[] st'|sig st'|st']; simpl.
    - apply (straight_extends env _ _ _ st' (shutdown_straight env p h)).
    - exists []. now rewrite app_nil_r.
    - exists []. now rewrite app_nil_r. }
  destruct b.
  - destruct (Hdown (main_loop_while env fuel h
                       (snd (fst (env_dcpspi_process env
                                    (S (List.length ls + 2
                                        + List.length (loop_prologue env h)))
                                    (fifo_in_fd h) (fifo_out_fd h) (spi_fd h)
                                    (first_transaction env) (first_rldata env h))))
                       (snd (env_dcpspi_process env
                               (S (List.length ls + 2
                                   + List.length (loop_prologue env h)))
                               (fifo_in_fd h) (fifo_out_fd h) (spi_fd h)
                               (first_transaction env) (first_rldata env h)))
                       st5)) as (l' & Hl').
    destruct (main_loop_while_extends env fuel h
                (snd (fst (env_dcpspi_process env
                             (S (List.length ls + 2
                                 + List.length (loop_prologue env h)))
                             (fifo_in_fd h) (fifo_out_fd h) (spi_fd h)
                             (first_transaction env) (first_rldata env h))))
                (snd (env_dcpspi_process env
                        (S (List.length ls + 2
                            + List.length (loop_prologue env h)))
                        (fifo_in_fd h) (fifo_out_fd h) (spi_fd h)
                        (first_transaction env) (first_rldata env h)))
                st5) as (l & Hl).
    exists (l ++ l'). rewrite Hl', Hl, Ht5, Ht, <- !app_assoc. reflexivity.
  - destruct (Hdown (Done tt st5)) as (l' & Hl').
    exists l'. rewrite Hl'. simpl. rewrite Ht5, Ht, <- !app_assoc. reflexivity.
Qed.

(** ** Dummy mode *)

Lemma scan_codes U :
  forall n args, (List.length args <= n)%nat ->
  forall e p r p',
    scan_arguments U args e p = (Some r, p') -> r = 1 \/ r = 2 \/ r = -1.
Proof.
  induction n as [|n IH]; intros args Hn e p r p'.
  - destruct args; [discriminate|simpl in Hn; lia].
  - destruct args as [|a args]; [discriminate|].
    simpl in Hn. simpl. strcmp_cases;
      try (intros [= <- _]; tauto);
      try (apply IH; lia);
      (destruct args as [|v args]; [intros [= <- _]; tauto|]);
      simpl in Hn;
      try match goal with
          | |- context [invalid_number ?U ?m ?r] =>
              destruct (invalid_number U m r); [intros [= <- _]; tauto|]
          end;
      apply IH; lia.
Qed.

(** The device name "-" selects dummy mode. *)
Lemma sentinel_selects_dummy_mode U argv p :
  process_command_line U argv = (0, p) ->
  spidev_name p = "-" -> dummy_mode p = true.
Proof.
  unfold process_command_line.
  destruct (scan_arguments U (tl argv) 0 default_parameters) as [[r|] p0] eqn:E.
  - intros [= -> ->].
    destruct (scan_codes U _ (tl argv) (le_n _) _ _ _ _ E) as [H|[H|H]];
      discriminate H.
  - destruct (Ascii.eqb (char_at (spidev_name p0) 0) "-"
              && Ascii.eqb (char_at (spidev_name p0) 1) NUL) eqn:Hc.
    + intros [= <-]. reflexivity.
    + intros [= <-] Hname. rewrite Hname in Hc. discriminate Hc.
Qed.

(** C3.  With "-" as the name of the SPI device the daemon runs without
    hardware.  [setup] still creates and opens both channels and, when
    these calls succeed, returns 0 with [spi_fd] -1 and [gpio] NULL; in
    all that the process does from its start to its exit, the SPI device
    and the GPIO are neither opened, nor configured, nor polled, nor
    closed; the main loop is entered, and when no signal has arrived by
    then the engine is called, with -1 for the SPI device and no GPIO. *)
Theorem dummy_mode_runs_without_hardware :
  forall env fuel argv p,
    process_command_line (env_ULONG_MAX env) argv = (0, p) ->
    spidev_name p = "-" ->
    daemon_ok env p -> 0 <= fd_in env p -> 0 <= fd_out env p ->
    let h := mk_handles (fd_in env p) (fd_out env p) (-1) NULL in
    let ls := setup_prologue env p ++ [open_in env p; open_out env p] in
    let enter := [ev_msg_info "Accepting traffic";
                  ev_reset_transaction_struct initial_transaction] in
    let rl := mk_rldata NULL (-1) false false in
    let c := (List.length ls + 4)%nat in
    dummy_mode p = true /\
    straight env (setup env p (env_indeterminate env)) (0, h) ls /\
    match run env fuel argv with
    | Done code st =>
        code = EXIT_SUCCESS /\
        exists l,
          loop_trace env h c (first_transaction env) rl true l /\
          trace st = ls ++ install_handlers ++ enter ++ l
                        ++ [ev_msg_info "Terminated, shutting down";
                            close_in env p; close_out env p]
    | Killed sig st => disposition_of sig st = SIG_DFL
    | OutOfFuel st =>
        exists l,
          loop_trace env h c (first_transaction env) rl false l /\
          trace st = ls ++ install_handlers ++ enter ++ l
    end /\
    (quiet env 0 (c + 2) ->
     exists rest,
       trace (final_state (run env (S fuel) argv))
       = ls ++ install_handlers ++ enter
            ++ [ev_read_keep_running true;
                step_event h (first_transaction env) rl
                  (fst (fst (env_dcpspi_process env (S c) (fd_in env p)
                               (fd_out env p) (-1) (first_transaction env) rl)))]
            ++ rest).
Proof.
  intros env fuel argv p Hp Hname Hd Hin Hout h ls enter rl c.
  pose proof (sentinel_selects_dummy_mode _ _ _ Hp Hname) as Hdummy.
  pose proof (setup_dummy env p (env_indeterminate env) Hd Hin Hout Hdummy) as Hs.
  fold h ls in Hs.
  split; [exact Hdummy|]. split; [exact Hs|]. split.
  - pose proof (run_after_setup env fuel argv p h ls Hp Hs) as H.
    unfold shutdown_events in H. rewrite Hdummy in H.
    change (loop_prologue env h) with enter in H.
    change (first_rldata env h) with rl in H.
    replace (List.length ls + 2 + List.length enter)%nat with c in H
      by (subst c; simpl; lia).
    exact H.
  - intros Hq.
    pose proof (run_first_step env fuel argv p h ls Hp Hs) as H.
    change (loop_prologue env h) with enter in H.
    change (first_rldata env h) with rl in H.
    replace (List.length ls + 2 + List.length enter)%nat with c in H
      by (subst c; simpl; lia).
    apply H. intros n Hn. apply Hq. lia.
Qed.

(** ** Invariants of the process *)

Lemma preserves_ret J {A} (a : A) : preserves J (ret a).
Proof. intros st H. exact H. Qed.

Lemma preserves_bind J {A B} (m : M A) (k : A -> M B) :
  preserves J m -> (forall a, preserves J (k a)) -> preserves J (bind m k).
Proof.
  intros Hm Hk st H. unfold bind. specialize (Hm st H).
  destruct (m st) as [a st1|sig st1|st1]; simpl in *; try assumption.
  now apply Hk.
Qed.

Lemma preserves_out_of_fuel J {A} : preserves J (@out_of_fuel A).
Proof. intros st H. exact H. Qed.

(** Decomposition of a computation into its observable actions; [prim]
    proves the invariant for one action. *)
Ltac preserves_steps prim :=
  repeat first
    [ apply preserves_ret
    | apply preserves_out_of_fuel
    | prim
    | apply preserves_bind; [ | intros ? ]
    | match goal with
      | |- preserves _ (if ?b then _ else _) => destruct b
      | |- preserves _ (match ?x with Some _ => _ | None => _ end) => destruct x
      end ].

(** *** What the engine is handed *)

Lemma capacities_observable {A} env upd (obs : process -> A * event) :
  (forall st, trace (upd st) = trace st) ->
  (forall st, static_capacities (snd (obs st))) ->
  preserves capacities_never_change (observable env upd obs).
Proof.
  intros Hupd Hobs st H. unfold capacities_never_change in *.
  destruct (observable_cases env upd obs st)
    as [(st1 & _ & Ht & ->)|(sig & st1 & -> & Ht & _)]; simpl.
  - rewrite Hupd, Ht. apply Forall_app. split; [assumption|].
    constructor; [apply Hobs|constructor].
  - now rewrite Ht.
Qed.

Lemma capacities_call {A} env (r : A) e :
  static_capacities e -> preserves capacities_never_change (call env r e).
Proof. intros H. apply capacities_observable; [reflexivity|intros _; exact H]. Qed.

Lemma capacities_sigaction env sig act :
  preserves capacities_never_change (sigaction env sig act).
Proof.
  apply capacities_observable; [intros st; destruct sig; reflexivity|].
  intros _. exact I.
Qed.

Ltac capacities_prim :=
  first [ apply capacities_sigaction
        | apply capacities_call; exact I ].

Lemma capacities_setup env p h :
  preserves capacities_never_change (setup env p h).
Proof.
  unfold setup, log_version_info, error_gpio_open, error_spi_open,
    error_fifo_out.
  cbv zeta. preserves_steps capacities_prim.
Qed.

Lemma capacities_shutdown env p h :
  preserves capacities_never_change (shutdown env p h).
Proof. unfold shutdown. preserves_steps capacities_prim. Qed.

Lemma dcpspi_process_result env h t rl st r st' :
  dcpspi_process env h t rl st = Done r st' ->
  exists n,
    r = env_dcpspi_process env n (fifo_in_fd h) (fifo_out_fd h) (spi_fd h) t rl.
Proof.
  unfold dcpspi_process.
  match goal with |- observable env ?u ?o st = _ -> _ =>
    destruct (observable_cases env u o st)
      as [(st1 & _ & _ & ->)|(sig & st1 & -> & _)]; [|discriminate]
  end.
  intros [= <- _]. eauto.
Qed.

Lemma capacities_dcpspi_process env h t rl :
  capacities t = (dcp_backing_buffer, 266, spi_backing_buffer, 520) ->
  preserves capacities_never_change (dcpspi_process env h t rl).
Proof.
  intros Ht. unfold dcpspi_process.
  apply capacities_observable; [reflexivity|intros ?; exact Ht].
Qed.

Lemma capacities_main_loop_while env h :
  keeps_capacities env ->
  forall fuel t rl,
    capacities t = (dcp_backing_buffer, 266, spi_backing_buffer, 520) ->
    preserves capacities_never_change (main_loop_while env fuel h t rl).
Proof.
  intros [_ Hstep]. induction fuel as [|fuel IH]; intros t rl Ht; simpl.
  - apply preserves_out_of_fuel.
  - apply preserves_bind.
    + apply capacities_observable; [reflexivity|intros ?; exact I].
    + intros [|]; [|apply preserves_ret].
      intros st H. unfold bind.
      pose proof (capacities_dcpspi_process env h t rl Ht st H) as Hcall.
      destruct (dcpspi_process env h t rl st) as [r st1|sig st1|st1] eqn:E;
        simpl in Hcall; try assumption.
      destruct (dcpspi_process_result _ _ _ _ _ _ _ E) as [n ->].
      destruct (fst (fst (env_dcpspi_process env n _ _ _ t rl))); [|exact Hcall].
      apply IH; [|exact Hcall]. now rewrite Hstep.
Qed.

Lemma call_result {A} env (r : A) e st a st' :
  call env r e st = Done a st' -> a = r.
Proof.
  intros E. pose proof (straight_call env r e st) as H. rewrite E in H.
  apply H.
Qed.

(** Sequencing after a call: only the answer of the environment is
    passed on. *)
Lemma preserves_bind_call J {A B} env (r : A) e (k : A -> M B) :
  preserves J (call env r e) -> preserves J (k r) ->
  preserves J (bind (call env r e) k).
Proof.
  intros Hm Hk st H. unfold bind. specialize (Hm st H).
  destruct (call env r e st) as [a st1|sig st1|st1] eqn:E; simpl in *;
    try assumption.
  apply call_result in E. subst a. now apply Hk.
Qed.

Lemma capacities_main_loop env fuel h :
  keeps_capacities env ->
  preserves capacities_never_change (main_loop env fuel h).
Proof.
  intros Hkeep. unfold main_loop. cbv zeta.
  apply preserves_bind; [apply capacities_call; exact I|intros _].
  apply preserves_bind_call; [apply capacities_call; reflexivity|].
  apply preserves_bind;
    [destruct (gpio h); preserves_steps capacities_prim|intros gpio_fd].
  apply preserves_bind;
    [destruct (gpio h); preserves_steps capacities_prim|intros active].
  apply capacities_main_loop_while; [exact Hkeep|].
  destruct Hkeep as [Hreset _]. now rewrite Hreset.
Qed.

Lemma capacities_main env fuel argv :
  keeps_capacities env ->
  preserves capacities_never_change (main env fuel argv).
Proof.
  intros Hkeep. unfold main.
  destruct (process_command_line (env_ULONG_MAX env) argv) as [r p].
  destruct (r =? -1); [apply preserves_ret|].
  destruct (r =? 1); [preserves_steps capacities_prim|].
  destruct (r =? 2); [preserves_steps capacities_prim|].
  apply preserves_bind; [apply capacities_setup|intros [r' h]].
  destruct (r' <? 0); [apply preserves_ret|].
  apply preserves_bind; [apply capacities_sigaction|intros _].
  apply preserves_bind; [apply capacities_sigaction|intros _].
  apply preserves_bind; [now apply capacities_main_loop|intros _].
  apply capacities_shutdown.
Qed.

Lemma escape_length first second raw :
  (List.length (escape first second raw) <= 2 * List.length raw)%nat.
Proof.
  unfold escape. induction raw as [|b raw IH]; simpl; [lia|].
  rewrite length_app. destruct (b =? DCP_ESCAPE_CHARACTER); simpl; lia.
Qed.

Lemma escape_all first second n :
  List.length (escape first second (repeat DCP_ESCAPE_CHARACTER n)) = (2 * n)%nat.
Proof.
  unfold escape. induction n as [|n IH]; simpl; [reflexivity|].
  rewrite IH. lia.
Qed.

(** What [main_loop] hands over before the loop: the transaction its
    initialiser builds, to [reset_transaction_struct]. *)
Lemma run_hands_over_initial_transaction env fuel argv p h ls :
  process_command_line (env_ULONG_MAX env) argv = (0, p) ->
  straight env (setup env p (env_indeterminate env)) (0, h) ls ->
  match run env fuel argv with
  | Killed _ _ => True
  | Done _ st | OutOfFuel st =>
      exists rest,
        trace st = ls ++ install_handlers
                      ++ [ev_msg_info "Accepting traffic";
                          ev_reset_transaction_struct initial_transaction]
                      ++ rest
  end.
Proof.
  intros Hp Hs. pose proof (run_after_setup env fuel argv p h ls Hp Hs) as H.
  cbv zeta in H. unfold loop_prologue in H.
  destruct (run env fuel argv) as [code st|sig st|st]; [|exact I|].
  - destruct H as (_ & l & _ & Ht). rewrite Ht. rewrite <- !app_assoc.
    eexists. reflexivity.
  - destruct H as (l & _ & Ht). rewrite Ht. rewrite <- !app_assoc.
    eexists. reflexivity.
Qed.

(** C4.  The two arenas of the transaction are the two static arrays of
    [main_loop], of 6+4+256 = 266 and 2*(4+256) = 520 bytes; their
    capacities are written once, by the initialiser that precedes the
    loop, and whenever the transaction is handed to another module, before
    the loop and in every iteration, it shows these two arrays and these
    two capacities, the other modules leaving them alone as the spec has
    it.  The transaction is handed over: in a run that comes to the main
    loop, to [reset_transaction_struct] as the initialiser has built it,
    and then, when no signal arrives, to the engine with the same arrays
    and capacities.  The second array holds a command of maximal size
    whatever the number of escape bytes in it, and is filled by one made
    of escape bytes only. *)
Theorem arena_capacities_are_fixed :
  (sizeof_backing dcp_backing_buffer
   = DCPSYNC_HEADER_SIZE + DCP_HEADER_SIZE + DCP_PAYLOAD_MAXSIZE /\
   sizeof_backing dcp_backing_buffer = 266 /\
   sizeof_backing spi_backing_buffer
   = 2 * (DCP_HEADER_SIZE + DCP_PAYLOAD_MAXSIZE) /\
   sizeof_backing spi_backing_buffer = 520) /\
  capacities initial_transaction
  = (dcp_backing_buffer, sizeof_backing dcp_backing_buffer,
     spi_backing_buffer, sizeof_backing spi_backing_buffer) /\
  (forall env fuel argv,
      keeps_capacities env ->
      Forall static_capacities (trace (final_state (run env fuel argv)))) /\
  (forall env fuel argv p h ls,
      process_command_line (env_ULONG_MAX env) argv = (0, p) ->
      straight env (setup env p (env_indeterminate env)) (0, h) ls ->
      match run env fuel argv with
      | Killed _ _ => True
      | Done _ st | OutOfFuel st =>
          exists rest,
            trace st = ls ++ install_handlers
                          ++ [ev_msg_info "Accepting traffic";
                              ev_reset_transaction_struct initial_transaction]
                          ++ rest
      end /\
      (quiet env 0 (List.length ls + 2 + List.length (loop_prologue env h) + 2) ->
       keeps_capacities env ->
       capacities (first_transaction env)
       = (dcp_backing_buffer, 266, spi_backing_buffer, 520) /\
       exists continue rest,
         trace (final_state (run env (S fuel) argv))
         = ls ++ install_handlers ++ loop_prologue env h
              ++ [ev_read_keep_running true;
                  step_event h (first_transaction env) (first_rldata env h)
                    continue]
              ++ rest)) /\
  (forall first second raw,
      Z.of_nat (List.length raw) <= DCP_HEADER_SIZE + DCP_PAYLOAD_MAXSIZE ->
      Z.of_nat (List.length (escape first second raw))
      <= sizeof_backing spi_backing_buffer) /\
  (forall first second,
      Z.of_nat (List.length
                  (escape first second
                     (repeat DCP_ESCAPE_CHARACTER
                        (Z.to_nat (DCP_HEADER_SIZE + DCP_PAYLOAD_MAXSIZE)))))
      = sizeof_backing spi_backing_buffer).
Proof.
  split; [repeat split; reflexivity|]. split; [reflexivity|].
  split; [|split; [|split]].
  - intros env fuel argv Hkeep.
    apply (capacities_main env fuel argv Hkeep (initial_process env)).
    constructor.
  - intros env fuel argv p h ls Hp Hs. split.
    + exact (run_hands_over_initial_transaction env fuel argv p h ls Hp Hs).
    + intros Hq [Hreset _]. split.
      * unfold first_transaction. rewrite Hreset. reflexivity.
      * destruct (run_first_step env fuel argv p h ls Hp Hs Hq) as [rest Ht].
        eexists. exists rest. exact Ht.
  - intros first second raw Hraw.
    pose proof (escape_length first second raw) as H.
    unfold DCP_HEADER_SIZE, DCP_PAYLOAD_MAXSIZE in Hraw.
    change (sizeof_backing spi_backing_buffer) with 520. lia.
  - intros first second. rewrite escape_all. reflexivity.
Qed.

(** *** Invariants that do not depend on what is recorded *)

Ltac stable_prim H :=
  first [ apply H
        | match goal with
          | |- preserves _ (call _ _ _) => unfold call; apply H
          | |- preserves _ (read_keep_running _) =>
              unfold read_keep_running; apply H
          | |- preserves _ (dcpspi_process _ _ _ _) =>
              unfold dcpspi_process; apply H
          end ].

Lemma stable_setup env J p h : stable env J -> preserves J (setup env p h).
Proof.
  intros H.
  unfold setup, log_version_info, error_gpio_open, error_spi_open,
    error_fifo_out.
  cbv zeta. preserves_steps ltac:(stable_prim H).
Qed.

Lemma stable_shutdown env J p h : stable env J -> preserves J (shutdown env p h).
Proof. intros H. unfold shutdown. preserves_steps ltac:(stable_prim H). Qed.

Lemma stable_main_loop_while env J h :
  stable env J ->
  forall fuel t rl, preserves J (main_loop_while env fuel h t rl).
Proof.
  intros H. induction fuel as [|fuel IH]; intros t rl; simpl.
  - apply preserves_out_of_fuel.
  - apply preserves_bind; [stable_prim H|intros [|]]; [|apply preserves_ret].
    apply preserves_bind; [stable_prim H|intros r].
    destruct (fst (fst r)); [apply IH|apply preserves_ret].
Qed.

Lemma stable_main_loop env J fuel h :
  stable env J -> preserves J (main_loop env fuel h).
Proof.
  intros H. unfold main_loop. cbv zeta.
  apply preserves_bind; [stable_prim H|intros _].
  apply preserves_bind; [stable_prim H|intros t].
  apply preserves_bind;
    [destruct (gpio h); preserves_steps ltac:(stable_prim H)|intros gpio_fd].
  apply preserves_bind;
    [destruct (gpio h); preserves_steps ltac:(stable_prim H)|intros active].
  now apply stable_main_loop_while.
Qed.

Lemma stable_main env J fuel argv :
  stable env J ->
  preserves J (sigaction env SIGINT action) ->
  preserves J (sigaction env SIGTERM action) ->
  preserves J (main env fuel argv).
Proof.
  intros H Hint Hterm. unfold main.
  destruct (process_command_line (env_ULONG_MAX env) argv) as [r p].
  destruct (r =? -1); [apply preserves_ret|].
  destruct (r =? 1); [preserves_steps ltac:(stable_prim H)|].
  destruct (r =? 2); [preserves_steps ltac:(stable_prim H)|].
  apply preserves_bind; [now apply stable_setup|intros [r' h]].
  destruct (r' <? 0); [apply preserves_ret|].
  apply preserves_bind; [exact Hint|intros _].
  apply preserves_bind; [exact Hterm|intros _].
  apply preserves_bind; [now apply stable_main_loop|intros _].
  now apply stable_shutdown.
Qed.

(** *** Delivery of signals *)

Lemma action_resets : (Z.land (sa_flags action) SA_RESETHAND =? 0) = false.
Proof. reflexivity. Qed.

(** What the delivery of one signal does, by the disposition. *)
Lemma deliver_spec sig st :
  match disposition_of sig st with
  | SIG_DFL => deliver sig st = None
  | SIG_IGN => deliver sig st = Some st
  | SIG_ACTION act =>
      deliver sig st
      = Some (set_keep_running false
                (if Z.land (sa_flags act) SA_RESETHAND =? 0 then st
                 else set_disposition sig SIG_DFL st))
  end.
Proof.
  unfold deliver. destruct (disposition_of sig st) as [| |[[] fl m]]; reflexivity.
Qed.

Lemma disposition_set_same sig d st :
  disposition_of sig (set_disposition sig d st) = d.
Proof. destruct sig; reflexivity. Qed.

Lemma disposition_set_other sig sig' d st :
  sig <> sig' -> disposition_of sig (set_disposition sig' d st) = disposition_of sig st.
Proof. destruct sig, sig'; intros H; try reflexivity; now elim H. Qed.

(** The flag is only ever cleared. *)
Lemma deliver_flag sig st st1 :
  deliver sig st = Some st1 ->
  keep_running st = false -> keep_running st1 = false.
Proof.
  pose proof (deliver_spec sig st) as H.
  destruct (disposition_of sig st); rewrite H; try discriminate.
  - now intros [= <-].
  - intros [= <-] _. reflexivity.
Qed.

Lemma deliver_all_flag sigs :
  forall st,
    keep_running st = false ->
    keep_running (final_state (deliver_all sigs st)) = false.
Proof.
  induction sigs as [|sig more IH]; intros st H; simpl; [assumption|].
  destruct (deliver sig st) as [st1|] eqn:E; [|assumption].
  apply IH. eauto using deliver_flag.
Qed.

(** Only a delivery clears the flag. *)
Lemma deliver_all_clears sigs :
  forall st,
    keep_running st = true ->
    keep_running (final_state (deliver_all sigs st)) = false ->
    sigs <> [].
Proof. intros st H1 H2 ->. simpl in H2. congruence. Qed.

(** *** The flag is cleared by a signal only *)

Lemma cleared_by_signal_observable {A} env upd (obs : process -> A * event) :
  (forall st, keep_running (upd st) = keep_running st) ->
  (forall st, trace (upd st) = trace st) ->
  preserves (cleared_by_signal env) (observable env upd obs).
Proof.
  intros Huk Hut st H. unfold observable, cleared_by_signal in *.
  pose proof (deliver_all_trace (env_signals env (clock st)) st) as Ht.
  pose proof (deliver_all_clears (env_signals env (clock st)) st) as Hc.
  assert (Hlate : forall st' : process,
             (clock st <= clock st')%nat ->
             keep_running (final_state
                             (deliver_all (env_signals env (clock st)) st))
             = false ->
             exists n sig, (n <= clock st')%nat /\ In sig (env_signals env n)).
  { intros st' Hle Hk. destruct H as [H|(n & sig & Hn & Hin)].
    - destruct (env_signals env (clock st)) as [|sig more] eqn:E;
        [now elim (Hc H Hk)|].
      exists (clock st), sig. rewrite E. split; [assumption|now left].
    - exists n, sig. split; [lia|assumption]. }
  destruct (deliver_all (env_signals env (clock st)) st) as [[] st1|sig st1|st1];
    simpl in *.
  - destruct (keep_running st1) eqn:Hk1.
    + left. now rewrite Huk.
    + right. apply Hlate; [|reflexivity].
      rewrite clock_log, (clock_trace st1 (upd st1)), (clock_trace st st1);
        auto.
  - destruct (keep_running st1) eqn:Hk1; [now left|right].
    apply Hlate; [|reflexivity]. rewrite (clock_trace st st1); auto.
  - destruct (keep_running st1) eqn:Hk1; [now left|right].
    apply Hlate; [|reflexivity]. rewrite (clock_trace st st1); auto.
Qed.

Lemma cleared_by_signal_main env fuel argv :
  preserves (cleared_by_signal env) (main env fuel argv).
Proof.
  apply stable_main.
  - intros A obs. now apply cleared_by_signal_observable.
  - apply cleared_by_signal_observable; intros st; reflexivity.
  - apply cleared_by_signal_observable; intros st; reflexivity.
Qed.

(** The loop does not end without cause: a signal has arrived where it
    is terminated, and it runs out of fuel only after as many complete
    iterations as it has fuel. *)
Lemma main_loop_while_progress env fuel h :
  forall t rl st,
    match main_loop_while env fuel h t rl st with
    | Done _ _ => True
    | Killed sig st' => In sig (env_signals env (clock st'))
    | OutOfFuel st' => clock st' = (clock st + 2 * fuel)%nat
    end.
Proof.
  induction fuel as [|fuel IH]; intros t rl st; simpl.
  - unfold out_of_fuel. lia.
  - unfold bind at 1.
    destruct (read_keep_running env st) as [b st1|s st1|st1] eqn:E1.
    + assert (Hc1 : clock st1 = S (clock st))
        by (apply (observable_Done_clock _ _ _ _ _ _ (fun _ => eq_refl) E1)).
      destruct b; [|exact I]. unfold bind at 1.
      destruct (dcpspi_process env h t rl st1) as [r st2|s st2|st2] eqn:E2.
      * assert (Hc2 : clock st2 = S (clock st1))
          by (apply (observable_Done_clock _ _ _ _ _ _ (fun _ => eq_refl) E2)).
        destruct (fst (fst r)); [|exact I].
        specialize (IH (snd (fst r)) (snd r) st2).
        destruct (main_loop_while env fuel h (snd (fst r)) (snd r) st2);
          [exact I|exact IH|lia].
      * apply observable_killed in E2 as (_ & Ht & Hin).
        now rewrite (clock_trace st1 st2 Ht).
      * unfold dcpspi_process in E2.
        match type of E2 with observable env ?u ?o st1 = _ =>
          destruct (observable_cases env u o st1)
            as [(x & _ & _ & Hx)|(x & y & Hx & _)]
        end; rewrite Hx in E2; discriminate E2.
    + apply observable_killed in E1 as (_ & Ht & Hin).
      now rewrite (clock_trace st st1 Ht).
    + unfold read_keep_running in E1.
      match type of E1 with observable env ?u ?o st = _ =>
        destruct (observable_cases env u o st)
          as [(x & _ & _ & Hx)|(x & y & Hx & _)]
      end; rewrite Hx in E1; discriminate E1.
Qed.

(** A cleared flag ends the loop at its next evaluation, before any
    call of the engine. *)
Lemma main_loop_while_flag_cleared env fuel h t rl st :
  env_signals env (clock st) = [] -> keep_running st = false ->
  main_loop_while env (S fuel) h t rl st
  = Done tt (log (ev_read_keep_running false) st).
Proof.
  intros Hq Hk. simpl main_loop_while. unfold bind at 1.
  unfold read_keep_running. rewrite (observable_quiet env _ _ st Hq).
  cbn [fst snd]. rewrite Hk. reflexivity.
Qed.

(** C1.  [signal_handler] writes [false] to [keep_running] and does
    nothing else: no disposition changes and nothing observable happens.
    The loop of [main_loop] evaluates the flag once at the start of every
    iteration, that is between two completed calls of the engine, calls
    the engine once when the flag was set, and is left as soon as the flag
    is found cleared or the engine has returned [false]; this holds of
    what the loop has done however it ends, also when it is interrupted or
    still running.  The loop is interrupted only where a signal has
    arrived, and is still running only after as many complete iterations
    as the bound allows.  With the flag cleared the loop is left at the
    evaluation, without a call of the engine; with the flag set, and no
    signal, the engine is called, and the loop goes on exactly when the
    engine has returned [true].  In a whole run the flag is cleared only
    if a signal has arrived. *)
Theorem run_loop_checks_flag_between_steps :
  (forall sig st,
      signal_handler sig st
      = {| keep_running := false;
           on_SIGINT := on_SIGINT st;
           on_SIGTERM := on_SIGTERM st;
           trace := trace st |}) /\
  (forall env fuel h t rl st,
      match main_loop_while env fuel h t rl st with
      | Done _ st' =>
          exists l, trace st' = trace st ++ l /\
                    loop_trace env h (clock st) t rl true l
      | Killed sig st' =>
          disposition_of sig st' = SIG_DFL /\
          exists l, trace st' = trace st ++ l /\
                    loop_trace env h (clock st) t rl false l
      | OutOfFuel st' =>
          exists l, trace st' = trace st ++ l /\
                    loop_trace env h (clock st) t rl false l
      end) /\
  (forall env fuel h t rl st,
      match main_loop_while env fuel h t rl st with
      | Done _ _ => True
      | Killed sig st' => In sig (env_signals env (clock st'))
      | OutOfFuel st' => clock st' = (clock st + 2 * fuel)%nat
      end) /\
  (forall env fuel h t rl st,
      env_signals env (clock st) = [] -> keep_running st = false ->
      main_loop_while env (S fuel) h t rl st
      = Done tt (log (ev_read_keep_running false) st)) /\
  (forall env fuel h t rl st,
      keep_running st = true -> quiet env (clock st) 2 ->
      let r := env_dcpspi_process env (S (clock st)) (fifo_in_fd h)
                 (fifo_out_fd h) (spi_fd h) t rl in
      exists st2,
        trace st2 = trace st ++ [ev_read_keep_running true;
                                 step_event h t rl (fst (fst r))] /\
        main_loop_while env (S fuel) h t rl st
        = if fst (fst r)
          then main_loop_while env fuel h (snd (fst r)) (snd r) st2
          else Done tt st2) /\
  (forall env fuel argv,
      let st := final_state (run env fuel argv) in
      keep_running st = false ->
      exists n sig, (n <= clock st)%nat /\ In sig (env_signals env n)).
Proof.
  split; [reflexivity|]. split; [apply main_loop_while_trace|].
  split; [intros; apply main_loop_while_progress|].
  split; [intros; now apply main_loop_while_flag_cleared|].
  split; [intros env fuel h t rl st Hk Hq;
          exact (main_loop_while_first_step env fuel h t rl st Hk Hq)|].
  intros env fuel argv st Hst.
  destruct (cleared_by_signal_main env fuel argv (initial_process env))
    as [H|H].
  - now left.
  - fold (run env fuel argv) in H. fold st in H. congruence.
  - exact H.
Qed.

(** *** A signal stops the loop *)

Lemma deliver_not_ignored sig sig' st st1 :
  deliver sig' st = Some st1 ->
  disposition_of sig st <> SIG_IGN -> disposition_of sig st1 <> SIG_IGN.
Proof.
  pose proof (deliver_spec sig' st) as H.
  destruct (disposition_of sig' st) as [| |act] eqn:Hd; rewrite H;
    try discriminate.
  - now intros [= <-].
  - intros [= <-] Hs.
    destruct (Z.land (sa_flags act) SA_RESETHAND =? 0); [destruct sig; exact Hs|].
    destruct (signum_eq_dec sig sig') as [->|Hne].
    + destruct sig'; simpl; discriminate.
    + destruct sig, sig'; simpl in *; try assumption; now elim Hne.
Qed.

Lemma deliver_all_not_ignored sig sigs :
  forall st,
    disposition_of sig st <> SIG_IGN ->
    disposition_of sig (final_state (deliver_all sigs st)) <> SIG_IGN.
Proof.
  induction sigs as [|s more IH]; intros st H; simpl; [assumption|].
  destruct (deliver s st) as [st1|] eqn:E; [|assumption].
  apply IH. eauto using deliver_not_ignored.
Qed.

Lemma deliver_all_Done_flag sigs :
  forall st u st1,
    deliver_all sigs st = Done u st1 ->
    keep_running st = false -> keep_running st1 = false.
Proof.
  intros st u st1 E H.
  pose proof (deliver_all_flag sigs st H) as H'. now rewrite E in H'.
Qed.

(** A signal that is not ignored clears the flag, if the process
    survives it. *)
Lemma deliver_all_stops sig sigs :
  forall st u st1,
    In sig sigs -> disposition_of sig st <> SIG_IGN ->
    deliver_all sigs st = Done u st1 -> keep_running st1 = false.
Proof.
  induction sigs as [|s more IH]; intros st u st1 Hin Hd; [contradiction|].
  simpl. destruct (deliver s st) as [st0|] eqn:E; [|discriminate].
  intros Hall. destruct Hin as [->|Hin].
  - apply (deliver_all_Done_flag more st0 u st1 Hall).
    pose proof (deliver_spec sig st) as H.
    destruct (disposition_of sig st) as [| |act]; rewrite H in E.
    + discriminate.
    + now elim Hd.
    + injection E as <-. reflexivity.
  - apply (IH st0 u st1 Hin); [|exact Hall].
    eauto using deliver_not_ignored.
Qed.

Lemma will_stop_observable {A} env sig n upd (obs : process -> A * event) :
  In sig (env_signals env n) ->
  (forall st, keep_running (upd st) = keep_running st) ->
  (forall st, trace (upd st) = trace st) ->
  (forall st, disposition_of sig st <> SIG_IGN ->
              disposition_of sig (upd st) <> SIG_IGN) ->
  preserves (will_stop sig n) (observable env upd obs).
Proof.
  intros Hin Huk Hut Hud st [Hd Hn]. unfold observable, will_stop.
  pose proof (deliver_all_trace (env_signals env (clock st)) st) as Ht.
  pose proof (deliver_all_not_ignored sig (env_signals env (clock st)) st Hd) as Hd'.
  pose proof (deliver_all_flag (env_signals env (clock st)) st) as Hf.
  destruct (deliver_all (env_signals env (clock st)) st) as [[] st1|s st1|st1] eqn:E;
    simpl in *.
  - split; [destruct sig; simpl; now apply (Hud st1)|].
    rewrite Huk. fold (clock (log (snd (obs st1)) (upd st1))).
    rewrite clock_log, (clock_trace st1 (upd st1)), (clock_trace st st1) by auto.
    intros Hlt. destruct (Nat.eq_dec n (clock st)) as [->|Hne].
    + exact (deliver_all_stops sig _ st tt st1 Hin Hd E).
    + apply Hf, Hn. lia.
  - split; [assumption|]. rewrite (clock_trace st st1) by assumption.
    intros Hlt. auto.
  - split; [assumption|]. rewrite (clock_trace st st1) by assumption.
    intros Hlt. auto.
Qed.

Lemma will_stop_stable env sig n :
  In sig (env_signals env n) -> stable env (will_stop sig n).
Proof. intros Hin A obs. apply will_stop_observable; auto. Qed.

Lemma will_stop_sigaction env sig n sig' act :
  In sig (env_signals env n) ->
  preserves (will_stop sig n) (sigaction env sig' act).
Proof.
  intros Hin. apply will_stop_observable; auto.
  - intros st. destruct sig'; reflexivity.
  - intros st. destruct sig'; reflexivity.
  - intros st H. destruct sig, sig'; simpl; (assumption || discriminate).
Qed.

(** The flag is found set only before the signal has arrived. *)
Lemma read_true_before env sig n st st' :
  In sig (env_signals env n) -> will_stop sig n st ->
  read_keep_running env st = Done true st' -> (clock st < n)%nat.
Proof.
  intros Hin [Hd Hn]. unfold read_keep_running, observable.
  pose proof (deliver_all_flag (env_signals env (clock st)) st) as Hf.
  destruct (deliver_all (env_signals env (clock st)) st) as [[] st1|s st1|st1] eqn:E;
    try discriminate.
  simpl in *. intros [= Hk _].
  destruct (Nat.lt_ge_cases (clock st) n) as [Hlt|Hge]; [assumption|].
  destruct (Nat.eq_dec n (clock st)) as [->|Hne].
  - rewrite (deliver_all_stops sig _ st tt st1 Hin Hd E) in Hk. discriminate.
  - rewrite Hf in Hk; [discriminate|]. apply Hn. lia.
Qed.

Lemma will_stop_dcpspi_process env sig n h t rl :
  In sig (env_signals env n) ->
  preserves (will_stop sig n) (dcpspi_process env h t rl).
Proof. intros Hin. unfold dcpspi_process. now apply will_stop_stable. Qed.

(** With enough fuel the loop is left once the signal has arrived. *)
Lemma main_loop_while_terminates env sig n h :
  In sig (env_signals env n) ->
  forall fuel t rl st,
    will_stop sig n st -> (1 <= fuel)%nat -> (n < clock st + fuel)%nat ->
    forall st', main_loop_while env fuel h t rl st <> OutOfFuel st'.
Proof.
  intros Hin. induction fuel as [|fuel IH]; intros t rl st HJ H1 Hn st'; [lia|].
  simpl. unfold bind at 1.
  pose proof (will_stop_stable env sig n Hin bool
                (fun st => (keep_running st, ev_read_keep_running (keep_running st)))
                st HJ) as HJ1.
  fold (read_keep_running env) in HJ1.
  destruct (read_keep_running env st) as [b st1|s st1|st1] eqn:Eread;
    try discriminate.
  - simpl in HJ1. destruct b; [|discriminate].
    pose proof (read_true_before env sig n st st1 Hin HJ Eread) as Hlt.
    assert (Hc1 : clock st1 = S (clock st)).
    { unfold read_keep_running in Eread.
      destruct (observable_cases env (fun st => st)
                  (fun st => (keep_running st,
                              ev_read_keep_running (keep_running st))) st)
        as [(st0 & _ & Ht & E')|(s & st0 & E' & _)];
        rewrite Eread in E'; [|discriminate].
      injection E' as _ ->. rewrite clock_log. f_equal.
      now apply clock_trace. }
    unfold bind at 1.
    pose proof (will_stop_dcpspi_process env sig n h t rl Hin st1 HJ1) as HJ2.
    assert (Hc2 : forall r st2,
               dcpspi_process env h t rl st1 = Done r st2 ->
               clock st2 = S (clock st1)).
    { intros r st2. unfold dcpspi_process.
      match goal with |- observable env ?u ?o st1 = _ -> _ =>
        destruct (observable_cases env u o st1)
          as [(st0 & _ & Ht & ->)|(s & st0 & -> & _)]; [|discriminate]
      end.
      intros [= _ <-]. rewrite clock_log. f_equal. now apply clock_trace. }
    destruct (dcpspi_process env h t rl st1) as [r st2|s st2|st2] eqn:Estep;
      try discriminate.
    + simpl in HJ2. specialize (Hc2 r st2 eq_refl).
      destruct (fst (fst r)); [|discriminate].
      apply IH; [assumption|lia|lia].
    + exfalso. unfold dcpspi_process in Estep.
      match type of Estep with observable env ?u ?o st1 = _ =>
        destruct (observable_cases env u o st1)
          as [(st0 & _ & _ & E')|(s & st0 & E' & _)]
      end; rewrite Estep in E'; discriminate.
  - exfalso. unfold read_keep_running in Eread.
    match type of Eread with observable env ?u ?o st = _ =>
      destruct (observable_cases env u o st)
        as [(st0 & _ & _ & E')|(s & st0 & E' & _)]
    end; rewrite Eread in E'; discriminate.
Qed.

Lemma straight_no_fuel {A} env (m : M A) a l st st' :
  straight env m a l -> m st <> OutOfFuel st'.
Proof. intros H E. specialize (H st). now rewrite E in H. Qed.

(** Sequencing does not run out of fuel when neither part does. *)
Lemma bind_terminates (J : process -> Prop) {A B} (m : M A) (k : A -> M B) st :
  J st -> preserves J m ->
  (forall st', m st <> OutOfFuel st') ->
  (forall a st1, J st1 -> forall st', k a st1 <> OutOfFuel st') ->
  forall st', bind m k st <> OutOfFuel st'.
Proof.
  intros HJ Hm Hfuel Hk st'. unfold bind. specialize (Hm st HJ).
  destruct (m st) as [a st1|sig st1|st1] eqn:E; simpl in Hm.
  - now apply Hk.
  - discriminate.
  - now elim (Hfuel st1).
Qed.

Lemma main_loop_terminates env sig n fuel h st :
  In sig (env_signals env n) -> will_stop sig n st -> (n < fuel)%nat ->
  forall st', main_loop env fuel h st <> OutOfFuel st'.
Proof.
  intros Hin HJ Hn. unfold main_loop. cbv zeta.
  pose proof (will_stop_stable env sig n Hin) as Hst.
  apply (bind_terminates (will_stop sig n)); [assumption|stable_prim Hst| |].
  { intros st'. apply (straight_no_fuel env _ _ _ _ _ (straight_call env _ _)). }
  intros _ st1 HJ1.
  apply (bind_terminates (will_stop sig n)); [assumption|stable_prim Hst| |].
  { intros st'. apply (straight_no_fuel env _ _ _ _ _ (straight_call env _ _)). }
  intros t st2 HJ2.
  apply (bind_terminates (will_stop sig n)); [assumption| | |].
  { destruct (gpio h); [stable_prim Hst|apply preserves_ret]. }
  { intros st'. destruct (gpio h).
    - apply (straight_no_fuel env _ _ _ _ _ (straight_call env _ _)).
    - discriminate. }
  intros gpio_fd st3 HJ3.
  apply (bind_terminates (will_stop sig n)); [assumption| | |].
  { destruct (gpio h); [stable_prim Hst|apply preserves_ret]. }
  { intros st'. destruct (gpio h).
    - apply (straight_no_fuel env _ _ _ _ _ (straight_call env _ _)).
    - discriminate. }
  intros active st4 HJ4.
  apply (main_loop_while_terminates env sig n h Hin); [assumption|lia|lia].
Qed.


(** ** Exit status *)




(** ** Options without effect in dummy mode *)

Lemma same_but_refl p : same_but_clock_and_debounce p p.
Proof. repeat split. Qed.

Ltac same_but :=
  match goal with
  | H : same_but_clock_and_debounce _ _ |- same_but_clock_and_debounce _ _ =>
      destruct H as (? & ? & ? & ? & ? & ?); repeat split; simpl; congruence
  end.

Lemma scan_same_but U :
  forall n args, (List.length args <= n)%nat ->
  forall e p p',
    same_but_clock_and_debounce p p' ->
    fst (scan_arguments U args e p) = fst (scan_arguments U args e p') /\
    same_but_clock_and_debounce (snd (scan_arguments U args e p))
      (snd (scan_arguments U args e p')).
Proof.
  induction n as [|n IH]; intros args Hn e p p' Hs.
  - destruct args; [|simpl in Hn; lia]. simpl. auto.
  - destruct args as [|a args]; [simpl; auto|].
    simpl in Hn. simpl. strcmp_cases; simpl; auto;
      try (apply IH; [lia|same_but]);
      (destruct args as [|v args]; [simpl; auto|]);
      simpl in Hn;
      try match goal with
          | |- context [invalid_number ?U ?m ?r] =>
              destruct (invalid_number U m r); [simpl; auto|]
          end;
      apply IH; try lia; same_but.
Qed.

(** In dummy mode [main] does the same whatever the SPI clock and the
    debouncing are set to. *)
Lemma main_same_but env fuel argv argv' p p' st :
  process_command_line (env_ULONG_MAX env) argv = (0, p) ->
  process_command_line (env_ULONG_MAX env) argv' = (0, p') ->
  same_but_clock_and_debounce p p' -> dummy_mode p = true ->
  main env fuel argv st = main env fuel argv' st.
Proof.
  intros Hp Hp' (H1 & H2 & H3 & H4 & H5 & H6) Hd. unfold main.
  rewrite Hp, Hp'. rewrite Hd in H6.
  destruct p as [a1 a2 a3 a4 a5 a6 a7 a8], p' as [b1 b2 b3 b4 b5 b6 b7 b8].
  simpl in *. subst. unfold setup, shutdown. simpl. reflexivity.
Qed.

(** C9, as the code has it.  [--debounce], or [--spiclk] with a value
    the scan accepts, put
    into a command line where an option is expected ([pre] is what the
    scan has run through), changes neither whether the command line is
    accepted nor any parameter but the SPI clock and the debouncing; and
    when the command line selects dummy mode the run with the option is
    the run without it: same actions, same results, same exit status.
    [setup] returns before it comes to the two calls that use these
    parameters. *)
Theorem spiclk_and_debounce_idle_in_dummy_mode :
  forall env fuel prog pre post p1 ins,
    scanned (env_ULONG_MAX env) pre p1 ->
    (ins = ["--debounce"] \/
     exists v,
       ins = ["--spiclk"; v] /\
       invalid_number (env_ULONG_MAX env) UINT32_MAX
         (strtoul (env_ULONG_MAX env) 0 v) = false) ->
    let with_option :=
      process_command_line (env_ULONG_MAX env) (prog :: pre ++ ins ++ post) in
    let without :=
      process_command_line (env_ULONG_MAX env) (prog :: pre ++ post) in
    fst with_option = fst without /\
    same_but_clock_and_debounce (snd with_option) (snd without) /\
    (fst without = 0 -> dummy_mode (snd without) = true ->
     run env fuel (prog :: pre ++ ins ++ post) = run env fuel (prog :: pre ++ post)).
Proof.
  intros env fuel prog pre post p1 ins Hpre Hins with_option without.
  set (U := env_ULONG_MAX env) in *.
  assert (Hscan : exists p1',
             scan_arguments U (ins ++ post) 0 p1 = scan_arguments U post 0 p1' /\
             same_but_clock_and_debounce p1' p1).
  { destruct Hins as [->|(v & -> & Hv)].
    - exists (set_gpio_needs_debouncing true p1). split; [reflexivity|].
      repeat split.
    - exists (set_spi_clock (fst (fst (strtoul U 0 v)) mod (UINT32_MAX + 1)) p1).
      split; [|repeat split].
      cbn [app scan_arguments]. simpl strcmp_eq. cbv iota.
      rewrite Hv. now rewrite (strtoul_errno _ _ _ _ Hv). }
  destruct Hscan as (p1' & Hscan & Hsame).
  assert (Hboth : fst with_option = fst without /\
                  same_but_clock_and_debounce (snd with_option) (snd without)).
  { unfold with_option, without.
    rewrite (process_command_line_app U prog pre (ins ++ post) p1 Hpre).
    rewrite (process_command_line_app U prog pre post p1 Hpre).
    rewrite Hscan.
    destruct (scan_same_but U _ post (le_n _) 0 p1' p1 Hsame) as [Hf Hs].
    destruct (scan_arguments U post 0 p1') as [[r|] q'],
             (scan_arguments U post 0 p1) as [[r0|] q]; simpl in Hf, Hs;
      try discriminate Hf.
    - injection Hf as <-. simpl. auto.
    - destruct Hs as (H1 & H2 & H3 & H4 & H5 & H6). rewrite H3.
      destruct (Ascii.eqb (char_at (spidev_name q) 0) "-"
                && Ascii.eqb (char_at (spidev_name q) 1) NUL); simpl;
        repeat split; assumption. }
  destruct Hboth as [Hfst Hsnd]. split; [exact Hfst|]. split; [exact Hsnd|].
  intros H0 Hd. unfold run.
  apply (main_same_but env fuel _ _ (snd with_option) (snd without)).
  - fold U. fold with_option. rewrite <- H0, <- Hfst. now destruct with_option.
  - fold U. fold without. rewrite <- H0. now destruct without.
  - exact Hsnd.
  - destruct Hsnd as (_ & _ & _ & _ & _ & H6). now rewrite H6.
Qed.

(** C9 as it is stated does not hold of every command line that contains
    [--spidev -]: a later [--spidev] takes the process out of dummy mode,
    and then [--spiclk] and [--debounce] change what [setup] does; and a
    value of [--spiclk] that is no number makes the process exit with
    status 1 where it would have run without the option. *)
Lemma sentinel_on_the_command_line_is_not_dummy_mode :
  (let base := ["dcpspi"; "--fg"; "--spidev"; "-"; "--spidev"; "/dev/spidev1.0"] in
   let more := base ++ ["--spiclk"; "900000"; "--debounce"] in
   filter (fun e => match e with
                    | ev_spi_set_speed_hz _ | ev_gpio_enable_debouncing _ => true
                    | _ => false
                    end)
     (trace (final_state (run Demo.one_step 3 base)))
   = [ev_spi_set_speed_hz 0] /\
   filter (fun e => match e with
                    | ev_spi_set_speed_hz _ | ev_gpio_enable_debouncing _ => true
                    | _ => false
                    end)
     (trace (final_state (run Demo.one_step 3 more)))
   = [ev_gpio_enable_debouncing (Some 4); ev_spi_set_speed_hz 900000]) /\
  (exit_status (run Demo.one_step 3 ["dcpspi"; "--fg"; "--spidev"; "-"])
   = Some EXIT_SUCCESS /\
   exit_status
     (run Demo.one_step 3 ["dcpspi"; "--fg"; "--spidev"; "-"; "--spiclk"; "12kHz"])
   = Some EXIT_FAILURE).
Proof.
  split; split; vm_compute; reflexivity.
Qed.

(** ** The second delivery of a signal *)

Lemma resets_budget sig st :
  resets sig st -> budget sig st = 0%nat -> disposition_of sig st = SIG_DFL.
Proof. unfold budget. intros [H|H]; rewrite H; [discriminate|reflexivity]. Qed.

Lemma deliver_budget sig s st st1 :
  deliver s st = Some st1 -> resets sig st ->
  resets sig st1 /\
  ((if signum_eq_dec s sig then 1 else 0) + budget sig st1 = budget sig st)%nat.
Proof.
  intros E Hr. pose proof (deliver_spec s st) as H.
  destruct (signum_eq_dec s sig) as [->|Hne].
  - destruct Hr as [Hr|Hr]; rewrite Hr in H; rewrite H in E; [|discriminate].
    rewrite action_resets in E. injection E as <-.
    unfold resets, budget. rewrite Hr.
    destruct sig; simpl; auto.
  - assert (Hsame : disposition_of sig st1 = disposition_of sig st).
    { destruct (disposition_of s st) as [| |act]; rewrite H in E;
        try discriminate; injection E as <-; [reflexivity|].
      destruct (Z.land (sa_flags act) SA_RESETHAND =? 0);
        destruct sig, s; try reflexivity; now elim Hne. }
    unfold resets, budget. rewrite Hsame. auto.
Qed.

Lemma deliver_all_budget sig sigs :
  forall st,
    resets sig st ->
    resets sig (final_state (deliver_all sigs st)) /\
    (budget sig (final_state (deliver_all sigs st)) <= budget sig st)%nat /\
    forall u st1,
      deliver_all sigs st = Done u st1 ->
      (count_occ signum_eq_dec sigs sig + budget sig st1 = budget sig st)%nat.
Proof.
  induction sigs as [|s more IH]; intros st Hr; simpl.
  - split; [assumption|]. split; [lia|]. intros u st1 [= _ <-]. reflexivity.
  - destruct (deliver s st) as [st0|] eqn:E.
    + destruct (deliver_budget sig s st st0 E Hr) as [Hr0 Hb].
      destruct (IH st0 Hr0) as (Hr1 & Hle & Hdone).
      split; [assumption|]. split.
      * destruct (signum_eq_dec s sig); lia.
      * intros u st1 Hall. specialize (Hdone u st1 Hall).
        destruct (signum_eq_dec s sig); lia.
    + simpl. split; [assumption|]. split; [lia|]. discriminate.
Qed.

Lemma second_kills_observable {A} env sig n1 n2 upd (obs : process -> A * event) :
  two_arrivals env sig n1 n2 ->
  (forall st, trace (upd st) = trace st) ->
  (forall st, disposition_of sig (upd st) = disposition_of sig st) ->
  preserves (second_kills sig n1 n2) (observable env upd obs).
Proof.
  intros [Hin1 Htwo] Hut Hud st (Hr & Hdfl & Hclk).
  unfold observable, second_kills.
  pose proof (deliver_all_trace (env_signals env (clock st)) st) as Ht.
  destruct (deliver_all_budget sig (env_signals env (clock st)) st Hr)
    as (Hr1 & Hle & Hdone).
  assert (Hlate : (n1 < clock st)%nat -> budget sig st = 0%nat)
    by (intros H; unfold budget; now rewrite (Hdfl H)).
  destruct (deliver_all (env_signals env (clock st)) st) as [[] st1|s st1|st1];
    simpl in *.
  - specialize (Hdone tt st1 eq_refl).
    assert (Hc : clock (log (snd (obs st1)) (upd st1)) = S (clock st))
      by (rewrite clock_log, (clock_trace st1 (upd st1)), (clock_trace st st1);
          auto).
    fold (clock (log (snd (obs st1)) (upd st1))). rewrite Hc.
    assert (Hb : (budget sig st <= 1)%nat)
      by (unfold budget; destruct (disposition_of sig st); lia).
    assert (Hcount : forall n, In sig (env_signals env n) ->
                               (1 <= count_occ signum_eq_dec (env_signals env n) sig)%nat)
      by (intros n H; apply (count_occ_In signum_eq_dec) in H; lia).
    assert (Hlt : (clock st < n2)%nat).
    { destruct (Nat.eq_dec (clock st) n2) as [Heq|Hne]; [exfalso|lia].
      destruct Htwo as [[Hlt Hin2]|[-> H2]].
      - specialize (Hcount _ Hin2). rewrite <- Heq in Hcount.
        specialize (Hlate ltac:(lia)). lia.
      - rewrite <- Heq in H2. lia. }
    split; [|split; [|lia]].
    + unfold resets in *. destruct sig; simpl; rewrite <- (Hud st1) in Hr1;
        exact Hr1.
    + intros Hn1.
      assert (Hd1 : disposition_of sig st1 = SIG_DFL).
      { apply resets_budget; [assumption|].
        destruct (Nat.eq_dec n1 (clock st)) as [Heq|Hne].
        - specialize (Hcount _ Hin1). rewrite Heq in Hcount. lia.
        - specialize (Hlate ltac:(lia)). lia. }
      destruct sig; simpl; rewrite <- (Hud st1) in Hd1; exact Hd1.
  - rewrite (clock_trace st st1) by assumption.
    split; [assumption|]. split; [|assumption].
    intros Hn1. apply resets_budget; [assumption|].
    specialize (Hlate Hn1). lia.
  - rewrite (clock_trace st st1) by assumption.
    split; [assumption|]. split; [|assumption].
    intros Hn1. apply resets_budget; [assumption|].
    specialize (Hlate Hn1). lia.
Qed.

Lemma second_kills_stable env sig n1 n2 :
  two_arrivals env sig n1 n2 -> stable env (second_kills sig n1 n2).
Proof. intros H A obs. apply second_kills_observable; auto. Qed.

(** What [sigaction] leaves when it returns. *)
Lemma sigaction_Done env sig act st a st' :
  sigaction env sig act st = Done a st' ->
  disposition_of sig st' = SIG_ACTION act /\ clock st' = S (clock st).
Proof.
  unfold sigaction.
  match goal with |- observable env ?u ?o st = _ -> _ =>
    destruct (observable_cases env u o st)
      as [(st1 & _ & Ht & ->)|(s & st1 & -> & _)]; [|discriminate]
  end.
  intros [= _ <-]. split.
  - destruct sig; reflexivity.
  - rewrite clock_log. f_equal. unfold clock.
    destruct sig; simpl; now rewrite Ht.
Qed.

Lemma sigaction_Killed env sig act st s st' :
  sigaction env sig act st = Killed s st' -> clock st' = clock st.
Proof.
  intros E. apply observable_killed in E as (_ & Ht & _).
  now apply clock_trace.
Qed.

Lemma second_kills_rest env fuel p h sig n1 n2 :
  two_arrivals env sig n1 n2 ->
  preserves (second_kills sig n1 n2)
    (main_loop env fuel h ;; shutdown env p h).
Proof.
  intros Htwo. pose proof (second_kills_stable env sig n1 n2 Htwo) as Hst.
  apply preserves_bind; [now apply stable_main_loop|intros _].
  now apply stable_shutdown.
Qed.

Lemma two_arrivals_le env sig n1 n2 :
  two_arrivals env sig n1 n2 -> (n1 <= n2)%nat.
Proof. intros [_ [[H _]|[H _]]]; lia. Qed.

(** After the handler of [sig] has been installed, the process does not
    get past the second arrival of [sig]. *)
Lemma run_second_arrival env fuel argv p h ls sig n1 n2 :
  process_command_line (env_ULONG_MAX env) argv = (0, p) ->
  straight env (setup env p (env_indeterminate env)) (0, h) ls ->
  (List.length ls + match sig with SIGINT => 1 | SIGTERM => 2 end <= n1)%nat ->
  two_arrivals env sig n1 n2 ->
  (clock (final_state (run env fuel argv)) <= n2)%nat.
Proof.
  intros Hp Hs Hinst Htwo. pose proof (two_arrivals_le _ _ _ _ Htwo) as Hle.
  unfold run, main. rewrite Hp. simpl.
  unfold bind at 1. pose proof (Hs (initial_process env)) as Hsetup.
  destruct (setup env p (env_indeterminate env) (initial_process env))
    as [a st1|s st1|st1]; [| |contradiction].
  2:{ destruct Hsetup as (_ & _ & done & rest & -> & Ht). simpl in *.
      unfold clock. rewrite Ht. rewrite length_app in Hinst.
      destruct sig; lia. }
  destruct Hsetup as (-> & Ht1 & _). simpl in Ht1. cbn [Z.ltb Z.compare].
  assert (Hc1 : clock st1 = List.length ls) by (unfold clock; now rewrite Ht1).
  unfold bind at 1.
  destruct (sigaction env SIGINT action st1) as [a st2|s st2|st2] eqn:E2.
  2:{ simpl. rewrite (sigaction_Killed _ _ _ _ _ _ E2). destruct sig; lia. }
  2:{ now elim (straight_no_fuel env _ _ _ st1 st2
                  (straight_sigaction env SIGINT action)). }
  destruct (sigaction_Done _ _ _ _ _ _ E2) as [Hd2 Hc2].
  destruct sig.
  - assert (HJ : second_kills SIGINT n1 n2 st2).
    { split; [now left|]. split; [|lia]. intros H. lia. }
    assert (Hrest : preserves (second_kills SIGINT n1 n2)
                      (sigaction env SIGTERM action ;;
                       main_loop env fuel h ;; shutdown env p h)).
    { apply preserves_bind; [|intros _; now apply second_kills_rest].
      apply second_kills_observable; [assumption| |]; intros st; reflexivity. }
    apply (Hrest st2 HJ).
  - unfold bind at 1.
    destruct (sigaction env SIGTERM action st2) as [a' st3|s st3|st3] eqn:E3.
    2:{ simpl. rewrite (sigaction_Killed _ _ _ _ _ _ E3). lia. }
    2:{ now elim (straight_no_fuel env _ _ _ st2 st3
                    (straight_sigaction env SIGTERM action)). }
    destruct (sigaction_Done _ _ _ _ _ _ E3) as [Hd3 Hc3].
    assert (HJ : second_kills SIGTERM n1 n2 st3).
    { split; [now left|]. split; [|lia]. intros H. lia. }
    apply (second_kills_rest env fuel p h SIGTERM n1 n2 Htwo st3 HJ).
Qed.

Lemma sigaction_quiet env sig act st :
  env_signals env (clock st) = [] ->
  sigaction env sig act st
  = Done 0 (log (ev_sigaction sig act) (set_disposition sig (SIG_ACTION act) st)).
Proof. intros H. unfold sigaction. now rewrite observable_quiet. Qed.

(** After a successful [setup], [main] installs [action] for SIGINT and
    then for SIGTERM, and enters the main loop with both installed. *)
Lemma run_installs_handlers env fuel argv p h ls :
  process_command_line (env_ULONG_MAX env) argv = (0, p) ->
  straight env (setup env p (env_indeterminate env)) (0, h) ls ->
  quiet env 0 (List.length ls + 2) ->
  exists st3,
    trace st3 = ls ++ [ev_sigaction SIGINT action; ev_sigaction SIGTERM action] /\
    (forall sig, disposition_of sig st3 = SIG_ACTION action) /\
    keep_running st3 = true /\
    run env fuel argv = (main_loop env fuel h ;; shutdown env p h) st3.
Proof.
  intros Hp Hs Hq.
  remember (run env fuel argv) as outcome eqn:Erun.
  unfold run, main in Erun. rewrite Hp in Erun. simpl in Erun.
  unfold bind at 1 in Erun. pose proof (Hs (initial_process env)) as Hsetup.
  destruct (setup env p (env_indeterminate env) (initial_process env))
    as [a st1|s st1|st1]; [| |contradiction].
  2:{ destruct Hsetup as (_ & Hnq & _). elim Hnq.
      intros k Hk. apply Hq.
      change (clock (initial_process env)) with 0%nat in Hk. lia. }
  destruct Hsetup as (-> & Ht1 & Hk1). simpl in Ht1.
  cbn [Z.ltb Z.compare] in Erun.
  assert (Hc1 : clock st1 = List.length ls) by (unfold clock; now rewrite Ht1).
  unfold bind at 1 in Erun. rewrite sigaction_quiet in Erun by (apply Hq; lia).
  unfold bind at 1 in Erun. rewrite sigaction_quiet in Erun
    by (apply Hq; rewrite clock_log; unfold clock in *; simpl; lia).
  match type of Erun with _ = _ ?s => exists s end.
  split; [|split; [|split; [|exact Erun]]].
  - simpl. rewrite Ht1, <- app_assoc. reflexivity.
  - intros [|]; reflexivity.
  - simpl. apply Hk1. intros k Hk. apply Hq.
    change (clock (initial_process env)) with 0%nat in Hk. lia.
Qed.

(** C8.  Both handlers are installed with [SA_RESETHAND]: the first
    delivery of a signal runs [signal_handler], which clears the flag, and
    leaves the disposition of this signal, and of this signal only, at the
    default action, so that the next delivery of the same signal
    terminates the process.  In a run, once the handler of a signal is
    installed, the process performs no action at or after the second
    arrival of this signal: what it had not done by then, the rest of the
    loop, the shutdown, the release of what [setup] had opened, is not
    done.  [main] installs the handlers: in a run in which [setup]
    succeeds the two calls of [sigaction], for SIGINT and for SIGTERM and
    both with [action], follow the actions of [setup], and the main loop
    is entered with the disposition of both signals at [action]. *)
Theorem second_delivery_terminates :
  (Z.land (sa_flags action) SA_RESETHAND = SA_RESETHAND /\
   sa_sigaction action = the_signal_handler) /\
  (forall env sig st a st',
      sigaction env sig action st = Done a st' ->
      disposition_of sig st' = SIG_ACTION action) /\
  (forall sig st,
      disposition_of sig st = SIG_ACTION action ->
      exists st1,
        deliver sig st = Some st1 /\
        keep_running st1 = false /\
        disposition_of sig st1 = SIG_DFL /\
        trace st1 = trace st /\
        (forall other, other <> sig ->
                       disposition_of other st1 = disposition_of other st) /\
        deliver sig st1 = None) /\
  (forall env fuel argv p h ls sig n1 n2,
      process_command_line (env_ULONG_MAX env) argv = (0, p) ->
      straight env (setup env p (env_indeterminate env)) (0, h) ls ->
      (List.length ls + match sig with SIGINT => 1 | SIGTERM => 2 end <= n1)%nat ->
      two_arrivals env sig n1 n2 ->
      (clock (final_state (run env fuel argv)) <= n2)%nat) /\
  (forall env fuel argv p h ls,
      process_command_line (env_ULONG_MAX env) argv = (0, p) ->
      straight env (setup env p (env_indeterminate env)) (0, h) ls ->
      match run env fuel argv with
      | Killed _ _ => True
      | Done _ st | OutOfFuel st =>
          exists rest,
            trace st = ls ++ [ev_sigaction SIGINT action;
                              ev_sigaction SIGTERM action] ++ rest
      end /\
      (quiet env 0 (List.length ls + 2) ->
       exists st3,
         trace st3 = ls ++ [ev_sigaction SIGINT action;
                            ev_sigaction SIGTERM action] /\
         (forall sig, disposition_of sig st3 = SIG_ACTION action) /\
         keep_running st3 = true /\
         run env fuel argv = (main_loop env fuel h ;; shutdown env p h) st3)).
Proof.
  split; [split; reflexivity|]. split; [|split; [|split]].
  - intros env sig st a st' E. now apply sigaction_Done in E.
  - intros sig st Hd. pose proof (deliver_spec sig st) as H.
    rewrite Hd, action_resets in H.
    exists (set_keep_running false (set_disposition sig SIG_DFL st)).
    split; [exact H|]. split; [reflexivity|].
    split; [destruct sig; reflexivity|]. split; [destruct sig; reflexivity|].
    split.
    + intros other Hne. destruct other, sig; try reflexivity; now elim Hne.
    + apply deliver_none. destruct sig; reflexivity.
  - exact run_second_arrival.
  - intros env fuel argv p h ls Hp Hs. split.
    + pose proof (run_after_setup env fuel argv p h ls Hp Hs) as H.
      cbv zeta in H. unfold install_handlers in H.
      destruct (run env fuel argv) as [code st|sig st|st]; [|exact I|].
      * destruct H as (_ & l & _ & Ht). rewrite Ht. eexists. reflexivity.
      * destruct H as (l & _ & Ht). rewrite Ht. eexists. reflexivity.
    + exact (run_installs_handlers env fuel argv p h ls Hp Hs).
Qed.

(** * The theorems at concrete runs *)

Lemma run_loop_checks_flag_between_steps_witness :
  let env := Demo.board Demo.ULONG_MAX_64 (Demo.at_time 17 [SIGTERM])
               Demo.always_continue in
  let h := mk_handles 3 4 5 (Some 4) in
  let rl := mk_rldata (Some 4) 6 true false in
  let st := final_state (run env 20 ["dcpspi"; "--fg"]) in
  (keep_running st = false /\
   exists n sig, (n <= clock st)%nat /\ In sig (env_signals env n)) /\
  (let entered :=
     {| keep_running := true;
        on_SIGINT := SIG_ACTION action;
        on_SIGTERM := SIG_ACTION action;
        trace := firstn 13 (trace st) |} in
   exists l,
     loop_trace env h 13 initial_transaction rl true l /\
     l = [ev_read_keep_running true; step_event h initial_transaction rl true;
          ev_read_keep_running true; step_event h initial_transaction rl true;
          ev_read_keep_running false] /\
     trace (final_state (main_loop_while env 20 h initial_transaction rl entered))
     = trace entered ++ l).
Proof.
  intros env h rl st. split.
  - assert (Hk : keep_running st = false) by (vm_compute; reflexivity).
    split; [exact Hk|].
    exact (proj2 (proj2 (proj2 (proj2 (proj2 run_loop_checks_flag_between_steps))))
             env 20%nat ["dcpspi"; "--fg"] Hk).
  - intros entered.
    pose proof (proj1 (proj2 run_loop_checks_flag_between_steps)
                  env 20%nat h initial_transaction rl entered) as H.
    assert (Hc : clock entered = 13%nat) by (vm_compute; reflexivity).
    rewrite Hc in H.
    assert (Et : trace (final_state
                          (main_loop_while env 20 h initial_transaction rl entered))
                 = trace entered
                     ++ [ev_read_keep_running true;
                         step_event h initial_transaction rl true;
                         ev_read_keep_running true;
                         step_event h initial_transaction rl true;
                         ev_read_keep_running false])
      by (vm_compute; reflexivity).
    assert (E : main_loop_while env 20 h initial_transaction rl entered
                = Done tt (final_state
                             (main_loop_while env 20 h initial_transaction rl
                                entered)))
      by (vm_compute; reflexivity).
    set (outcome := main_loop_while env 20 h initial_transaction rl entered) in *.
    clearbody outcome. rewrite E in H. cbv iota in H.
    destruct H as (l & Hl & Hshape). exists l.
    split; [exact Hshape|]. split; [|exact Hl].
    change (final_state (Done tt (final_state outcome)))
      with (final_state outcome) in Hl.
    rewrite Et in Hl. now apply app_inv_head in Hl.
Defined.


Lemma dummy_mode_runs_without_hardware_witness :
  process_command_line (env_ULONG_MAX Demo.plain) ["dcpspi"; "--spidev"; "-"]
  = (0, Demo.dummy) /\
  dummy_mode Demo.dummy = true /\
  straight Demo.plain (setup Demo.plain Demo.dummy (env_indeterminate Demo.plain))
    (0, mk_handles 3 4 (-1) NULL)
    [ev_msg_enable_syslog true; ev_openlog; ev_daemon 0; ev_log_version_info;
     ev_fifo_create_and_open "/tmp/dcp_to_spi" false 3;
     ev_fifo_create_and_open "/tmp/spi_to_dcp" true 4].
Proof.
  assert (Hp : process_command_line (env_ULONG_MAX Demo.plain)
                 ["dcpspi"; "--spidev"; "-"] = (0, Demo.dummy))
    by reflexivity.
  assert (Hd : daemon_ok Demo.plain Demo.dummy)
    by (right; simpl; lia).
  assert (Hin : 0 <= fd_in Demo.plain Demo.dummy) by (vm_compute; discriminate).
  assert (Hout : 0 <= fd_out Demo.plain Demo.dummy) by (vm_compute; discriminate).
  split; [exact Hp|].
  pose proof (dummy_mode_runs_without_hardware Demo.plain 1%nat
                ["dcpspi"; "--spidev"; "-"] Demo.dummy Hp eq_refl Hd Hin Hout)
    as H.
  cbv zeta in H. destruct H as (H1 & H2 & _). split; [exact H1|exact H2].
Defined.

Lemma arena_capacities_are_fixed_witness :
  keeps_capacities Demo.one_step /\
  Forall static_capacities
    (trace (final_state (run Demo.one_step 3 ["dcpspi"; "--fg"]))) /\
  process_command_line (env_ULONG_MAX Demo.one_step) ["dcpspi"; "--fg"]
  = (0, Demo.foreground) /\
  exists rest,
    trace (final_state (run Demo.one_step 3 ["dcpspi"; "--fg"]))
    = [ev_msg_enable_syslog false; ev_log_version_info;
       ev_fifo_create_and_open "/tmp/dcp_to_spi" false 3;
       ev_fifo_create_and_open "/tmp/spi_to_dcp" true 4;
       ev_spi_open_device "/dev/spidev0.0" 5; ev_gpio_open 4 (Some 4);
       ev_spi_set_speed_hz 0]
      ++ install_handlers
      ++ [ev_msg_info "Accepting traffic";
          ev_reset_transaction_struct initial_transaction]
      ++ rest.
Proof.
  assert (Hkeep : keeps_capacities Demo.one_step)
    by (split; intros; reflexivity).
  assert (Hp : process_command_line (env_ULONG_MAX Demo.one_step)
                 ["dcpspi"; "--fg"] = (0, Demo.foreground))
    by reflexivity.
  assert (Hs : straight Demo.one_step
                 (setup Demo.one_step Demo.foreground
                    (env_indeterminate Demo.one_step))
                 (0, mk_handles 3 4 5 (Some 4))
                 [ev_msg_enable_syslog false; ev_log_version_info;
                  ev_fifo_create_and_open "/tmp/dcp_to_spi" false 3;
                  ev_fifo_create_and_open "/tmp/spi_to_dcp" true 4;
                  ev_spi_open_device "/dev/spidev0.0" 5; ev_gpio_open 4 (Some 4);
                  ev_spi_set_speed_hz 0])
    by exact (setup_outcome_straight Demo.one_step Demo.foreground
                (env_indeterminate Demo.one_step)).
  assert (E : run Demo.one_step 3 ["dcpspi"; "--fg"]
              = Done EXIT_SUCCESS
                  (final_state (run Demo.one_step 3 ["dcpspi"; "--fg"])))
    by (vm_compute; reflexivity).
  split; [exact Hkeep|]. split.
  { exact (proj1 (proj2 (proj2 arena_capacities_are_fixed))
             Demo.one_step 3%nat ["dcpspi"; "--fg"] Hkeep). }
  split; [exact Hp|].
  destruct (proj1 (proj2 (proj2 (proj2 arena_capacities_are_fixed)))
              Demo.one_step 3%nat ["dcpspi"; "--fg"] Demo.foreground
              (mk_handles 3 4 5 (Some 4)) _ Hp Hs) as [H _].
  set (outcome := run Demo.one_step 3 ["dcpspi"; "--fg"]) in *.
  clearbody outcome. rewrite E in H. cbv iota in H.
  exact H.
Defined.

Lemma wire_format_constants_witness :
  0x0001 <= 0x1234 <= 0x7fff /\ is_slave_serial 0x1234 = true.
Proof.
  assert (H : 0x0001 <= 0x1234 <= 0x7fff) by lia.
  split; [exact H|].
  exact (proj2 (proj1 (proj2 (proj2 wire_format_constants)) 0x1234) H).
Defined.



Lemma second_delivery_terminates_witness :
  two_arrivals Demo.terminated_twice SIGTERM 12 12 /\
  (clock (final_state (run Demo.terminated_twice 20 ["dcpspi"; "--fg"])) <= 12)%nat /\
  run Demo.terminated_twice 20 ["dcpspi"; "--fg"]
  = Killed SIGTERM (final_state (run Demo.terminated_twice 20 ["dcpspi"; "--fg"])) /\
  nth_error (trace (final_state (run Demo.terminated_twice 20 ["dcpspi"; "--fg"]))) 8
  = Some (ev_sigaction SIGTERM action).
Proof.
  assert (Htwo : two_arrivals Demo.terminated_twice SIGTERM 12 12).
  { split; [vm_compute; tauto|]. right. split; [reflexivity|].
    vm_compute. lia. }
  split; [exact Htwo|]. split.
  - refine (proj1 (proj2 (proj2 (proj2 second_delivery_terminates)))
              Demo.terminated_twice 20%nat ["dcpspi"; "--fg"] Demo.foreground
              _ _ SIGTERM 12%nat 12%nat eq_refl
              (setup_outcome_straight Demo.terminated_twice Demo.foreground
                 (env_indeterminate Demo.terminated_twice))
              _ Htwo).
    vm_compute. lia.
  - split; vm_compute; reflexivity.
Defined.

Lemma spiclk_and_debounce_idle_in_dummy_mode_witness :
  scanned (env_ULONG_MAX Demo.plain) ["--spidev"; "-"]
    (set_spidev_name "-" default_parameters) /\
  run Demo.plain 5 ["dcpspi"; "--spidev"; "-"; "--spiclk"; "900000"; "--fg"]
  = run Demo.plain 5 ["dcpspi"; "--spidev"; "-"; "--fg"].
Proof.
  assert (Hpre : scanned (env_ULONG_MAX Demo.plain) ["--spidev"; "-"]
                   (set_spidev_name "-" default_parameters))
    by reflexivity.
  split; [exact Hpre|].
  refine (proj2 (proj2 (spiclk_and_debounce_idle_in_dummy_mode Demo.plain 5%nat
                          "dcpspi" ["--spidev"; "-"] ["--fg"]
                          (set_spidev_name "-" default_parameters)
                          ["--spiclk"; "900000"] Hpre _)) _ _).
  - right. exists "900000". split; reflexivity.
  - reflexivity.
  - reflexivity.
Defined.



(** ** Runs of the demonstration boards *)

(** One SIGTERM while the loop runs: the flag is found cleared at the
    next evaluation, the loop is left, everything is closed, the exit
    status is 0. *)
Example one_signal_shuts_down :
  exit_status (run Demo.terminated 20 ["dcpspi"; "--fg"]) = Some EXIT_SUCCESS /\
  filter opens_or_closes
    (trace (final_state (run Demo.terminated 20 ["dcpspi"; "--fg"])))
  = [ev_fifo_create_and_open "/tmp/dcp_to_spi" false 3;
     ev_fifo_create_and_open "/tmp/spi_to_dcp" true 4;
     ev_spi_open_device "/dev/spidev0.0" 5;
     ev_gpio_open 4 (Some 4);
     ev_spi_close_device 5;
     ev_fifo_close_and_delete 3 "/tmp/dcp_to_spi";
     ev_fifo_close_and_delete 4 "/tmp/spi_to_dcp";
     ev_gpio_close (Some 4)].
Proof. split; vm_compute; reflexivity. Qed.

(** Two SIGTERM while the loop runs: the process is terminated by the
    second one with everything still open. *)
Example two_signals_terminate :
  exists st,
    run Demo.terminated_twice 20 ["dcpspi"; "--fg"] = Killed SIGTERM st /\
    keep_running st = false /\
    filter opens_or_closes (trace st)
    = [ev_fifo_create_and_open "/tmp/dcp_to_spi" false 3;
       ev_fifo_create_and_open "/tmp/spi_to_dcp" true 4;
       ev_spi_open_device "/dev/spidev0.0" 5;
       ev_gpio_open 4 (Some 4)].
Proof. eexists. split; [vm_compute; reflexivity|]. split; reflexivity. Qed.

(** [strtoul] negates in [unsigned long]: where it has 32 bits [-1] is the
    largest [unsigned int] and passes the test of [--gpio]; where it has
    64 bits [-1] is above [UINT_MAX] and is rejected. *)
Example minus_one_by_platform :
  process_command_line Demo.ULONG_MAX_32 ["dcpspi"; "--gpio"; "-1"]
  = (0, set_gpio_num 4294967295 default_parameters) /\
  fst (process_command_line Demo.ULONG_MAX_64 ["dcpspi"; "--gpio"; "-1"]) = -1.
Proof. split; reflexivity. Qed.

(** * Further properties *)

(** ** The command line *)

Lemma process_command_line_codes U argv :
  fst (process_command_line U argv) = -1 \/
  fst (process_command_line U argv) = 0 \/
  fst (process_command_line U argv) = 1 \/
  fst (process_command_line U argv) = 2.
Proof.
  unfold process_command_line.
  destruct (scan_arguments U (tl argv) 0 default_parameters) as [[r|] p] eqn:E.
  - destruct (scan_codes U _ (tl argv) (le_n _) _ _ _ _ E) as [-> | [-> | ->]];
      simpl; auto.
  - destruct (Ascii.eqb (char_at (spidev_name p) 0) "-"
              && Ascii.eqb (char_at (spidev_name p) 1) NUL); simpl; auto.
Qed.

(** X1.  [process_command_line] returns -1, 0, 1 or 2 and nothing else,
    so that the four branches of [main] are all there is; a process that
    exits does so with status 0 or 1. *)
Theorem exit_status_is_zero_or_one :
  forall env fuel argv,
    (let r := fst (process_command_line (env_ULONG_MAX env) argv) in
     r = -1 \/ r = 0 \/ r = 1 \/ r = 2) /\
    (forall code st,
        run env fuel argv = Done code st ->
        code = EXIT_SUCCESS \/ code = EXIT_FAILURE).
Proof.
  intros env fuel argv. split; [apply process_command_line_codes|].
  intros code st Hrun.
  destruct (process_command_line (env_ULONG_MAX env) argv) as [r p] eqn:Hp.
  pose proof (process_command_line_codes (env_ULONG_MAX env) argv) as Hr.
  rewrite Hp in Hr. simpl in Hr. destruct Hr as [-> | [-> | [-> | ->]]].
  - rewrite (run_invalid env fuel argv p Hp) in Hrun.
    injection Hrun as <- _. now right.
  - destruct (run_outcome env fuel argv p Hp) as [[_ H]|[_ H]];
      rewrite Hrun in H.
    + right. apply H.
    + left. apply H.
  - pose proof (run_help env fuel argv p Hp) as H. rewrite Hrun in H.
    left. apply H.
  - pose proof (run_version env fuel argv p Hp) as H. rewrite Hrun in H.
    left. apply H.
Qed.

Lemma exit_status_is_zero_or_one_witness :
  run Demo.one_step 2 ["dcpspi"; "--fg"]
  = Done 0 (final_state (run Demo.one_step 2 ["dcpspi"; "--fg"])) /\
  (0 = EXIT_SUCCESS \/ 0 = EXIT_FAILURE).
Proof.
  assert (Hrun : run Demo.one_step 2 ["dcpspi"; "--fg"]
                 = Done 0 (final_state (run Demo.one_step 2 ["dcpspi"; "--fg"])))
    by (vm_compute; reflexivity).
  split; [exact Hrun|].
  exact (proj2 (exit_status_is_zero_or_one Demo.one_step 2%nat ["dcpspi"; "--fg"])
           0 _ Hrun).
Defined.

Lemma scan_keeps_flags U :
  forall n args, (List.length args <= n)%nat ->
  forall e p,
    (~ In "--fg" args ->
     run_in_foreground (snd (scan_arguments U args e p)) = run_in_foreground p) /\
    (~ In "--debounce" args ->
     gpio_needs_debouncing (snd (scan_arguments U args e p))
     = gpio_needs_debouncing p) /\
    dummy_mode (snd (scan_arguments U args e p)) = dummy_mode p.
Proof.
  induction n as [|n IH]; intros args Hn e p.
  - destruct args; [simpl; auto|simpl in Hn; lia].
  - destruct args as [|a args]; [simpl; auto|].
    simpl in Hn.
    assert (Hstep : forall args' e' p',
               (List.length args' <= n)%nat ->
               (forall o, In o args' -> In o (a :: args)) ->
               (strcmp_eq a "--fg" = false ->
                run_in_foreground p' = run_in_foreground p) ->
               (strcmp_eq a "--debounce" = false ->
                gpio_needs_debouncing p' = gpio_needs_debouncing p) ->
               dummy_mode p' = dummy_mode p ->
               (~ In "--fg" (a :: args) ->
                run_in_foreground (snd (scan_arguments U args' e' p'))
                = run_in_foreground p) /\
               (~ In "--debounce" (a :: args) ->
                gpio_needs_debouncing (snd (scan_arguments U args' e' p'))
                = gpio_needs_debouncing p) /\
               dummy_mode (snd (scan_arguments U args' e' p')) = dummy_mode p).
    { intros args' e' p' Hlen Hsub Hfg Hdb Hdm.
      destruct (IH args' Hlen e' p') as (H1 & H2 & H3).
      split; [|split].
      - intros Hno. rewrite H1 by (intros H; apply Hno; now apply Hsub).
        apply Hfg. destruct (strcmp_eq a "--fg") eqn:Ea; [|reflexivity].
        apply String.eqb_eq in Ea. subst a. elim Hno. now left.
      - intros Hno. rewrite H2 by (intros H; apply Hno; now apply Hsub).
        apply Hdb. destruct (strcmp_eq a "--debounce") eqn:Ea; [|reflexivity].
        apply String.eqb_eq in Ea. subst a. elim Hno. now left.
      - now rewrite H3. }
    simpl scan_arguments. strcmp_cases; simpl; auto;
      try (apply Hstep; [lia|intros o H; now right|..];
           (reflexivity || congruence));
      (destruct args as [|v args]; [simpl; auto|]);
      simpl in Hn;
      try match goal with
          | |- context [invalid_number ?U ?m ?r] =>
              destruct (invalid_number U m r); [simpl; auto|]
          end;
      (apply Hstep; [lia|intros o H; right; now right|..];
       (reflexivity || congruence)).
Qed.

(** X2.  What the command line does not mention keeps its default: the
    parameter of a value-taking option that does not occur, the
    foreground flag without [--fg], the debouncing without
    [--debounce]. *)
Theorem absent_option_keeps_default :
  forall U argv,
    (forall o,
        ~ In o (tl argv) ->
        option_field o (snd (process_command_line U argv))
        = option_field o default_parameters) /\
    (~ In "--fg" (tl argv) ->
     run_in_foreground (snd (process_command_line U argv)) = false) /\
    (~ In "--debounce" (tl argv) ->
     gpio_needs_debouncing (snd (process_command_line U argv)) = false).
Proof.
  intros U argv.
  pose proof (scan_keeps_flags U _ (tl argv) (le_n _) 0 default_parameters)
    as (Hfg & Hdb & _).
  unfold process_command_line.
  destruct (scan_arguments U (tl argv) 0 default_parameters) as [[r|] p] eqn:E;
    simpl in *.
  - split; [|split; assumption].
    intros o Ho.
    pose proof (scan_keeps_field U o _ (tl argv) (le_n _) Ho 0 default_parameters)
      as H.
    now rewrite E in H.
  - assert (Hfield : forall o, ~ In o (tl argv) ->
                               option_field o p = option_field o default_parameters).
    { intros o Ho.
      pose proof (scan_keeps_field U o _ (tl argv) (le_n _) Ho 0
                    default_parameters) as H.
      now rewrite E in H. }
    destruct (Ascii.eqb (char_at (spidev_name p) 0) "-"
              && Ascii.eqb (char_at (spidev_name p) 1) NUL); simpl;
      (split; [exact Hfield|split; assumption]).
Qed.

Lemma absent_option_keeps_default_witness :
  ~ In "--ififo" ["--fg"; "--gpio"; "17"] /\
  option_field "--ififo"
    (snd (process_command_line Demo.ULONG_MAX_64
            ["dcpspi"; "--fg"; "--gpio"; "17"]))
  = Some (inl "/tmp/dcp_to_spi").
Proof.
  assert (H : ~ In "--ififo" ["--fg"; "--gpio"; "17"]).
  { simpl. intros H. repeat (destruct H as [H|H]; [discriminate H|]). exact H. }
  split; [exact H|].
  exact (proj1 (absent_option_keeps_default Demo.ULONG_MAX_64
                  ["dcpspi"; "--fg"; "--gpio"; "17"]) "--ififo" H).
Defined.

Lemma sentinel_chars s :
  c_string s = true ->
  (Ascii.eqb (char_at s 0) "-" && Ascii.eqb (char_at s 1) NUL = true <-> s = "-").
Proof.
  intros Hs. split.
  - destruct s as [|c [|c' r]]; simpl; try discriminate.
    + rewrite andb_true_r. intros H. apply Ascii.eqb_eq in H. now subst c.
    + intros H. apply andb_true_iff in H as [_ H].
      simpl in Hs. rewrite H in Hs. simpl in Hs.
      rewrite andb_false_r in Hs. discriminate.
  - intros ->. reflexivity.
Qed.

(** X3.  Dummy mode is selected by the device name "-" and by nothing
    else: on an accepted command line [dummy_mode] is set exactly when
    the last [--spidev] gave "-".  A name that only starts with "-" does
    not select it, and without [--spidev] the default device is used. *)
Theorem dummy_mode_only_by_sentinel :
  forall U argv p,
    process_command_line U argv = (0, p) ->
    c_string (spidev_name p) = true ->
    (dummy_mode p = true <-> spidev_name p = "-").
Proof.
  intros U argv p. unfold process_command_line.
  pose proof (scan_keeps_flags U _ (tl argv) (le_n _) 0 default_parameters)
    as (_ & _ & Hdm).
  destruct (scan_arguments U (tl argv) 0 default_parameters) as [[r|] p0] eqn:E.
  - intros [= -> ->].
    destruct (scan_codes U _ (tl argv) (le_n _) _ _ _ _ E) as [H|[H|H]];
      discriminate H.
  - simpl in Hdm.
    destruct (Ascii.eqb (char_at (spidev_name p0) 0) "-"
              && Ascii.eqb (char_at (spidev_name p0) 1) NUL) eqn:Hc;
      intros [= <-] Hs.
    + simpl. split; [intros _|reflexivity].
      now apply (sentinel_chars (spidev_name p0) Hs).
    + rewrite Hdm. simpl. split; [discriminate|].
      intros Hname. apply (sentinel_chars _ Hs) in Hname. congruence.
Qed.

Lemma dummy_mode_only_by_sentinel_witness :
  process_command_line Demo.ULONG_MAX_64 ["dcpspi"; "--spidev"; "-"; "--spidev"; "-x"]
  = (0, set_spidev_name "-x" default_parameters) /\
  (dummy_mode (set_spidev_name "-x" default_parameters) = true
   <-> spidev_name (set_spidev_name "-x" default_parameters) = "-").
Proof.
  assert (Hp : process_command_line Demo.ULONG_MAX_64
                 ["dcpspi"; "--spidev"; "-"; "--spidev"; "-x"]
               = (0, set_spidev_name "-x" default_parameters))
    by reflexivity.
  split; [exact Hp|].
  exact (dummy_mode_only_by_sentinel Demo.ULONG_MAX_64 _ _ Hp eq_refl).
Defined.

(** X4.  A value of [--spiclk] or [--gpio] that is a string of decimal
    digits is accepted exactly when it is at most 4294967295, and is then
    stored as it is: the conversion to the type of the parameter never
    truncates.  ([unsigned long] has at least 32 bits.) *)
Theorem decimal_value_accepted_iff_in_range :
  forall U pre p1 v n rest,
    UINT32_MAX <= U ->
    scanned U pre p1 ->
    decimal v = Some n ->
    scan_arguments U (pre ++ "--spiclk" :: v :: rest) 0 default_parameters
    = (if n <=? UINT32_MAX
       then scan_arguments U rest 0 (set_spi_clock n p1)
       else (Some (-1), p1)) /\
    scan_arguments U (pre ++ "--gpio" :: v :: rest) 0 default_parameters
    = (if n <=? UINT_MAX
       then scan_arguments U rest 0 (set_gpio_num n p1)
       else (Some (-1), p1)).
Proof.
  intros U pre p1 v n rest HU Hpre Hv.
  pose proof (decimal_nonneg _ _ Hv) as Hn.
  unfold scanned in Hpre.
  rewrite !(scan_app U _ pre (le_n _) _ 0 default_parameters p1 Hpre).
  cbn [scan_arguments]. simpl strcmp_eq. cbv iota.
  rewrite (decimal_strtoul U 0 v n Hv).
  unfold UINT_MAX, UINT32_MAX in *.
  destruct (n <=? 4294967295) eqn:Hle.
  - apply Z.leb_le in Hle.
    assert (HUn : (U <? n) = false) by (apply Z.ltb_ge; lia).
    rewrite HUn. unfold invalid_number. cbn [fst snd char_at].
    assert (Hmax : (4294967295 <? n) = false) by (apply Z.ltb_ge; lia).
    rewrite Hmax. simpl. rewrite andb_false_r. simpl.
    rewrite Z.mod_small by lia. split; reflexivity.
  - apply Z.leb_gt in Hle.
    destruct (U <? n) eqn:HUn; unfold invalid_number; cbn [fst snd char_at].
    + rewrite Z.eqb_refl. simpl. rewrite orb_true_r. split; reflexivity.
    + assert (Hmax : (4294967295 <? n) = true) by (apply Z.ltb_lt; lia).
      rewrite Hmax. simpl. split; reflexivity.
Qed.

Lemma decimal_value_accepted_iff_in_range_witness :
  UINT32_MAX <= Demo.ULONG_MAX_64 /\
  scanned Demo.ULONG_MAX_64 ["--fg"] Demo.foreground /\
  decimal "4294967295" = Some 4294967295 /\
  scan_arguments Demo.ULONG_MAX_64 (["--fg"] ++ ["--spiclk"; "4294967295"])
    0 default_parameters
  = (None, set_spi_clock 4294967295 Demo.foreground).
Proof.
  assert (HU : UINT32_MAX <= Demo.ULONG_MAX_64) by (vm_compute; discriminate).
  assert (Hpre : scanned Demo.ULONG_MAX_64 ["--fg"] Demo.foreground)
    by reflexivity.
  assert (Hv : decimal "4294967295" = Some 4294967295) by reflexivity.
  split; [exact HU|]. split; [exact Hpre|]. split; [exact Hv|].
  exact (proj1 (decimal_value_accepted_iff_in_range Demo.ULONG_MAX_64 ["--fg"]
                  Demo.foreground "4294967295" 4294967295 [] HU Hpre Hv)).
Defined.

Lemma scan_digits_app :
  forall d acc n t,
    decimal_digits acc d = Some n ->
    digit_value (char_at t 0) = None ->
    scan_digits acc (String.append d t) = (n, t).
Proof.
  induction d as [|c r IH]; intros acc n t; cbn [decimal_digits String.append].
  - intros [= ->] Ht. destruct t as [|c r]; [reflexivity|].
    cbn [char_at] in Ht. cbn [scan_digits]. now rewrite Ht.
  - cbn [scan_digits]. destruct (digit_value c); [apply IH|discriminate].
Qed.

Lemma strtoul_prefix U e d n t :
  decimal d = Some n ->
  digit_value (char_at t 0) = None ->
  strtoul U e (String.append d t)
  = if U <? n then (U, t, ERANGE) else (n, t, e).
Proof.
  destruct d as [|c r]; [discriminate|]. unfold decimal. intros H Ht.
  pose proof (scan_digits_app _ _ _ t H Ht) as Hscan.
  assert (exists x, digit_value c = Some x) as [x Hx]
    by (cbn [decimal_digits] in H; destruct (digit_value c); [eauto|discriminate]).
  destruct (digit_is_plain _ _ Hx) as (Hsp & Hminus & Hplus).
  unfold strtoul. cbn [String.append skip_spaces] in *. rewrite Hsp.
  assert (Hs1 : match String c (String.append r t) with
                | String "-"%char r0 => (true, r0)
                | String "+"%char r0 => (false, r0)
                | _ => (false, String c (String.append r t))
                end = (false, String c (String.append r t))).
  { destruct c as [[] [] [] [] [] [] [] []]; try reflexivity;
      [now elim Hminus | now elim Hplus]. }
  rewrite Hs1. cbn [char_at]. rewrite Hx, Hscan. reflexivity.
Qed.

(** X5.  The whole value must be the number: a value of [--spiclk] or
    [--gpio] in which something that is no digit follows the digits is
    rejected, whatever the digits are.  The empty value passes the test
    and stands for 0. *)
Theorem numeric_value_syntax :
  forall U e rest p,
    (forall d n t,
        decimal d = Some n ->
        digit_value (char_at t 0) = None -> char_at t 0 <> NUL ->
        scan_arguments U ("--spiclk" :: String.append d t :: rest) e p
        = (Some (-1), p) /\
        scan_arguments U ("--gpio" :: String.append d t :: rest) e p
        = (Some (-1), p)) /\
    (0 < U ->
     scan_arguments U ("--spiclk" :: "" :: rest) e p
     = scan_arguments U rest e (set_spi_clock 0 p) /\
     scan_arguments U ("--gpio" :: "" :: rest) e p
     = scan_arguments U rest e (set_gpio_num 0 p)).
Proof.
  intros U e rest p. split.
  - intros d n t Hd Ht Hnul.
    assert (Hinv : forall max,
               invalid_number U max (strtoul U e (String.append d t)) = true).
    { intros max. rewrite (strtoul_prefix U e d n t Hd Ht).
      assert (Hc : negb (Ascii.eqb (char_at t 0) NUL) = true).
      { apply negb_true_iff. apply Ascii.eqb_neq. exact Hnul. }
      destruct (U <? n); unfold invalid_number; rewrite Hc; reflexivity. }
    cbn [scan_arguments]. simpl strcmp_eq. cbv iota.
    rewrite !Hinv. split; reflexivity.
  - intros HU.
    cbn [scan_arguments]. simpl strcmp_eq. cbv iota.
    unfold strtoul, invalid_number. cbn.
    destruct U; try lia. split; reflexivity.
Qed.

Lemma numeric_value_syntax_witness :
  decimal "12" = Some 12 /\
  scan_arguments Demo.ULONG_MAX_64 ["--spiclk"; "12kHz"; "--fg"] 0 default_parameters
  = (Some (-1), default_parameters).
Proof.
  assert (Hd : decimal "12" = Some 12) by reflexivity.
  split; [exact Hd|].
  refine (proj1 (proj1 (numeric_value_syntax Demo.ULONG_MAX_64 0 ["--fg"]
                          default_parameters) "12" 12 "kHz" Hd eq_refl _)).
  discriminate.
Defined.

Lemma strtoul_negative U e d n :
  decimal d = Some n -> 0 < n <= U ->
  strtoul U e (String "-" d) = (U + 1 - n, "", e).
Proof.
  intros Hd Hn.
  destruct d as [|c r]; [discriminate|]. unfold decimal in Hd.
  pose proof (decimal_digits_scan _ _ _ Hd) as Hscan.
  assert (exists x, digit_value c = Some x) as [x Hx]
    by (cbn [decimal_digits] in Hd; destruct (digit_value c);
        [eauto|discriminate]).
  unfold strtoul. cbn [skip_spaces]. change (isspace "-") with false.
  cbv iota. cbn [char_at]. rewrite Hx, Hscan.
  assert (HU : (U <? n) = false) by (apply Z.ltb_ge; lia).
  rewrite HU. f_equal. f_equal.
  symmetry. apply (Z.mod_unique (- n) (U + 1) (-1)); lia.
Qed.

(** X6.  A value with a minus sign is not rejected as such: [strtoul]
    negates it in [unsigned long], and the range test sees the result.
    [-n] is accepted exactly when [ULONG_MAX + 1 - n] fits the parameter,
    which is then set to this number.  Where [unsigned long] has 32 bits
    every [-n] with [n] up to 4294967295 is accepted. *)
Theorem negative_value_wraps :
  forall U d n rest p,
    decimal d = Some n -> 0 < n <= U ->
    (scan_arguments U ("--gpio" :: String "-" d :: rest) 0 p
     = if U + 1 - n <=? UINT_MAX
       then scan_arguments U rest 0 (set_gpio_num (U + 1 - n) p)
       else (Some (-1), p)) /\
    (scan_arguments U ("--spiclk" :: String "-" d :: rest) 0 p
     = if U + 1 - n <=? UINT32_MAX
       then scan_arguments U rest 0 (set_spi_clock (U + 1 - n) p)
       else (Some (-1), p)) /\
    (U = UINT_MAX ->
     scan_arguments U ("--gpio" :: String "-" d :: rest) 0 p
     = scan_arguments U rest 0 (set_gpio_num (4294967296 - n) p)).
Proof.
  intros U d n rest p Hd Hn.
  assert (Hboth : forall max (set : Z -> parameters -> parameters),
             max = 4294967295 ->
             (if invalid_number U max (strtoul U 0 (String "-" d))
              then (Some (-1), p)
              else scan_arguments U rest (snd (strtoul U 0 (String "-" d)))
                     (set (fst (fst (strtoul U 0 (String "-" d))) mod (max + 1)) p))
             = if U + 1 - n <=? max
               then scan_arguments U rest 0 (set (U + 1 - n) p)
               else (Some (-1), p)).
  { intros max set ->. rewrite (strtoul_negative U 0 d n Hd Hn).
    unfold invalid_number. cbn [fst snd char_at].
    change (negb (Ascii.eqb NUL NUL)) with false.
    change (0 =? ERANGE) with false. rewrite andb_false_r. cbn [orb].
    destruct (U + 1 - n <=? 4294967295) eqn:Hle.
    - apply Z.leb_le in Hle.
      assert (H : (4294967295 <? U + 1 - n) = false) by (apply Z.ltb_ge; lia).
      rewrite H. rewrite Z.mod_small by lia. reflexivity.
    - apply Z.leb_gt in Hle.
      assert (H : (4294967295 <? U + 1 - n) = true) by (apply Z.ltb_lt; lia).
      now rewrite H. }
  split; [|split].
  - cbn [scan_arguments]. simpl strcmp_eq. cbv iota.
    apply (Hboth UINT_MAX set_gpio_num eq_refl).
  - cbn [scan_arguments]. simpl strcmp_eq. cbv iota.
    apply (Hboth UINT32_MAX set_spi_clock eq_refl).
  - intros HU. cbn [scan_arguments]. simpl strcmp_eq. cbv iota.
    rewrite (Hboth UINT_MAX set_gpio_num eq_refl).
    assert (Hle : (U + 1 - n <=? UINT_MAX) = true)
      by (apply Z.leb_le; lia).
    rewrite Hle. subst U. reflexivity.
Qed.

Lemma negative_value_wraps_witness :
  decimal "4" = Some 4 /\ 0 < 4 <= Demo.ULONG_MAX_32 /\
  scan_arguments Demo.ULONG_MAX_32 ["--gpio"; "-4"] 0 default_parameters
  = (None, set_gpio_num 4294967292 default_parameters).
Proof.
  assert (Hd : decimal "4" = Some 4) by reflexivity.
  assert (Hn : 0 < 4 <= Demo.ULONG_MAX_32) by (unfold Demo.ULONG_MAX_32; lia).
  split; [exact Hd|]. split; [exact Hn|].
  exact (proj2 (proj2 (negative_value_wraps Demo.ULONG_MAX_32 "4" 4 []
                         default_parameters Hd Hn)) eq_refl).
Defined.

(** ** dcpdefs.h *)

Lemma testbit_15 s :
  0 <= s <= 0xffff -> (Z.testbit s 15 = true <-> 0x8000 <= s).
Proof.
  intros Hs. rewrite Z.testbit_true by lia. change (2 ^ 15) with 32768.
  destruct (Z_lt_le_dec s 32768) as [Hlt|Hge].
  - rewrite Z.div_small by lia. split; [discriminate|lia].
  - rewrite <- (Z.div_unique s 32768 1 (s - 32768)) by lia.
    split; [lia|reflexivity].
Qed.

(** X7.  The two ranges of serial numbers and the two "invalid" values
    divide the 16-bit values between them: every value is a slave
    serial, a master serial or one of the two sentinels, and never two of
    these.  A master serial is a slave serial with bit 15 set, and bit 15
    tells the origin. *)
Theorem serials_partition_u16 :
  forall s,
    0 <= s <= 0xffff ->
    (is_slave_serial s = true \/ is_master_serial s = true \/
     s = DCPSYNC_SLAVE_SERIAL_INVALID \/ s = DCPSYNC_MASTER_SERIAL_INVALID) /\
    ((is_slave_serial s = true ->
      is_master_serial s = false /\
      s <> DCPSYNC_SLAVE_SERIAL_INVALID /\ s <> DCPSYNC_MASTER_SERIAL_INVALID) /\
     (is_master_serial s = true ->
      s <> DCPSYNC_SLAVE_SERIAL_INVALID /\ s <> DCPSYNC_MASTER_SERIAL_INVALID) /\
     DCPSYNC_SLAVE_SERIAL_INVALID <> DCPSYNC_MASTER_SERIAL_INVALID) /\
    (is_master_serial s = true
     <-> is_slave_serial (s - DCPSYNC_MASTER_SERIAL_INVALID) = true) /\
    (Z.testbit s 15 = true
     <-> is_master_serial s = true \/ s = DCPSYNC_MASTER_SERIAL_INVALID).
Proof.
  intros s Hs.
  pose proof (is_slave_serial_spec s) as Hslave.
  pose proof (is_master_serial_spec s) as Hmaster.
  pose proof (is_slave_serial_spec (s - DCPSYNC_MASTER_SERIAL_INVALID)) as Hlow.
  pose proof (testbit_15 s Hs) as Hbit.
  unfold DCPSYNC_SLAVE_SERIAL_INVALID, DCPSYNC_MASTER_SERIAL_INVALID in *.
  split; [|split; [|split]].
  - destruct (Z.eq_dec s 0); [tauto|]. destruct (Z.eq_dec s 0x8000); [tauto|].
    destruct (Z_lt_le_dec s 0x8000).
    + left. apply Hslave. lia.
    + right. left. apply Hmaster. lia.
  - split; [|split].
    + intros H. apply Hslave in H. split; [|lia].
      apply not_true_is_false. intros E. apply Hmaster in E. lia.
    + intros H. apply Hmaster in H. lia.
    + discriminate.
  - rewrite Hmaster, Hlow. lia.
  - rewrite Hbit, Hmaster. lia.
Qed.

Lemma serials_partition_u16_witness :
  0 <= 0x8001 <= 0xffff /\
  (is_master_serial 0x8001 = true ->
   0x8001 <> DCPSYNC_SLAVE_SERIAL_INVALID /\
   0x8001 <> DCPSYNC_MASTER_SERIAL_INVALID) /\
  (Z.testbit 0x8001 15 = true
   <-> is_master_serial 0x8001 = true \/ 0x8001 = DCPSYNC_MASTER_SERIAL_INVALID).
Proof.
  assert (Hs : 0 <= 0x8001 <= 0xffff) by lia.
  split; [exact Hs|]. split.
  - exact (proj1 (proj2 (proj1 (proj2 (serials_partition_u16 0x8001 Hs))))).
  - exact (proj2 (proj2 (proj2 (serials_partition_u16 0x8001 Hs)))).
Defined.

(** ** [setup] *)

(** X12.  [setup] returns 0 exactly when every call it makes succeeds,
    and then hands back the descriptors these calls returned, with -1 and
    NULL for the hardware in dummy mode; it returns -1 as soon as one call
    fails.  It returns nothing else. *)
Theorem setup_succeeds_iff_every_call_succeeds :
  forall env p h,
    (every_call_succeeds env p ->
     exists ls,
       straight env (setup env p h)
         (0, mk_handles (fd_in env p) (fd_out env p)
               (if dummy_mode p then -1 else fd_spi env p)
               (if dummy_mode p then NULL else gpio_of env p))
         ls) /\
    (~ every_call_succeeds env p ->
     exists h' ls, straight env (setup env p h) (-1, h') ls).
Proof.
  intros env p h. unfold every_call_succeeds. split.
  - intros (Hd & Hin & Hout & Hhw).
    destruct (dummy_mode p) eqn:Hdummy.
    + eexists. now apply setup_dummy.
    + destruct Hhw as [Hhw|[Hspi Hgpio]]; [discriminate|].
      eexists. now apply setup_hardware.
  - intros Hnot.
    pose proof (setup_outcome_straight env p h) as Hs.
    revert Hs. unfold setup_outcome.
    destruct (negb (run_in_foreground p) && (env_daemon env <? 0)) eqn:Hd;
      [simpl; eauto|].
    assert (Hok : daemon_ok env p).
    { unfold daemon_ok. destruct (run_in_foreground p); [now left|right].
      simpl in Hd. now apply Z.ltb_ge. }
    destruct (fd_in env p <? 0) eqn:Hin; [simpl; eauto|].
    destruct (fd_out env p <? 0) eqn:Hout; [simpl; eauto|].
    apply Z.ltb_ge in Hin, Hout.
    destruct (dummy_mode p) eqn:Hdummy; [exfalso; apply Hnot; tauto|].
    destruct (fd_spi env p <? 0) eqn:Hspi; [simpl; eauto|].
    apply Z.ltb_ge in Hspi.
    destruct (gpio_of env p) as [g|] eqn:Hg; [|simpl; eauto].
    exfalso. apply Hnot. repeat split; try assumption.
    right. split; [assumption|]. discriminate.
Qed.

Lemma setup_succeeds_iff_every_call_succeeds_witness :
  ~ every_call_succeeds Demo.no_gpio Demo.foreground /\
  exists h' ls,
    straight Demo.no_gpio
      (setup Demo.no_gpio Demo.foreground (env_indeterminate Demo.no_gpio))
      (-1, h') ls.
Proof.
  assert (H : ~ every_call_succeeds Demo.no_gpio Demo.foreground).
  { intros (_ & _ & _ & [Hd|[_ Hg]]); [discriminate Hd|]. now apply Hg. }
  split; [exact H|].
  exact (proj2 (setup_succeeds_iff_every_call_succeeds Demo.no_gpio
                  Demo.foreground (env_indeterminate Demo.no_gpio)) H).
Defined.

(** ** What never happens in the foreground *)

Lemma trace_all_observable {A} P env upd (obs : process -> A * event) :
  (forall st, trace (upd st) = trace st) ->
  (forall st, P (snd (obs st))) ->
  preserves (trace_all P) (observable env upd obs).
Proof.
  intros Hupd Hobs st H. unfold trace_all in *.
  destruct (observable_cases env upd obs st)
    as [(st1 & _ & Ht & ->)|(sig & st1 & -> & Ht & _)]; simpl.
  - rewrite Hupd, Ht. apply Forall_app. split; [assumption|].
    constructor; [apply Hobs|constructor].
  - now rewrite Ht.
Qed.

Ltac trace_all_prim :=
  first [ match goal with
  | |- preserves _ (call _ _ _) =>
      unfold call; apply trace_all_observable;
      [reflexivity|intros ?; reflexivity]
  | |- preserves _ (read_keep_running _) =>
      unfold read_keep_running; apply trace_all_observable;
      [reflexivity|intros ?; reflexivity]
  | |- preserves _ (dcpspi_process _ _ _ _) =>
      unfold dcpspi_process; apply trace_all_observable;
      [reflexivity|intros ?; reflexivity]
  | |- preserves _ (sigaction _ ?sig _) =>
      unfold sigaction; apply trace_all_observable;
      [intros ?; destruct sig; reflexivity|intros ?; reflexivity]
  end ].

Lemma foreground_main_loop_while env h :
  forall fuel t rl,
    preserves (trace_all (fun e => daemonizes e = false))
      (main_loop_while env fuel h t rl).
Proof.
  induction fuel as [|fuel IH]; intros t rl; simpl.
  - apply preserves_out_of_fuel.
  - apply preserves_bind; [trace_all_prim|intros [|]]; [|apply preserves_ret].
    apply preserves_bind; [trace_all_prim|intros r].
    destruct (fst (fst r)); [apply IH|apply preserves_ret].
Qed.

(** X8.  With [--fg] the process never turns itself into a daemon: in
    all it does, from the first action to the last, there is no
    [openlog], no [daemon], and syslog is never switched on. *)
Theorem foreground_never_daemonizes :
  forall env fuel argv p,
    process_command_line (env_ULONG_MAX env) argv = (0, p) ->
    run_in_foreground p = true ->
    trace_all (fun e => daemonizes e = false) (final_state (run env fuel argv)).
Proof.
  intros env fuel argv p Hp Hfg. unfold run.
  assert (Hmain : preserves (trace_all (fun e => daemonizes e = false))
                    (main env fuel argv)).
  { unfold main. rewrite Hp. simpl.
    apply preserves_bind.
    - unfold setup, log_version_info, error_gpio_open, error_spi_open,
        error_fifo_out.
      rewrite Hfg. simpl negb. cbv iota zeta.
      preserves_steps trace_all_prim.
    - intros [r h]. destruct (r <? 0); [apply preserves_ret|].
      apply preserves_bind; [trace_all_prim|intros _].
      apply preserves_bind; [trace_all_prim|intros _].
      apply preserves_bind; [|intros _].
      + unfold main_loop. cbv zeta.
        apply preserves_bind; [trace_all_prim|intros _].
        apply preserves_bind; [trace_all_prim|intros t].
        apply preserves_bind;
          [destruct (gpio h); preserves_steps trace_all_prim|intros gpio_fd].
        apply preserves_bind;
          [destruct (gpio h); preserves_steps trace_all_prim|intros active].
        apply foreground_main_loop_while.
      + unfold shutdown. preserves_steps trace_all_prim. }
  apply Hmain. constructor.
Qed.

Lemma foreground_never_daemonizes_witness :
  process_command_line (env_ULONG_MAX Demo.terminated) ["dcpspi"; "--fg"]
  = (0, Demo.foreground) /\
  trace_all (fun e => daemonizes e = false)
    (final_state (run Demo.terminated 20 ["dcpspi"; "--fg"])).
Proof.
  assert (Hp : process_command_line (env_ULONG_MAX Demo.terminated)
                 ["dcpspi"; "--fg"] = (0, Demo.foreground))
    by reflexivity.
  split; [exact Hp|].
  exact (foreground_never_daemonizes Demo.terminated 20%nat ["dcpspi"; "--fg"]
           Demo.foreground Hp eq_refl).
Defined.

(** ** How fast a signal stops the engine *)

Lemma no_call_after_observable {A} n env upd (obs : process -> A * event) st :
  (forall st, trace (upd st) = trace st) ->
  ((n < clock st)%nat -> forall st1, is_engine_call (snd (obs st1)) = false) ->
  no_call_after n st ->
  no_call_after n (final_state (observable env upd obs st)).
Proof.
  intros Hupd Hobs H. unfold no_call_after in *.
  destruct (observable_cases env upd obs st)
    as [(st1 & _ & Ht & ->)|(sig & st1 & -> & Ht & _)]; simpl.
  - rewrite Hupd, Ht. intros i e Hi Hn.
    destruct (Nat.lt_ge_cases i (List.length (trace st))) as [Hlt|Hge].
    + rewrite nth_error_app1 in Hi by assumption. eauto.
    + rewrite nth_error_app2 in Hi by assumption.
      destruct (i - List.length (trace st))%nat as [|k] eqn:Hk.
      * simpl in Hi. injection Hi as <-. apply Hobs. unfold clock. lia.
      * simpl in Hi. destruct k; discriminate.
  - now rewrite Ht.
Qed.

Lemma no_call_after_preserved {A} n env upd (obs : process -> A * event) :
  (forall st, trace (upd st) = trace st) ->
  (forall st, is_engine_call (snd (obs st)) = false) ->
  preserves (no_call_after n) (observable env upd obs).
Proof. intros Hupd Hobs st H. apply no_call_after_observable; auto. Qed.

Ltac no_call_prim :=
  first [ match goal with
          | |- preserves _ (call _ _ _) =>
              unfold call; apply no_call_after_preserved;
              [reflexivity|intros ?; reflexivity]
          | |- preserves _ (sigaction _ ?sig _) =>
              unfold sigaction; apply no_call_after_preserved;
              [intros ?; destruct sig; reflexivity|intros ?; reflexivity]
          end ].

Lemma preserves_conj (J1 J2 : process -> Prop) {A} (m : M A) :
  preserves J1 m -> preserves J2 m -> preserves (fun st => J1 st /\ J2 st) m.
Proof. intros H1 H2 st [Ha Hb]. split; [now apply H1|now apply H2]. Qed.

Lemma stops_main_loop_while env sig n h :
  In sig (env_signals env n) ->
  forall fuel t rl,
    preserves (fun st => will_stop sig n st /\ no_call_after n st)
      (main_loop_while env fuel h t rl).
Proof.
  intros Hin. induction fuel as [|fuel IH]; intros t rl st [HJ HN];
    [split; assumption|].
  remember (final_state (main_loop_while env (S fuel) h t rl st)) as final
    eqn:Efinal.
  simpl in Efinal. unfold bind at 1 in Efinal.
  pose proof (will_stop_stable env sig n Hin bool
                (fun st => (keep_running st, ev_read_keep_running (keep_running st)))
                st HJ) as HJ1.
  pose proof (no_call_after_preserved n env (fun st => st)
                (fun st => (keep_running st, ev_read_keep_running (keep_running st)))
                (fun _ => eq_refl) (fun _ => eq_refl) st HN) as HN1.
  fold (read_keep_running env) in HJ1, HN1.
  destruct (read_keep_running env st) as [b st1|s st1|st1] eqn:Eread;
    simpl in HJ1, HN1, Efinal; try (subst final; split; assumption).
  destruct b; [|subst final; split; assumption].
  pose proof (read_true_before env sig n st st1 Hin HJ Eread) as Hlt.
  assert (Hc1 : clock st1 = S (clock st))
    by (apply (observable_Done_clock _ _ _ _ _ _ (fun _ => eq_refl) Eread)).
  unfold bind at 1 in Efinal.
  pose proof (will_stop_dcpspi_process env sig n h t rl Hin st1 HJ1) as HJ2.
  assert (HN2 : no_call_after n (final_state (dcpspi_process env h t rl st1))).
  { unfold dcpspi_process. apply no_call_after_observable;
      [reflexivity| |assumption].
    intros Hlate. lia. }
  destruct (dcpspi_process env h t rl st1) as [r st2|s st2|st2];
    simpl in HJ2, HN2, Efinal; try (subst final; split; assumption).
  destruct (fst (fst r)); [|subst final; split; assumption].
  subst final. apply IH. split; assumption.
Qed.

(** X10.  A SIGINT or SIGTERM that is not ignored stops the engine at
    once: after the time at which it arrives no call of the engine is
    started, in the loop or anywhere else.  The call during which the
    signal arrives is the last one. *)
Theorem no_engine_call_after_signal :
  forall env fuel argv sig n,
    env_inherited env sig <> SIG_IGN ->
    In sig (env_signals env n) ->
    no_call_after n (final_state (run env fuel argv)).
Proof.
  intros env fuel argv sig n Hinh Hin. unfold run.
  pose proof (will_stop_stable env sig n Hin) as Hst.
  assert (Hmain : preserves (fun st => will_stop sig n st /\ no_call_after n st)
                    (main env fuel argv)).
  { unfold main.
    destruct (process_command_line (env_ULONG_MAX env) argv) as [r p].
    destruct (r =? -1); [apply preserves_ret|].
    destruct (r =? 1).
    { apply preserves_conj; [preserves_steps ltac:(stable_prim Hst)
                            |preserves_steps no_call_prim]. }
    destruct (r =? 2).
    { apply preserves_conj; [preserves_steps ltac:(stable_prim Hst)
                            |preserves_steps no_call_prim]. }
    apply preserves_bind.
    { apply preserves_conj; [now apply stable_setup|].
      unfold setup, log_version_info, error_gpio_open, error_spi_open,
        error_fifo_out.
      cbv zeta. preserves_steps no_call_prim. }
    intros [r' h]. destruct (r' <? 0); [apply preserves_ret|].
    apply preserves_bind;
      [apply preserves_conj; [now apply will_stop_sigaction|no_call_prim]
      |intros _].
    apply preserves_bind;
      [apply preserves_conj; [now apply will_stop_sigaction|no_call_prim]
      |intros _].
    apply preserves_bind; [|intros _].
    - unfold main_loop. cbv zeta.
      apply preserves_bind;
        [apply preserves_conj; [stable_prim Hst|no_call_prim]|intros _].
      apply preserves_bind;
        [apply preserves_conj; [stable_prim Hst|no_call_prim]|intros t].
      apply preserves_bind;
        [destruct (gpio h);
         (apply preserves_conj;
          [preserves_steps ltac:(stable_prim Hst)|preserves_steps no_call_prim])
        |intros gpio_fd].
      apply preserves_bind;
        [destruct (gpio h);
         (apply preserves_conj;
          [preserves_steps ltac:(stable_prim Hst)|preserves_steps no_call_prim])
        |intros active].
      now apply stops_main_loop_while.
    - apply preserves_conj; [now apply stable_shutdown|].
      unfold shutdown. preserves_steps no_call_prim. }
  apply Hmain. split.
  - split; [destruct sig; exact Hinh|]. unfold clock. simpl. lia.
  - intros i e Hi. destruct i; discriminate Hi.
Qed.

Lemma no_engine_call_after_signal_witness :
  In SIGTERM (env_signals Demo.terminated 12) /\
  nth_error (trace (final_state (run Demo.terminated 20 ["dcpspi"; "--fg"]))) 13
  = Some (ev_read_keep_running false) /\
  is_engine_call (ev_read_keep_running false) = false.
Proof.
  assert (Hin : In SIGTERM (env_signals Demo.terminated 12))
    by (vm_compute; tauto).
  assert (H13 : nth_error
                  (trace (final_state (run Demo.terminated 20 ["dcpspi"; "--fg"])))
                  13
                = Some (ev_read_keep_running false))
    by (vm_compute; reflexivity).
  split; [exact Hin|]. split; [exact H13|].
  refine (no_engine_call_after_signal Demo.terminated 20%nat ["dcpspi"; "--fg"]
            SIGTERM 12%nat _ Hin 13%nat _ H13 _).
  - discriminate.
  - lia.
Defined.

(** ** A signal that arrives before its handler is installed *)






(** ** One signal of each kind after the handlers are installed *)

Lemma deliver_all_armed sigs :
  NoDup sigs ->
  forall st,
    (forall s, In s sigs -> disposition_of s st = SIG_ACTION action) ->
    exists st1,
      deliver_all sigs st = Done tt st1 /\ trace st1 = trace st /\
      forall s, ~ In s sigs -> disposition_of s st1 = disposition_of s st.
Proof.
  induction 1 as [|s more Hnotin Hnd IH]; intros st Harm; simpl.
  - exists st. auto.
  - pose proof (deliver_spec s st) as H.
    rewrite (Harm s (or_introl eq_refl)), action_resets in H. rewrite H.
    destruct (IH (set_keep_running false (set_disposition s SIG_DFL st)))
      as (st1 & E & Ht & Hd).
    { intros s' Hin'. assert (Hne : s' <> s) by (intros ->; contradiction).
      transitivity (disposition_of s' st);
        [destruct s', s; try reflexivity; now elim Hne|].
      apply Harm. now right. }
    exists st1. split; [exact E|]. split.
    + rewrite Ht. destruct s; reflexivity.
    + intros s' Hn. rewrite Hd by (intros Hin'; apply Hn; now right).
      destruct s', s; try reflexivity; elim Hn; now left.
Qed.

Lemma survives_observable {A} env upd (obs : process -> A * event) :
  at_most_once env ->
  (forall st, trace (upd st) = trace st) ->
  (forall sig st, disposition_of sig (upd st) = disposition_of sig st) ->
  survives (armed env) (observable env upd obs).
Proof.
  intros [Hnd Hone] Hut Hud st Harm. unfold observable.
  destruct (deliver_all_armed (env_signals env (clock st)) (Hnd _) st)
    as (st1 & E & Ht & Hd).
  { intros s Hin. apply (Harm s (clock st)); [lia|assumption]. }
  rewrite E. simpl. split; [|discriminate].
  intros sig k Hk Hin.
  assert (Hc : clock (log (snd (obs st1)) (upd st1)) = S (clock st))
    by (rewrite clock_log, (clock_trace st1 (upd st1)), (clock_trace st st1);
        auto).
  rewrite Hc in Hk.
  transitivity (disposition_of sig (upd st1)); [destruct sig; reflexivity|].
  rewrite Hud, Hd.
  - apply (Harm sig k); [lia|assumption].
  - intros Hin'. pose proof (Hone sig _ _ Hin' Hin). lia.
Qed.

Lemma survives_ret J {A} (a : A) : survives J (ret a).
Proof. intros st H. split; [exact H|discriminate]. Qed.

Lemma survives_out_of_fuel J {A} : survives J (@out_of_fuel A).
Proof. intros st H. split; [exact H|discriminate]. Qed.

Lemma survives_bind J {A B} (m : M A) (k : A -> M B) :
  survives J m -> (forall a, survives J (k a)) -> survives J (bind m k).
Proof.
  intros Hm Hk st H. unfold bind. destruct (Hm st H) as [HJ Hn].
  destruct (m st) as [a st1|s st1|st1]; simpl in HJ.
  - now apply Hk.
  - now elim (Hn s st1).
  - split; [exact HJ|discriminate].
Qed.

Ltac survives_prim H :=
  first [ match goal with
          | |- survives _ (call _ _ _) =>
              unfold call; apply survives_observable;
              [exact H|reflexivity|reflexivity]
          | |- survives _ (read_keep_running _) =>
              unfold read_keep_running; apply survives_observable;
              [exact H|reflexivity|reflexivity]
          | |- survives _ (dcpspi_process _ _ _ _) =>
              unfold dcpspi_process; apply survives_observable;
              [exact H|reflexivity|reflexivity]
          end ].

Ltac survives_steps H :=
  repeat first
    [ apply survives_ret
    | apply survives_out_of_fuel
    | survives_prim H
    | apply survives_bind; [ | intros ? ]
    | match goal with
      | |- survives _ (if ?b then _ else _) => destruct b
      | |- survives _ (match ?x with Some _ => _ | None => _ end) => destruct x
      end ].

Lemma survives_main_loop_while env h :
  at_most_once env ->
  forall fuel t rl, survives (armed env) (main_loop_while env fuel h t rl).
Proof.
  intros H. induction fuel as [|fuel IH]; intros t rl; simpl.
  - apply survives_out_of_fuel.
  - apply survives_bind; [survives_prim H|intros [|]]; [|apply survives_ret].
    apply survives_bind; [survives_prim H|intros r].
    destruct (fst (fst r)); [apply IH|apply survives_ret].
Qed.

Lemma survives_main_loop env fuel h :
  at_most_once env -> survives (armed env) (main_loop env fuel h).
Proof.
  intros H. unfold main_loop. cbv zeta.
  apply survives_bind; [survives_prim H|intros _].
  apply survives_bind; [survives_prim H|intros t].
  apply survives_bind; [destruct (gpio h); survives_steps H|intros gpio_fd].
  apply survives_bind; [destruct (gpio h); survives_steps H|intros active].
  now apply survives_main_loop_while.
Qed.

Lemma survives_shutdown env p h :
  at_most_once env -> survives (armed env) (shutdown env p h).
Proof. intros H. unfold shutdown. survives_steps H. Qed.

(** Signals that arrive once each, after the handlers are installed, do
    not terminate the process, and one of them ends the run. *)
Lemma single_signals_are_survived :
  forall env fuel argv p,
    process_command_line (env_ULONG_MAX env) argv = (0, p) ->
    let o := setup_outcome env p (env_indeterminate env) in
    fst (fst o) = 0 ->
    quiet env 0 (List.length (snd o) + 2) ->
    at_most_once env ->
    (forall s st, run env fuel argv <> Killed s st) /\
    (forall sig n,
        In sig (env_signals env n) -> (n < fuel)%nat ->
        exists st, run env fuel argv = Done EXIT_SUCCESS st).
Proof.
  intros env fuel argv p Hp o Hok Hq Hone.
  pose proof (setup_outcome_straight env p (env_indeterminate env)) as Hs.
  fold o in Hs. destruct o as [[r h] ls]. simpl in Hok, Hq, Hs. subst r.
  remember (run env fuel argv) as outcome eqn:Erun.
  unfold run, main in Erun. rewrite Hp in Erun. simpl in Erun.
  unfold bind at 1 in Erun. pose proof (Hs (initial_process env)) as Hsetup.
  destruct (setup env p (env_indeterminate env) (initial_process env))
    as [a st1|s st1|st1]; [| |contradiction].
  2:{ destruct Hsetup as (_ & Hnq & _). elim Hnq.
      intros k Hk. apply Hq. change (clock (initial_process env)) with 0%nat in Hk.
      lia. }
  destruct Hsetup as (-> & Ht1 & _). simpl in Ht1. cbn [Z.ltb Z.compare] in Erun.
  assert (Hc1 : clock st1 = List.length ls) by (unfold clock; now rewrite Ht1).
  unfold bind at 1 in Erun. rewrite sigaction_quiet in Erun by (apply Hq; lia).
  unfold bind at 1 in Erun. rewrite sigaction_quiet in Erun
    by (apply Hq; rewrite clock_log; unfold clock in *; simpl; lia).
  match type of Erun with _ = _ ?s => set (st3 := s) in * end.
  assert (Harm : armed env st3) by (intros [|] k _ _; reflexivity).
  assert (Hc3 : clock st3 = (List.length ls + 2)%nat).
  { unfold st3, clock in *. simpl. rewrite !length_app. simpl. lia. }
  subst outcome.
  destruct (survives_main_loop env fuel h Hone st3 Harm) as [Harm4 Hnk4].
  split.
  - intros s st E. unfold bind in E.
    destruct (main_loop env fuel h st3) as [[] st4|s4 st4|st4].
    + simpl in Harm4.
      destruct (survives_shutdown env p h Hone st4 Harm4) as [_ Hnk5].
      exact (Hnk5 s st E).
    + exact (Hnk4 s4 st4 eq_refl).
    + discriminate.
  - intros sig n Hin Hn. unfold bind.
    assert (Hge : (List.length ls + 2 <= n)%nat).
    { destruct (Nat.le_gt_cases (List.length ls + 2) n) as [H|H];
        [assumption|].
      rewrite Hq in Hin by lia. contradiction. }
    assert (HJ : will_stop sig n st3).
    { split; [rewrite (Harm sig n) by (assumption || lia); discriminate|].
      intros H. lia. }
    pose proof (main_loop_terminates env sig n fuel h st3 Hin HJ Hn) as Hfuel.
    destruct (main_loop env fuel h st3) as [[] st4|s4 st4|st4].
    + simpl in Harm4.
      destruct (survives_shutdown env p h Hone st4 Harm4) as [_ Hnk5].
      pose proof (shutdown_straight env p h st4) as Hdown.
      destruct (shutdown env p h st4) as [code st5|s5 st5|st5].
      * destruct Hdown as (-> & _). eauto.
      * now elim (Hnk5 s5 st5).
      * contradiction.
    + now elim (Hnk4 s4 st4).
    + now elim (Hfuel st4).
Qed.

(** X11.  When [setup] succeeds, no signal arrives before both handlers
    are installed, and no signal arrives twice, the process is never
    terminated by a signal; and when a signal does arrive, the run ends
    by itself with exit status 0 after it has done all of this and
    nothing else: the actions of [setup], the installation of the
    handlers, the entry of the main loop, complete iterations of the loop
    up to the one that leaves it, and the shutdown of [main], which
    releases what [setup] opened. *)
Theorem single_signals_shut_down_gracefully :
  forall env fuel argv p,
    process_command_line (env_ULONG_MAX env) argv = (0, p) ->
    let o := setup_outcome env p (env_indeterminate env) in
    let h := snd (fst o) in
    let c := (List.length (snd o) + 2 + List.length (loop_prologue env h))%nat in
    fst (fst o) = 0 ->
    quiet env 0 (List.length (snd o) + 2) ->
    at_most_once env ->
    (forall s st, run env fuel argv <> Killed s st) /\
    (forall sig n,
        In sig (env_signals env n) -> (n < fuel)%nat ->
        exists st l,
          run env fuel argv = Done EXIT_SUCCESS st /\
          loop_trace env h c (first_transaction env) (first_rldata env h) true l /\
          trace st = snd o ++ install_handlers ++ loop_prologue env h ++ l
                        ++ shutdown_events p h).
Proof.
  intros env fuel argv p Hp o h c Hok Hq Hone.
  destruct (single_signals_are_survived env fuel argv p Hp Hok Hq Hone)
    as [Hnk Hdone].
  split; [exact Hnk|]. intros sig n Hin Hn.
  destruct (Hdone sig n Hin Hn) as [st E].
  pose proof (setup_outcome_straight env p (env_indeterminate env)) as Hs.
  fold o in Hs.
  assert (Ho : fst o = (0, h))
    by (subst h; destruct o as [[r h'] ls]; simpl in *; now subst r).
  rewrite Ho in Hs.
  pose proof (run_after_setup env fuel argv p h (snd o) Hp Hs) as H.
  cbv zeta in H. rewrite E in H. destruct H as (_ & l & Hl & Ht).
  exists st, l. split; [exact E|]. split; [exact Hl|exact Ht].
Qed.

Lemma single_signals_shut_down_gracefully_witness :
  let env := Demo.board Demo.ULONG_MAX_64 (Demo.at_time 17 [SIGTERM])
               Demo.always_continue in
  let h := mk_handles 3 4 5 (Some 4) in
  fst (fst (setup_outcome env Demo.foreground (env_indeterminate env))) = 0 /\
  In SIGTERM (env_signals env 17) /\
  exists st l,
    run env 20 ["dcpspi"; "--fg"] = Done EXIT_SUCCESS st /\
    loop_trace env h 13 (first_transaction env) (first_rldata env h) true l /\
    trace st
    = [ev_msg_enable_syslog false; ev_log_version_info;
       ev_fifo_create_and_open "/tmp/dcp_to_spi" false 3;
       ev_fifo_create_and_open "/tmp/spi_to_dcp" true 4;
       ev_spi_open_device "/dev/spidev0.0" 5; ev_gpio_open 4 (Some 4);
       ev_spi_set_speed_hz 0]
      ++ install_handlers ++ loop_prologue env h ++ l
      ++ shutdown_events Demo.foreground h.
Proof.
  intros env h.
  assert (Hp : process_command_line (env_ULONG_MAX env)
                 ["dcpspi"; "--fg"] = (0, Demo.foreground))
    by (vm_compute; reflexivity).
  assert (Hok : fst (fst (setup_outcome env Demo.foreground
                            (env_indeterminate env))) = 0)
    by reflexivity.
  assert (Hq : quiet env 0
                 (List.length
                    (snd (setup_outcome env Demo.foreground
                            (env_indeterminate env))) + 2)).
  { intros n Hn. vm_compute in Hn. simpl. unfold Demo.at_time.
    destruct (Nat.eqb_spec n 17) as [->|_]; [|reflexivity].
    destruct Hn as [_ Hn]. apply Nat.leb_le in Hn. discriminate Hn. }
  assert (Hone : at_most_once env).
  { split.
    - intros k. simpl. unfold Demo.at_time.
      destruct (Nat.eqb k 17); repeat constructor. simpl. tauto.
    - intros sig k1 k2. simpl. unfold Demo.at_time.
      destruct (Nat.eqb_spec k1 17), (Nat.eqb_spec k2 17); simpl;
        try tauto. congruence. }
  assert (Hin : In SIGTERM (env_signals env 17))
    by (vm_compute; tauto).
  split; [exact Hok|]. split; [exact Hin|].
  exact (proj2 (single_signals_shut_down_gracefully env 20%nat
                  ["dcpspi"; "--fg"] Demo.foreground Hp Hok Hq Hone)
           SIGTERM 17%nat Hin ltac:(lia)).
Defined.

(** ** With the hardware *)

(** X13.  Outside dummy mode, when every call of [setup] succeeds, the
    main loop asks the GPIO for its descriptor and for the state of the
    request line before it enters the loop, and hands both to the engine
    with [is_running_for_real] set; the engine is called with the three
    descriptors [setup] opened.  After the loop the SPI device, the two
    channels and the GPIO are closed, in this order. *)
Theorem hardware_mode_drives_the_devices :
  forall env fuel argv p g,
    process_command_line (env_ULONG_MAX env) argv = (0, p) ->
    dummy_mode p = false ->
    daemon_ok env p -> 0 <= fd_in env p -> 0 <= fd_out env p ->
    0 <= fd_spi env p -> gpio_of env p = Some g ->
    let h := mk_handles (fd_in env p) (fd_out env p) (fd_spi env p) (Some g) in
    let ls := setup_prologue env p
                ++ [open_in env p; open_out env p; open_spi env p;
                    open_gpio env p]
                ++ configure env p in
    let enter := [ev_msg_info "Accepting traffic";
                  ev_reset_transaction_struct initial_transaction;
                  ev_gpio_get_poll_fd (Some g) (env_gpio_get_poll_fd env (Some g));
                  ev_gpio_is_active (Some g) (env_gpio_is_active env (Some g))] in
    let rl := mk_rldata (Some g) (env_gpio_get_poll_fd env (Some g)) true
                (env_gpio_is_active env (Some g)) in
    let c := (List.length ls + 6)%nat in
    match run env fuel argv with
    | Done code st =>
        code = EXIT_SUCCESS /\
        exists l,
          loop_trace env h c (first_transaction env) rl true l /\
          trace st = ls ++ install_handlers ++ enter ++ l
                        ++ [ev_msg_info "Terminated, shutting down";
                            close_spi env p; close_in env p; close_out env p;
                            ev_gpio_close (Some g)]
    | Killed sig st => disposition_of sig st = SIG_DFL
    | OutOfFuel st =>
        exists l,
          loop_trace env h c (first_transaction env) rl false l /\
          trace st = ls ++ install_handlers ++ enter ++ l
    end /\
    (quiet env 0 (c + 2) ->
     exists rest,
       trace (final_state (run env (S fuel) argv))
       = ls ++ install_handlers ++ enter
            ++ [ev_read_keep_running true;
                step_event h (first_transaction env) rl
                  (fst (fst (env_dcpspi_process env (S c) (fd_in env p)
                               (fd_out env p) (fd_spi env p)
                               (first_transaction env) rl)))]
            ++ rest).
Proof.
  intros env fuel argv p g Hp Hdummy Hd Hin Hout Hspi Hg h ls enter rl c.
  assert (Hgpio : gpio_of env p <> NULL) by (rewrite Hg; discriminate).
  pose proof (setup_hardware env p (env_indeterminate env) Hd Hin Hout Hdummy
                Hspi Hgpio) as Hs.
  rewrite Hg in Hs. fold h ls in Hs.
  split.
  - pose proof (run_after_setup env fuel argv p h ls Hp Hs) as H.
    unfold shutdown_events in H. rewrite Hdummy in H.
    change (loop_prologue env h) with enter in H.
    change (first_rldata env h) with rl in H.
    replace (List.length ls + 2 + List.length enter)%nat with c in H
      by (subst c; simpl; lia).
    exact H.
  - intros Hq.
    pose proof (run_first_step env fuel argv p h ls Hp Hs) as H.
    change (loop_prologue env h) with enter in H.
    change (first_rldata env h) with rl in H.
    replace (List.length ls + 2 + List.length enter)%nat with c in H
      by (subst c; simpl; lia).
    apply H. exact Hq.
Qed.

Lemma hardware_mode_drives_the_devices_witness :
  process_command_line (env_ULONG_MAX Demo.one_step) ["dcpspi"; "--fg"]
  = (0, Demo.foreground) /\
  gpio_of Demo.one_step Demo.foreground = Some 4 /\
  exists st l,
    run Demo.one_step 3 ["dcpspi"; "--fg"] = Done EXIT_SUCCESS st /\
    trace st
    = [ev_msg_enable_syslog false; ev_log_version_info;
       ev_fifo_create_and_open "/tmp/dcp_to_spi" false 3;
       ev_fifo_create_and_open "/tmp/spi_to_dcp" true 4;
       ev_spi_open_device "/dev/spidev0.0" 5; ev_gpio_open 4 (Some 4);
       ev_spi_set_speed_hz 0]
      ++ install_handlers
      ++ [ev_msg_info "Accepting traffic";
          ev_reset_transaction_struct initial_transaction;
          ev_gpio_get_poll_fd (Some 4) 6; ev_gpio_is_active (Some 4) false]
      ++ l
      ++ [ev_msg_info "Terminated, shutting down"; ev_spi_close_device 5;
          ev_fifo_close_and_delete 3 "/tmp/dcp_to_spi";
          ev_fifo_close_and_delete 4 "/tmp/spi_to_dcp"; ev_gpio_close (Some 4)].
Proof.
  assert (Hp : process_command_line (env_ULONG_MAX Demo.one_step)
                 ["dcpspi"; "--fg"] = (0, Demo.foreground))
    by reflexivity.
  assert (Hd : daemon_ok Demo.one_step Demo.foreground) by (now left).
  assert (Hin : 0 <= fd_in Demo.one_step Demo.foreground)
    by (vm_compute; discriminate).
  assert (Hout : 0 <= fd_out Demo.one_step Demo.foreground)
    by (vm_compute; discriminate).
  assert (Hspi : 0 <= fd_spi Demo.one_step Demo.foreground)
    by (vm_compute; discriminate).
  assert (Hg : gpio_of Demo.one_step Demo.foreground = Some 4) by reflexivity.
  split; [exact Hp|]. split; [exact Hg|].
  assert (E : run Demo.one_step 3 ["dcpspi"; "--fg"]
              = Done EXIT_SUCCESS
                  (final_state (run Demo.one_step 3 ["dcpspi"; "--fg"])))
    by (vm_compute; reflexivity).
  pose proof (hardware_mode_drives_the_devices Demo.one_step 3%nat
                ["dcpspi"; "--fg"] Demo.foreground 4 Hp eq_refl Hd Hin
                Hout Hspi Hg) as H.
  cbv zeta in H. destruct H as [H _].
  set (outcome := run Demo.one_step 3 ["dcpspi"; "--fg"]) in *.
  clearbody outcome. rewrite E in H. cbv iota in H.
  destruct H as (_ & l & _ & Ht).
  exists (final_state outcome), l. split; [exact E|exact Ht].
Defined.
